(** * amocrm-events-monitor: a shallow embedding and its verified properties

    The development follows the layout of the Python package [app]:

    - [Py]               the fragment of Python's data model the code relies on
                         (JSON values, exceptions, truthiness, [in], slicing);
    - [EventsProcessor]  [app/events_processor.py];
    - [HttpClient]       [app/http_client.py] (the tenacity retry decorator
                         around one GET);
    - [AmoCRMClient]     [app/amocrm_client.py] (the paginated fetch);
    - [Clock]            [datetime] values, [strftime] and [strptime];
    - [LatencyChecker]   [app/latency_checker.py] (the SQLite table as a list
                         of rows);
    - [DailyReport]      [app/main_daily_report.py].

    Definitions come first, module by module; the theorems follow. *)

From Stdlib Require Import ZArith List String Ascii Bool Lia.
From Stdlib Require Import Sorting.Sorted Sorting.Permutation.
From Stdlib Require Import Structures.OrderedTypeEx.
Import ListNotations.

Local Open Scope string_scope.
Local Open Scope list_scope.
Local Open Scope Z_scope.

Set Warnings "-register-all".

(* ================================================================= *)
(** ** Python values, exceptions and the operations the code uses     *)
(* ================================================================= *)

Module Py.

(** A decoded JSON document, as [response.json()] hands it to the program.
    Numbers are the integers of the amoCRM payloads. A [VDict] is a Python
    [dict] with string keys, kept as an association list in insertion
    order; the first binding of a key is the one a lookup sees. *)
Inductive Value : Type :=
| VNone
| VBool (b : bool)
| VInt (n : Z)
| VStr (s : string)
| VList (items : list Value)
| VDict (fields : list (string * Value)).

(** The exception classes that occur in the modelled code. *)
Inductive Exn : Type :=
| RuntimeError (msg : string)
| HTTPStatusError (status_code : Z)
| RequestError (detail : string)
| JSONDecodeError
| AttributeError
| TypeError
| ValueError
| OverflowError.

(** A call either returns or raises. *)
Inductive Result (A : Type) : Type :=
| Ok (a : A)
| Raise (e : Exn).
Arguments Ok {A} a.
Arguments Raise {A} e.

Definition bind {A B : Type} (r : Result A) (k : A -> Result B) : Result B :=
  match r with
  | Ok a => k a
  | Raise e => Raise e
  end.

Notation "x <- r ;; k" := (bind r (fun x => k))
  (at level 61, r at next level, right associativity).

(** [d.get(key)] and [d.get(key, default)] on a dict. *)
Fixpoint dict_get {V : Type} (d : list (string * V)) (key : string) : option V :=
  match d with
  | [] => None
  | (k, v) :: rest => if String.eqb k key then Some v else dict_get rest key
  end.

Definition dict_get_default {V : Type} (d : list (string * V)) (key : string)
    (default : V) : V :=
  match dict_get d key with
  | Some v => v
  | None => default
  end.

Definition is_None (v : Value) : bool :=
  match v with
  | VNone => true
  | _ => false
  end.

Definition bool_to_int (b : bool) : Z := if b then 1 else 0.

(** [v == n] for an [int] [n]: [bool] is a subclass of [int], every other
    JSON value differs from every integer. *)
Definition eq_int (v : Value) (n : Z) : bool :=
  match v with
  | VInt m => m =? n
  | VBool b => bool_to_int b =? n
  | _ => false
  end.

(** [v in ids] for a list of ints. *)
Definition in_ints (v : Value) (ids : list Z) : bool :=
  existsb (eq_int v) ids.

(** Only these JSON values have a hash: a list or a dict used as a dict key
    raises [TypeError]. *)
Definition hashable (v : Value) : bool :=
  match v with
  | VList _ | VDict _ => false
  | _ => true
  end.

(** Equality of two dict keys ([True == 1] and [False == 0] hold in
    Python, so they are the same key). *)
Definition key_eqb (a b : Value) : bool :=
  match a, b with
  | VNone, VNone => true
  | VBool x, VBool y => Bool.eqb x y
  | VInt m, VInt n => m =? n
  | VBool x, VInt n => bool_to_int x =? n
  | VInt m, VBool y => m =? bool_to_int y
  | VStr s, VStr t => String.eqb s t
  | _, _ => false
  end.

(** [len(x)]. *)
Definition len (v : Value) : Result Z :=
  match v with
  | VStr s => Ok (Z.of_nat (String.length s))
  | VList l => Ok (Z.of_nat (List.length l))
  | VDict d => Ok (Z.of_nat (List.length d))
  | _ => Raise TypeError
  end.

(** Truth value of an object, as [if x], [not x] and [x or y] test it. *)
Definition truthy (v : Value) : bool :=
  match v with
  | VNone => false
  | VBool b => b
  | VInt n => negb (n =? 0)
  | VStr s => negb (String.eqb s "")
  | VList l => match l with [] => false | _ => true end
  | VDict d => match d with [] => false | _ => true end
  end.

(** [l[:stop]]: a negative [stop] counts from the end. *)
Definition slice_to {A : Type} (l : list A) (stop : Z) : list A :=
  if stop <? 0
  then firstn (Z.to_nat (Z.max 0 (Z.of_nat (List.length l) + stop))) l
  else firstn (Z.to_nat stop) l.

(** [x or y] for an optional int: [None] and [0] are both false. *)
Definition int_or (x : option Z) (y : Z) : Z :=
  match x with
  | Some n => if n =? 0 then y else n
  | None => y
  end.

End Py.

Import Py.

(* ================================================================= *)
(** ** app/events_processor.py                                        *)
(* ================================================================= *)

Module EventsProcessor.

(** An event is a [dict[str, Any]]. *)
Definition Event : Type := list (string * Value).

(** A [dict] of counts, in insertion order. The keys are the values found
    under ["type"]. *)
Definition Counts : Type := list (Value * Z).

Record t : Type := { top_limit : Z }.

(** [__init__]: [self.top_limit = top_limit or settings.TOP_EVENTS_LIMIT]. *)
Definition init (top_limit : option Z) (TOP_EVENTS_LIMIT : Z) : t :=
  {| top_limit := int_or top_limit TOP_EVENTS_LIMIT |}.

(** [event.get("created_by")]. *)
Definition created_by (event : Event) : Value :=
  dict_get_default event "created_by" VNone.

(** The test of the loop body:
    [created_by is None or created_by not in user_ids]. *)
Definition is_automated (user_ids : list Z) (event : Event) : bool :=
  let created_by := created_by event in
  is_None created_by || negb (in_ints created_by user_ids).

(** [filter_automated_events]: the [for] loop appending to
    [automated_events]. *)
Definition filter_automated_events (events : list Event) (user_ids : list Z)
    : list Event :=
  fold_left
    (fun automated_events event =>
       if is_automated user_ids event
       then automated_events ++ [event]
       else automated_events)
    events [].

(** [event.get("type", "unknown")]. *)
Definition event_type (event : Event) : Value :=
  dict_get_default event "type" (VStr "unknown").

(** One step of [Counter]: [self[elem] = self.get(elem, 0) + 1]. An existing
    key keeps its place, a new key goes last. *)
Fixpoint counter_add (counts : Counts) (elem : Value) : Counts :=
  match counts with
  | [] => [(elem, 1)]
  | (k, c) :: rest =>
      if key_eqb k elem then (k, c + 1) :: rest
      else (k, c) :: counter_add rest elem
  end.

(** [Counter(iterable)], continuing from [counts]; hashing an unhashable
    element raises. *)
Fixpoint counter_update (counts : Counts) (elems : list Value) : Result Counts :=
  match elems with
  | [] => Ok counts
  | elem :: rest =>
      if hashable elem then counter_update (counter_add counts elem) rest
      else Raise TypeError
  end.

(** [count_event_types]. *)
Definition count_event_types (events : list Event) : Result Counts :=
  let event_types := map event_type events in
  counter_update [] event_types.

(** [sorted(items, key=lambda x: x[1], reverse=True)]: a stable sort,
    descending by count; items with equal counts stay in input order. *)
Fixpoint insert_desc (x : Value * Z) (l : Counts) : Counts :=
  match l with
  | [] => [x]
  | y :: rest => if snd x <? snd y then y :: insert_desc x rest else x :: l
  end.

Definition sorted_by_count_desc (items : Counts) : Counts :=
  fold_right insert_desc [] items.

(** [get_top_events]. *)
Definition get_top_events (self : t) (type_counts : Counts) (limit : option Z)
    : Counts :=
  let limit := int_or limit self.(top_limit) in
  slice_to (sorted_by_count_desc type_counts) limit.

(** [process_events]. *)
Definition process_events (self : t) (events : list Event) (user_ids : list Z)
    : Result Counts :=
  let automated_events := filter_automated_events events user_ids in
  match automated_events with
  | [] => Ok []
  | _ =>
      type_counts <- count_event_types automated_events ;;
      match type_counts with
      | [] => Ok []
      | _ => Ok (get_top_events self type_counts None)
      end
  end.

(** [sum(counts.values())] and [counts.get(key, 0)]. *)
Definition sum_values (counts : Counts) : Z :=
  fold_right (fun kc acc => snd kc + acc) 0 counts.

Fixpoint count_of (counts : Counts) (key : Value) : Z :=
  match counts with
  | [] => 0
  | (k, c) :: rest => if key_eqb k key then c else count_of rest key
  end.

End EventsProcessor.

(* ================================================================= *)
(** ** app/http_client.py                                             *)
(* ================================================================= *)

Module HttpClient.

(** The arguments of [self._client.get(url, headers=..., params=...)]. *)
Record Request : Type := {
  url : string;
  headers : list (string * string);
  params : option (list (string * Value))
}.

(** An [httpx.Response]: the status code and what [response.json()]
    decodes ([None] when the body is not JSON). *)
Record Response : Type := {
  status_code : Z;
  json_body : option Value
}.

(** One call of the underlying request returns a response or raises. *)
Inductive TransportResult : Type :=
| Responded (response : Response)
| Failed (e : Exn).

(** The world outside the client: the two settings it reads, the answer of
    the OAuth2 token manager, and the transport. [transport n req] is what
    the [n]-th invocation of the underlying request (counting from 0) does
    with request [req]. *)
Record Env : Type := {
  AMO_LONG_LIVE_TOKEN : option string;
  default_token_manager : Result string;
  transport : nat -> Request -> TransportResult
}.

(** The client object: [base_url], and whether [self._client] is set
    (it is between [__aenter__] and [__aexit__]). *)
Record t : Type := {
  base_url : string;
  client_open : bool
}.

(** What one call of the decorated [get] leaves behind: the number of
    invocations of the underlying request, the number of executions of the
    body of [get], and the pauses tenacity slept, oldest first. *)
Record Session : Type := {
  requests_made : nat;
  attempts_made : nat;
  slept : list Z
}.

Definition fresh : Session :=
  {| requests_made := 0; attempts_made := 0; slept := [] |}.

(** [__aenter__]. *)
Definition aenter (self : t) : t :=
  {| base_url := self.(base_url); client_open := true |}.

(** [_get_access_token]. *)
Definition _get_access_token (env : Env) : Result string :=
  token <- env.(default_token_manager) ;;
  if String.eqb token "" then Raise (RuntimeError "Access token недоступен")
  else Ok token.

Definition bearer (token : string) : list (string * string) :=
  [("Authorization", String.append "Bearer " token);
   ("Content-Type", "application/json")].

(** [_get_headers]: the long-lived token when it is set and not empty,
    else the token manager's. *)
Definition _get_headers (env : Env) : Result (list (string * string)) :=
  match env.(AMO_LONG_LIVE_TOKEN) with
  | Some token =>
      if String.eqb token ""
      then (access_token <- _get_access_token env ;; Ok (bearer access_token))
      else Ok (bearer token)
  | None => access_token <- _get_access_token env ;; Ok (bearer access_token)
  end.

(** [httpx]'s [Response.is_success] and [raise_for_status]. *)
Definition is_success (response : Response) : bool :=
  (200 <=? response.(status_code)) && (response.(status_code) <=? 299).

Definition raise_for_status (response : Response) : Result unit :=
  if is_success response then Ok tt
  else Raise (HTTPStatusError response.(status_code)).

(** [response.json()]. *)
Definition json (response : Response) : Result Value :=
  match response.(json_body) with
  | Some data => Ok data
  | None => Raise JSONDecodeError
  end.

(** [x.get(key, default)] on a decoded value: only a dict has [get]. *)
Definition value_get (x : Value) (key : string) (default : Value) : Result Value :=
  match x with
  | VDict d => Ok (dict_get_default d key default)
  | _ => Raise AttributeError
  end.

(** [status_code in (429, 500, 502, 503, 504)]. *)
Definition temporary_status (status : Z) : bool :=
  existsb (Z.eqb status) [429; 500; 502; 503; 504].

(** The [try] block of [get], after the transport answered. The two
    [except] clauses log and re-raise, so they do not show. The last step
    before [return data] is the argument of [logger.debug]:
    [len(data.get("_embedded", {}))]. *)
Definition handle_response (response : Response) : Result Value :=
  _ <- (if temporary_status response.(status_code)
        then raise_for_status response
        else Ok tt) ;;
  _ <- raise_for_status response ;;
  data <- json response ;;
  embedded <- value_get data "_embedded" (VDict []) ;;
  _ <- len embedded ;;
  Ok data.

(** One execution of the body of [get] (the function under the
    decorator), from a session [s]. *)
Definition get_body (self : t) (env : Env) (endpoint : string)
    (params : option (list (string * Value))) (s : Session)
    : Result Value * Session :=
  let s := {| requests_made := s.(requests_made);
              attempts_made := S s.(attempts_made);
              slept := s.(slept) |} in
  if negb self.(client_open)
  then (Raise (RuntimeError
                 "HTTP-клиент не инициализирован. Используйте async with."), s)
  else
    let url := String.append self.(base_url) endpoint in
    match _get_headers env with
    | Raise e => (Raise e, s)
    | Ok headers =>
        let request := {| url := url; headers := headers; params := params |} in
        let s' := {| requests_made := S s.(requests_made);
                     attempts_made := s.(attempts_made);
                     slept := s.(slept) |} in
        match env.(transport) s.(requests_made) request with
        | Failed e => (Raise e, s')
        | Responded response => (handle_response response, s')
        end
    end.

(** The decorator's arguments.
    [retry_if_exception_type((httpx.HTTPStatusError, httpx.RequestError))]. *)
Definition retry_if_exception_type (e : Exn) : bool :=
  match e with
  | HTTPStatusError _ | RequestError _ => true
  | _ => false
  end.

(** [stop_after_attempt(3)]. *)
Definition max_attempt_number : Z := 3.

Definition stop_after_attempt (attempt_number : Z) : bool :=
  attempt_number >=? max_attempt_number.

(** [wait_exponential(multiplier=1, min=2, max=10)] (tenacity's [exp_base]
    is 2): [max(max(0, min), min(multiplier * 2 ** (attempt - 1), max))]. *)
Definition wait_exponential (attempt_number : Z) : Z :=
  Z.max (Z.max 0 2) (Z.min (1 * 2 ^ (attempt_number - 1)) 10).

Definition sleep (seconds : Z) (s : Session) : Session :=
  {| requests_made := s.(requests_made);
     attempts_made := s.(attempts_made);
     slept := s.(slept) ++ [seconds] |}.

(** tenacity's loop around the body. It is a [while True]; [fuel] bounds
    the number of iterations and [None] means the bound was hit. With
    [reraise=True] the exception of the last attempt is raised as it is. *)
Fixpoint retrying (fuel : nat) (attempt_number : Z) (self : t) (env : Env)
    (endpoint : string) (params : option (list (string * Value)))
    (s : Session) : option (Result Value * Session) :=
  match fuel with
  | O => None
  | S fuel' =>
      match get_body self env endpoint params s with
      | (Ok data, s1) => Some (Ok data, s1)
      | (Raise e, s1) =>
          if negb (retry_if_exception_type e) then Some (Raise e, s1)
          else if stop_after_attempt attempt_number then Some (Raise e, s1)
          else retrying fuel' (attempt_number + 1) self env endpoint params
                 (sleep (wait_exponential attempt_number) s1)
      end
  end.

(** The decorated [get]. Three iterations are all the loop can make (see
    [retrying_fuel] below). *)
Definition get (self : t) (env : Env) (endpoint : string)
    (params : option (list (string * Value))) (s : Session)
    : option (Result Value * Session) :=
  retrying 3 1 self env endpoint params s.

End HttpClient.

(* ================================================================= *)
(** ** app/amocrm_client.py                                           *)
(* ================================================================= *)

Module AmoCRMClient.

Import HttpClient.

Record t : Type := { http_client : HttpClient.t }.

(** [all_events.extend(x)]: a list gives its items, a dict its keys, a
    string its characters; anything else is not iterable. *)
Fixpoint characters (s : string) : list Value :=
  match s with
  | EmptyString => []
  | String c rest => VStr (String c EmptyString) :: characters rest
  end.

Definition extend (all_events : list Value) (x : Value) : Result (list Value) :=
  match x with
  | VList items => Ok (all_events ++ items)
  | VDict fields => Ok (all_events ++ map (fun kv => VStr (fst kv)) fields)
  | VStr s => Ok (all_events ++ characters s)
  | _ => Raise TypeError
  end.

(** [needle in s] for two strings. *)
Fixpoint is_substring (needle s : string) : bool :=
  String.prefix needle s
  || match s with
     | EmptyString => false
     | String _ rest => is_substring needle rest
     end.

(** [key in x]: a key of a dict, an item of a list, a substring of a
    string; anything else raises. *)
Definition contains (x : Value) (key : string) : Result bool :=
  match x with
  | VDict fields => Ok (existsb (fun kv => String.eqb (fst kv) key) fields)
  | VList items => Ok (existsb (fun item => key_eqb item (VStr key)) items)
  | VStr s => Ok (is_substring key s)
  | _ => Raise TypeError
  end.

(** The query of one page. *)
Definition events_params (timestamp_from timestamp_to page limit : Z)
    : list (string * Value) :=
  [("filter[created_at][from]", VInt timestamp_from);
   ("filter[created_at][to]", VInt timestamp_to);
   ("page", VInt page);
   ("limit", VInt limit)].

(** What the loop body does with a decoded response: [inl all_events] on
    either [break], [inr all_events] to go on with the next page. *)
Definition after_page (all_events : list Value) (response : Value)
    : Result (list Value + list Value) :=
  embedded <- value_get response "_embedded" (VDict []) ;;
  events <- value_get embedded "events" (VList []) ;;
  if negb (truthy events) then Ok (inl all_events)
  else
    all_events <- extend all_events events ;;
    links <- value_get response "_links" (VDict []) ;;
    has_next <- contains links "next" ;;
    if negb has_next then Ok (inl all_events)
    else Ok (inr all_events).

(** The [while True] loop of [get_events]; [fuel] bounds its iterations
    and [None] means the bound was hit before the loop ended. *)
Fixpoint get_events_loop (fuel : nat) (client : HttpClient.t) (env : Env)
    (timestamp_from timestamp_to page limit : Z) (all_events : list Value)
    (s : Session) : option (Result (list Value) * Session) :=
  match fuel with
  | O => None
  | S fuel' =>
      let params := events_params timestamp_from timestamp_to page limit in
      match get client env "/api/v4/events" (Some params) s with
      | None => None
      | Some (Raise e, s1) => Some (Raise e, s1)
      | Some (Ok response, s1) =>
          match after_page all_events response with
          | Raise e => Some (Raise e, s1)
          | Ok (inl all_events) => Some (Ok all_events, s1)
          | Ok (inr all_events) =>
              get_events_loop fuel' client env timestamp_from timestamp_to
                (page + 1) limit all_events s1
          end
      end
  end.

(** [get_events], from the two epoch seconds [int(date_from.timestamp())]
    and [int(date_to.timestamp())]. The [async with] opens the client; the
    [except] clause logs and re-raises. *)
Definition get_events (fuel : nat) (self : t) (env : Env)
    (timestamp_from timestamp_to : Z) (s : Session)
    : option (Result (list Value) * Session) :=
  let all_events := [] in
  let page := 1 in
  let limit := 100 in
  let client := aenter self.(http_client) in
  get_events_loop fuel client env timestamp_from timestamp_to page limit
    all_events s.

(** [for x in v]: a list gives its items, a dict its keys, a string its
    characters; anything else is not iterable. *)
Definition iterate (x : Value) : Result (list Value) :=
  match x with
  | VList items => Ok items
  | VDict fields => Ok (map (fun kv => VStr (fst kv)) fields)
  | VStr s => Ok (characters s)
  | _ => Raise TypeError
  end.

(** One element of [[user["id"] for user in users if "id" in user]]: the
    test ["id" in user] followed by the subscript [user["id"]]. A dict has
    the key or has not; a list or a string that holds ["id"] cannot be
    subscripted by a string; anything else cannot be searched. *)
Definition user_id (user : Value) : Result (option Value) :=
  match user with
  | VDict fields => Ok (dict_get fields "id")
  | VList items =>
      if existsb (fun item => key_eqb item (VStr "id")) items
      then Raise TypeError
      else Ok None
  | VStr s => if is_substring "id" s then Raise TypeError else Ok None
  | _ => Raise TypeError
  end.

Fixpoint user_ids_of (users : list Value) : Result (list Value) :=
  match users with
  | [] => Ok []
  | user :: rest =>
      id <- user_id user ;;
      ids <- user_ids_of rest ;;
      Ok (match id with
          | Some v => v :: ids
          | None => ids
          end)
  end.

(** [get_users]. *)
Definition get_users (self : t) (env : Env) (s : Session)
    : option (Result (list Value) * Session) :=
  let client := aenter self.(http_client) in
  match get client env "/api/v4/users" None s with
  | None => None
  | Some (Raise e, s1) => Some (Raise e, s1)
  | Some (Ok response, s1) =>
      Some ((embedded <- value_get response "_embedded" (VDict []) ;;
             users <- value_get embedded "users" (VList []) ;;
             users <- iterate users ;;
             user_ids_of users),
            s1)
  end.

(** [get_account_info]. *)
Definition get_account_info (self : t) (env : Env) (s : Session)
    : option (Result Value * Session) :=
  let client := aenter self.(http_client) in
  get client env "/api/v4/account" None s.

End AmoCRMClient.

(* ================================================================= *)
(** ** datetime: values, strftime and strptime                        *)
(* ================================================================= *)

Module Clock.

(** A [datetime] (the microsecond and the time zone play no part in the
    formats used). A [str] is held as the bytes of its UTF-8 encoding, the
    form in which SQLite stores a TEXT. *)
Record datetime : Type := {
  year : Z;
  month : Z;
  day : Z;
  hour : Z;
  minute : Z;
  second : Z
}.

Definition is_leap (y : Z) : bool :=
  (y mod 4 =? 0) && (negb (y mod 100 =? 0) || (y mod 400 =? 0)).

Definition days_in_month (y m : Z) : Z :=
  if m =? 2 then (if is_leap y then 29 else 28)
  else if (m =? 4) || (m =? 6) || (m =? 9) || (m =? 11) then 30
  else 31.

(** The range checks of the [datetime] constructor. *)
Definition valid (dt : datetime) : bool :=
  (1 <=? dt.(year)) && (dt.(year) <=? 9999)
  && (1 <=? dt.(month)) && (dt.(month) <=? 12)
  && (1 <=? dt.(day)) && (dt.(day) <=? days_in_month dt.(year) dt.(month))
  && (0 <=? dt.(hour)) && (dt.(hour) <=? 23)
  && (0 <=? dt.(minute)) && (dt.(minute) <=? 59)
  && (0 <=? dt.(second)) && (dt.(second) <=? 59).

(** The ASCII digits. *)
Definition digit (n : Z) : ascii := ascii_of_nat (48 + Z.to_nat n).

Definition digit_value (c : ascii) : option Z :=
  let n := Z.of_nat (nat_of_ascii c) in
  if (48 <=? n) && (n <=? 57) then Some (n - 48) else None.

(** The code point at the head of a text and the text after it: one byte
    below 128, or a lead byte and its one to three continuation bytes.
    Bytes that encode no code point (a stray continuation byte, an
    overlong form, a surrogate, a value above U+10FFFF) give [None]. *)
Definition byte (c : ascii) : Z := Z.of_nat (nat_of_ascii c).

Fixpoint continuation (n : nat) (acc : Z) (s : string) : option (Z * string) :=
  match n with
  | O => Some (acc, s)
  | S n' =>
      match s with
      | String c rest =>
          if (128 <=? byte c) && (byte c <=? 191)
          then continuation n' (acc * 64 + (byte c - 128)) rest
          else None
      | EmptyString => None
      end
  end.

Definition in_range (lo hi : Z) (r : option (Z * string)) : option (Z * string) :=
  match r with
  | Some (cp, rest) => if (lo <=? cp) && (cp <=? hi) then r else None
  | None => None
  end.

Definition code_point (s : string) : option (Z * string) :=
  match s with
  | EmptyString => None
  | String c rest =>
      let b := byte c in
      if b <? 128 then Some (b, rest)
      else if b <? 192 then None
      else if b <? 224 then in_range 128 2047 (continuation 1 (b - 192) rest)
      else if b <? 240 then
        match in_range 2048 65535 (continuation 2 (b - 224) rest) with
        | Some (cp, rest') =>
            if (55296 <=? cp) && (cp <=? 57343) then None else Some (cp, rest')
        | None => None
        end
      else if b <? 248 then in_range 65536 1114111 (continuation 3 (b - 240) rest)
      else None
  end.

(** The decimal digits of Unicode 14.0, the character database of
    Python 3.11 (the first version with [datetime.UTC], which the code
    imports): 66 runs of ten code points, each run the digits zero to
    nine of one script, given by the code point of its zero. [re]'s [\d] on
    a [str] and [int()] both go by this table ([Py_UNICODE_ISDECIMAL],
    [Py_UNICODE_TODECIMAL]). *)
Definition decimal_zeros : list Z :=
  [48; 1632; 1776; 1984; 2406; 2534; 2662; 2790; 2918; 3046; 3174; 3302;
   3430; 3558; 3664; 3792; 3872; 4160; 4240; 6112; 6160; 6470; 6608; 6784;
   6800; 6992; 7088; 7232; 7248; 42528; 43216; 43264; 43472; 43504; 43600;
   44016; 65296; 66720; 68912; 69734; 69872; 69942; 70096; 70384; 70736;
   70864; 71248; 71360; 71472; 71904; 72016; 72784; 73040; 73120; 92768;
   92864; 93008; 120782; 120792; 120802; 120812; 120822; 123200; 123632;
   125264; 130032].

Definition decimal (cp : Z) : option Z :=
  match find (fun zero => (zero <=? cp) && (cp <? zero + 10)) decimal_zeros with
  | Some zero => Some (cp - zero)
  | None => None
  end.

Definition pad2 (n : Z) : string :=
  String (digit (n / 10)) (String (digit (n mod 10)) EmptyString).

Definition pad4 (n : Z) : string :=
  String (digit (n / 1000))
    (String (digit (n / 100 mod 10))
       (String (digit (n / 10 mod 10))
          (String (digit (n mod 10)) EmptyString))).

(** [%Y]: CPython 3.11 leaves the directive to the C library's
    [strftime]. The model follows glibc, which writes the year as a plain
    number: four digits from year 1000 on, fewer below, with no leading
    zeros. *)
Definition strftime_Y (y : Z) : string :=
  if y <? 10 then String (digit y) EmptyString
  else if y <? 100 then pad2 y
  else if y <? 1000 then String (digit (y / 100)) (pad2 (y mod 100))
  else pad4 y.

(** [strftime("%Y-%m-%d")]. *)
Definition strftime_date (dt : datetime) : string :=
  strftime_Y dt.(year) ++ "-" ++ pad2 dt.(month) ++ "-" ++ pad2 dt.(day).

(** [strftime("%H:%M")]. *)
Definition strftime_HM (dt : datetime) : string :=
  pad2 dt.(hour) ++ ":" ++ pad2 dt.(minute).

(** [strftime("%Y-%m-%dT%H:%M:%SZ")]. *)
Definition strftime_iso (dt : datetime) : string :=
  strftime_date dt ++ "T" ++ strftime_HM dt ++ ":" ++ pad2 dt.(second) ++ "Z".

(** [strftime("%d.%m.%Y")]. *)
Definition strftime_dmY (dt : datetime) : string :=
  pad2 dt.(day) ++ "." ++ pad2 dt.(month) ++ "." ++ strftime_Y dt.(year).

(** *** [datetime.strptime(s, "%Y-%m-%dT%H:%M:%SZ")]

    [_strptime] turns the format into the regular expression

    [(?P<Y>\d\d\d\d)-(?P<m>1[0-2]|0[1-9]|[1-9])-]
    [(?P<d>3[0-1]|[1-2]\d|0[1-9]|[1-9]| [1-9])T(?P<H>2[0-3]|[0-1]\d|\d):]
    [(?P<M>[0-5]\d|\d):(?P<S>6[0-1]|[0-5]\d|\d)Z]

    compiled with [IGNORECASE], matches it at the start of the string,
    demands that the match ends where the string ends, and builds the
    [datetime] from the six numbers, each the [int()] of its group. [\d]
    is any decimal digit of Unicode, a class such as [[0-1]] holds ASCII
    digits only, and [T] and [Z] match in either case and nothing else.
    The matcher below backtracks as the regular expression does: each
    piece takes the continuation that matches the rest, and an alternative
    is left when the rest fails. *)
Section Regex.

Context {R : Type}.

Definition alt (p q : string -> option R) (s : string) : option R :=
  match p s with
  | Some r => Some r
  | None => q s
  end.

(** A class [[lo-hi]]: an ASCII digit between [lo] and [hi]. *)
Definition digit_in (lo hi : Z) (k : Z -> string -> option R) (s : string)
    : option R :=
  match s with
  | String c rest =>
      match digit_value c with
      | Some d => if (lo <=? d) && (d <=? hi) then k d rest else None
      | None => None
      end
  | EmptyString => None
  end.

(** [\d]: a decimal digit of any script, read as its value. *)
Definition re_digit (k : Z -> string -> option R) (s : string) : option R :=
  match code_point s with
  | Some (cp, rest) =>
      match decimal cp with
      | Some d => k d rest
      | None => None
      end
  | None => None
  end.

(** A literal character; [lit2] takes either case of a letter. *)
Definition lit (c : ascii) (k : string -> option R) (s : string) : option R :=
  match s with
  | String c' rest => if Ascii.eqb c c' then k rest else None
  | EmptyString => None
  end.

Definition lit2 (upper lower : ascii) (k : string -> option R) : string -> option R :=
  alt (lit upper k) (lit lower k).

(** Two digits [a] in [[alo-ahi]] and [b] in [[blo-bhi]], read as
    [int("ab")]; in [digit_any], [b] is a [\d]. *)
Definition two_digits (alo ahi blo bhi : Z) (k : Z -> string -> option R)
    : string -> option R :=
  digit_in alo ahi (fun a => digit_in blo bhi (fun b => k (10 * a + b))).

Definition digit_any (alo ahi : Z) (k : Z -> string -> option R)
    : string -> option R :=
  digit_in alo ahi (fun a => re_digit (fun b => k (10 * a + b))).

Definition re_Y (k : Z -> string -> option R) : string -> option R :=
  re_digit (fun a => re_digit (fun b => re_digit (fun c =>
    re_digit (fun d => k (1000 * a + 100 * b + 10 * c + d))))).

Definition re_m (k : Z -> string -> option R) : string -> option R :=
  alt (two_digits 1 1 0 2 k) (alt (two_digits 0 0 1 9 k) (digit_in 1 9 k)).

Definition re_d (k : Z -> string -> option R) : string -> option R :=
  alt (two_digits 3 3 0 1 k)
    (alt (digit_any 1 2 k)
       (alt (two_digits 0 0 1 9 k)
          (alt (digit_in 1 9 k) (lit " " (digit_in 1 9 k))))).

Definition re_H (k : Z -> string -> option R) : string -> option R :=
  alt (two_digits 2 2 0 3 k) (alt (digit_any 0 1 k) (re_digit k)).

Definition re_M (k : Z -> string -> option R) : string -> option R :=
  alt (digit_any 0 5 k) (re_digit k).

Definition re_S (k : Z -> string -> option R) : string -> option R :=
  alt (two_digits 6 6 0 1 k) (alt (digit_any 0 5 k) (re_digit k)).

End Regex.

(** The match: the six groups and what is left of the string. *)
Definition iso_match (s : string) : option (datetime * string) :=
  re_Y (fun Y => lit "-" (re_m (fun m => lit "-" (re_d (fun d =>
    lit2 "T" "t" (re_H (fun H => lit ":" (re_M (fun M => lit ":" (re_S (fun S =>
      lit2 "Z" "z" (fun rest =>
        Some ({| year := Y; month := m; day := d;
                 hour := H; minute := M; second := S |}, rest))))))))))))) s.

(** [strptime]: no match, text left after the match, and numbers that are
    no date or time of day ([datetime_date(year, month, day)] and the
    [datetime] constructor check them) all raise [ValueError]. *)
Definition strptime_iso (s : string) : Result datetime :=
  match iso_match s with
  | None => Raise ValueError
  | Some (dt, rest) =>
      if negb (String.eqb rest "") then Raise ValueError
      else if valid dt then Ok dt
      else Raise ValueError
  end.

End Clock.

(* ================================================================= *)
(** ** app/latency_checker.py                                         *)
(* ================================================================= *)

Module LatencyChecker.

Import Clock.

(** The table [latency (timestamp TEXT, latency_ms INTEGER)]: its rows in
    insertion (rowid) order. There is no key, so equal rows may repeat. *)
Definition Row : Type := (string * Z)%type.
Definition Table : Type := list Row.

(** A Python [int] is bound to an SQLite INTEGER only if it fits 64 bits;
    [sqlite3] raises [OverflowError] otherwise. *)
Definition fits_int64 (n : Z) : bool :=
  (- 2 ^ 63 <=? n) && (n <? 2 ^ 63).

(** [save_latency]: [timestamp] defaults to [now], the current UTC time. *)
Definition save_latency (db : Table) (now : datetime) (latency_ms : Z)
    (timestamp : option datetime) : Result Table :=
  let timestamp := match timestamp with Some t => t | None => now end in
  let timestamp_str := strftime_iso timestamp in
  if fits_int64 latency_ms then Ok (db ++ [(timestamp_str, latency_ms)])
  else Raise OverflowError.

(** The three queries read [date(timestamp)], a function of the SQL
    engine from a TEXT to a date or NULL. They are written over any such
    function [date]; [sqlite_date] below is the one of SQLite on the
    timestamps [save_latency] writes. *)
Section Queries.

Variable date : string -> option string.

(** [WHERE date(timestamp) = ?]: a NULL compares equal to nothing. *)
Definition on_date (d : string) (row : Row) : bool :=
  match date (fst row) with
  | Some x => String.eqb x d
  | None => false
  end.

(** [ORDER BY latency_ms DESC LIMIT 1]: a row of greatest [latency_ms].
    SQL leaves the choice among equal ones open; the model takes the one
    inserted first. *)
Fixpoint first_by_latency_desc (rows : list Row) : option Row :=
  match rows with
  | [] => None
  | row :: rest =>
      match first_by_latency_desc rest with
      | Some best => if snd row <? snd best then Some best else Some row
      | None => Some row
      end
  end.

(** [get_max_latency_for_date]. *)
Definition get_max_latency_for_date (db : Table) (d : string) : option Row :=
  first_by_latency_desc (filter (on_date d) db).

(** [delete_latency_for_date]: [cursor.rowcount] and the table left. *)
Definition delete_latency_for_date (db : Table) (d : string) : Z * Table :=
  let deleted_count := Z.of_nat (List.length (filter (on_date d) db)) in
  (deleted_count, filter (fun row => negb (on_date d row)) db).

End Queries.

(** SQLite's [date()] on a text [YYYY-MM-DDTHH:MM:SSZ] naming a calendar
    day and a time of day: its first ten characters. The digits are ASCII
    digits and the year has exactly four of them, so a timestamp whose
    year was written with fewer is NULL. Every other text is NULL in the
    model; SQLite itself reads a few more shapes (a space for the [T], no
    seconds, ...), none of which [save_latency] writes, and [sqlite_date]
    is only ever applied to what [save_latency] wrote. *)
Definition two (k : Z -> string -> option (datetime * string))
    : string -> option (datetime * string) :=
  two_digits 0 9 0 9 k.

Definition four (k : Z -> string -> option (datetime * string))
    : string -> option (datetime * string) :=
  digit_in 0 9 (fun a => digit_in 0 9 (fun b => digit_in 0 9 (fun c =>
    digit_in 0 9 (fun d => k (1000 * a + 100 * b + 10 * c + d))))).

Definition sqlite_parse (s : string) : option (datetime * string) :=
  four (fun Y => lit "-" (two (fun m => lit "-" (two (fun d =>
    lit "T" (two (fun H => lit ":" (two (fun M => lit ":" (two (fun S =>
      lit "Z" (fun rest =>
        Some ({| year := Y; month := m; day := d;
                 hour := H; minute := M; second := S |}, rest))))))))))))) s.

Definition sqlite_date (s : string) : option string :=
  match sqlite_parse s with
  | Some (dt, EmptyString) =>
      if valid dt
      then Some (pad4 dt.(year) ++ "-" ++ pad2 dt.(month) ++ "-"
                 ++ pad2 dt.(day))%string
      else None
  | _ => None
  end.

(** [ORDER BY timestamp]: ascending by the bytes of the text; rows with
    equal timestamps stay in insertion order, as a scan of the index on
    [timestamp] yields them. *)
Fixpoint insert_by_timestamp (row : Row) (rows : list Row) : list Row :=
  match rows with
  | [] => [row]
  | r :: rest =>
      if String.ltb (fst r) (fst row) then r :: insert_by_timestamp row rest
      else row :: rows
  end.

Definition order_by_timestamp (rows : list Row) : list Row :=
  fold_right insert_by_timestamp [] rows.

(** [get_all_latency_for_date]. *)
Definition get_all_latency_for_date (date : string -> option string)
    (db : Table) (d : string) : list Row :=
  order_by_timestamp (filter (on_date date d) db).

End LatencyChecker.

(* ================================================================= *)
(** ** app/main_daily_report.py                                       *)
(* ================================================================= *)

Module DailyReport.

Import Clock.

(** The Russian names of the event types. *)
Definition EVENT_TYPE_NAMES : list (string * string) :=
  [
   ("lead_added", "Новая сделка");
   ("lead_deleted", "Сделка удалена");
   ("lead_restored", "Сделка восстановлена");
   ("lead_status_changed", "Изменение этапа продажи");
   ("lead_linked", "Прикрепление сделки");
   ("lead_unlinked", "Открепление сделки");
   ("contact_added", "Новый контакт");
   ("contact_deleted", "Контакт удален");
   ("contact_restored", "Контакт восстановлен");
   ("contact_linked", "Прикрепление контакта");
   ("contact_unlinked", "Открепление контакта");
   ("company_added", "Новая компания");
   ("company_deleted", "Компания удалена");
   ("company_restored", "Компания восстановлена");
   ("company_linked", "Прикрепление компании");
   ("company_unlinked", "Открепление компании");
   ("customer_added", "Новый покупатель");
   ("customer_deleted", "Покупатель удален");
   ("customer_status_changed", "Изменение этапа покупателя");
   ("customer_linked", "Прикрепление покупателя");
   ("customer_unlinked", "Открепление покупателя");
   ("task_added", "Новая задача");
   ("task_deleted", "Задача удалена");
   ("task_completed", "Завершение задачи");
   ("task_type_changed", "Изменение типа задачи");
   ("task_text_changed", "Изменение текста задачи");
   ("task_deadline_changed", "Изменение даты исполнения задачи");
   ("task_result_added", "Результат по задаче");
   ("incoming_call", "Входящий звонок");
   ("outgoing_call", "Исходящий звонок");
   ("incoming_chat_message", "Входящее сообщение");
   ("outgoing_chat_message", "Исходящее сообщение");
   ("entity_direct_message", "Сообщение внутреннего чата");
   ("incoming_sms", "Входящее SMS");
   ("outgoing_sms", "Исходящее SMS");
   ("entity_tag_added", "Теги добавлены");
   ("entity_tag_deleted", "Теги убраны");
   ("entity_linked", "Прикрепление");
   ("entity_unlinked", "Открепление");
   ("sale_field_changed", "Изменение поля Бюджет");
   ("name_field_changed", "Изменение поля Название");
   ("ltv_field_changed", "Сумма покупок");
   ("custom_field_value_changed", "Изменение поля");
   ("entity_responsible_changed", "Ответственный изменен");
   ("robot_replied", "Ответ робота");
   ("intent_identified", "Тема вопроса определена");
   ("nps_rate_added", "Новая оценка NPS");
   ("link_followed", "Переход по ссылке");
   ("transaction_added", "Добавлена покупка");
   ("common_note_added", "Новое примечание");
   ("common_note_deleted", "Примечание удалено");
   ("attachment_note_added", "Добавлен новый файл");
   ("targeting_in_note_added", "Добавление в ретаргетинг");
   ("targeting_out_note_added", "Удаление из ретаргетинга");
   ("geo_note_added", "Новое примечание с гео-меткой");
   ("service_note_added", "Новое системное примечание");
   ("site_visit_note_added", "Заход на сайт");
   ("message_to_cashier_note_added", "LifePay: Сообщение кассиру");
   ("key_action_completed", "Ключевое действие");
   ("entity_merged", "Выполнено объединение")
  ].

(** A cell of a spreadsheet row: a string or an int. *)
Inductive Cell : Type :=
| CStr (s : string)
| CInt (n : Z).

(** [format_date]. *)
Definition format_date (date : datetime) : string :=
  strftime_dmY date.

(** [try: ... except Exception: ...]: every exception of the model is an
    [Exception]. *)
Definition try_except {A : Type} (body : Result A) (handler : Exn -> Result A)
    : Result A :=
  match body with
  | Ok a => Ok a
  | Raise e => handler e
  end.

(** [format_time]. *)
Definition format_time (timestamp_str : string) : Result string :=
  try_except
    (dt <- strptime_iso timestamp_str ;;
     Ok (strftime_HM dt))
    (fun e => Ok timestamp_str).

(** [get_event_name]. *)
Definition get_event_name (event_type : string) : string :=
  dict_get_default EVENT_TYPE_NAMES event_type event_type.

(** The rows of the [for] loop over [enumerate(top_events)], from index
    [i] on. *)
Fixpoint event_rows (date_str : string) (i : Z) (top_events : list (string * Z))
    (max_latency : option (string * Z)) : Result (list (list Cell)) :=
  match top_events with
  | [] => Ok []
  | (event_type, count) :: rest =>
      let event_name := get_event_name event_type in
      row <- match i =? 0, max_latency with
             | true, Some (peak_time, latency_ms) =>
                 peak <- format_time peak_time ;;
                 Ok [CStr date_str; CStr event_name; CInt count;
                     CInt latency_ms; CStr peak]
             | _, _ =>
                 Ok [CStr date_str; CStr event_name; CInt count;
                     CStr ""; CStr ""]
             end ;;
      rows <- event_rows date_str (i + 1) rest max_latency ;;
      Ok (row :: rows)
  end.

(** [prepare_report_data]. *)
Definition prepare_report_data (report_date : datetime)
    (top_events : list (string * Z)) (max_latency : option (string * Z))
    : Result (list (list Cell)) :=
  let date_str := format_date report_date in
  match top_events with
  | [] =>
      match max_latency with
      | Some (peak_time, latency_ms) =>
          peak <- format_time peak_time ;;
          Ok [[CStr date_str; CStr "Нет событий"; CInt 0;
               CInt latency_ms; CStr peak]]
      | None =>
          Ok [[CStr date_str; CStr "Нет событий"; CInt 0; CStr ""; CStr ""]]
      end
  | _ => event_rows date_str 0 top_events max_latency
  end.

End DailyReport.

(* ================================================================= *)
(** * Properties                                                      *)
(* ================================================================= *)

Import EventsProcessor.

(** ** The event filter *)

(** The condition of the specification: the actor is null or absent, or is
    not a member of the user ids. Membership is Python's [in]: some id of
    the list equals the actor. *)
Definition actor_missing (e : Event) : Prop :=
  dict_get e "created_by" = None \/ dict_get e "created_by" = Some VNone.

Definition actor_among (U : list Z) (e : Event) : Prop :=
  exists v uid,
    dict_get e "created_by" = Some v /\ In uid U /\ eq_int v uid = true.

Definition automated (U : list Z) (e : Event) : Prop :=
  actor_missing e \/ ~ actor_among U e.

Lemma in_ints_true (v : Value) (U : list Z) :
  in_ints v U = true <-> exists uid, In uid U /\ eq_int v uid = true.
Proof.
  unfold in_ints. rewrite existsb_exists. reflexivity.
Qed.

Lemma is_automated_iff (U : list Z) (e : Event) :
  is_automated U e = true <-> automated U e.
Proof.
  unfold is_automated, automated, actor_missing, actor_among, created_by,
    dict_get_default.
  destruct (dict_get e "created_by") as [v|] eqn:Hget.
  - split.
    + intros H. apply orb_true_iff in H. destruct H as [H|H].
      * destruct v; try discriminate. left. right. reflexivity.
      * right. intros (v' & uid & Hv & Hin & Heq).
        injection Hv as <-.
        apply negb_true_iff in H.
        assert (in_ints v U = true) as Hc
          by (apply in_ints_true; exists uid; split; assumption).
        congruence.
    + intros [[H|H]|H].
      * discriminate.
      * injection H as ->. reflexivity.
      * apply orb_true_iff. right. apply negb_true_iff.
        destruct (in_ints v U) eqn:Hin; [|reflexivity].
        exfalso. apply H. apply in_ints_true in Hin.
        destruct Hin as (uid & Hin & Heq).
        exists v, uid. repeat split; assumption.
  - split; intros _.
    + left. left. reflexivity.
    + reflexivity.
Qed.

(** The loop, started from any accumulator, appends the kept events. *)
Lemma filter_loop_app (U : list Z) (E acc : list Event) :
  fold_left
    (fun automated_events event =>
       if is_automated U event
       then automated_events ++ [event]
       else automated_events)
    E acc
  = acc ++ filter (is_automated U) E.
Proof.
  revert acc. induction E as [|e E IH]; intros acc; simpl.
  - symmetry. apply app_nil_r.
  - rewrite IH. destruct (is_automated U e); [|reflexivity].
    rewrite <- app_assoc. reflexivity.
Qed.

(** C4. [filter_automated_events E U] is [E] with exactly the events
    removed whose [created_by] is present, not null and a member of [U]:
    it is the order-preserving filter of [E] by the condition "the actor
    is null or absent, or not in [U]", so kept events stay in input order,
    each as often as it occurs in [E], and nothing else is dropped. *)
Theorem filter_automated_events_exact (E : list Event) (U : list Z) :
  filter_automated_events E U = filter (is_automated U) E
  /\ (forall e, is_automated U e = true <-> automated U e)
  /\ (forall e, In e (filter_automated_events E U) <-> In e E /\ automated U e).
Proof.
  assert (filter_automated_events E U = filter (is_automated U) E) as Heq
    by (unfold filter_automated_events; apply filter_loop_app).
  split; [exact Heq|]. split; [intros e; apply is_automated_iff|].
  intros e. rewrite Heq, filter_In, is_automated_iff. reflexivity.
Qed.

(** ** Counting by type *)

Lemma key_eqb_trans (a b c : Value) :
  key_eqb a b = true -> key_eqb a c = key_eqb b c.
Proof.
  destruct a as [|x|m|s| |], b as [|y|n|t| |]; simpl; try discriminate;
    intros H; destruct c as [|z|p|u| |]; simpl; try reflexivity.
  - apply Bool.eqb_prop in H. subst. reflexivity.
  - apply Bool.eqb_prop in H. subst. reflexivity.
  - apply Z.eqb_eq in H. subst.
    destruct x, z; reflexivity.
  - apply Z.eqb_eq in H. subst. reflexivity.
  - apply Z.eqb_eq in H. subst. destruct y, z; reflexivity.
  - apply Z.eqb_eq in H. subst. reflexivity.
  - apply Z.eqb_eq in H. subst. reflexivity.
  - apply Z.eqb_eq in H. subst. reflexivity.
  - apply String.eqb_eq in H. subst. reflexivity.
Qed.

Lemma key_eqb_sym (a b : Value) : key_eqb a b = key_eqb b a.
Proof.
  destruct a as [|x|m|s| |], b as [|y|n|t| |]; simpl; try reflexivity.
  - destruct x, y; reflexivity.
  - apply Z.eqb_sym.
  - apply Z.eqb_sym.
  - apply Z.eqb_sym.
  - apply String.eqb_sym.
Qed.

Lemma sum_values_counter_add (counts : Counts) (x : Value) :
  sum_values (counter_add counts x) = sum_values counts + 1.
Proof.
  induction counts as [|[k c] rest IH]; simpl.
  - reflexivity.
  - destruct (key_eqb k x); simpl; lia.
Qed.

Lemma count_of_counter_add (counts : Counts) (x key : Value) :
  count_of (counter_add counts x) key
  = count_of counts key + (if key_eqb x key then 1 else 0).
Proof.
  induction counts as [|[k c] rest IH]; simpl.
  - destruct (key_eqb x key); reflexivity.
  - destruct (key_eqb k x) eqn:Hkx; simpl.
    + rewrite <- (key_eqb_trans k x key Hkx).
      destruct (key_eqb k key); lia.
    + destruct (key_eqb k key) eqn:Hkk; [|exact IH].
      rewrite (key_eqb_trans k key x Hkk), key_eqb_sym in Hkx.
      rewrite Hkx. lia.
Qed.

Definition occurrences (key : Value) (types : list Value) : Z :=
  Z.of_nat (List.length (filter (fun t => key_eqb t key) types)).

(** [Counter] over hashable elements returns, and adds one per element. *)
Lemma counter_update_ok (types : list Value) (counts : Counts) :
  Forall (fun t => hashable t = true) types ->
  exists counts',
    counter_update counts types = Ok counts'
    /\ sum_values counts' = sum_values counts + Z.of_nat (List.length types)
    /\ forall key, count_of counts' key = count_of counts key + occurrences key types.
Proof.
  revert counts. induction types as [|t types IH]; intros counts Hh.
  - exists counts. unfold occurrences. simpl. repeat split; lia.
  - inversion Hh as [|? ? Ht Hrest]; subst.
    cbn [counter_update]. rewrite Ht.
    destruct (IH (counter_add counts t) Hrest) as (counts' & Hr & Hsum & Hcount).
    exists counts'. split; [exact Hr|]. split.
    + rewrite Hsum, sum_values_counter_add.
      change (List.length (t :: types)) with (S (List.length types)). lia.
    + intros key. rewrite Hcount, count_of_counter_add.
      unfold occurrences. simpl. destruct (key_eqb t key); simpl List.length; lia.
Qed.

(** [Counter] raises only on an unhashable element. *)
Lemma counter_update_returns (types : list Value) (counts counts' : Counts) :
  counter_update counts types = Ok counts' ->
  Forall (fun t => hashable t = true) types.
Proof.
  revert counts. induction types as [|t types IH]; intros counts H.
  - constructor.
  - cbn [counter_update] in H. destruct (hashable t) eqn:Ht; [|discriminate].
    constructor; [exact Ht|]. eapply IH. exact H.
Qed.

Lemma occurrences_map (key : Value) (E : list Event) :
  occurrences key (map event_type E)
  = Z.of_nat (List.length (filter (fun e => key_eqb (event_type e) key) E)).
Proof.
  unfold occurrences. f_equal.
  induction E as [|e E IH]; simpl; [reflexivity|].
  destruct (key_eqb (event_type e) key); simpl; congruence.
Qed.

(** An event counted under ["unknown"]: it has no ["type"] field, or its
    type is that very string. *)
Definition counted_as_unknown (e : Event) : bool :=
  match dict_get e "type" with
  | None => true
  | Some t => key_eqb t (VStr "unknown")
  end.

Lemma counted_as_unknown_event_type (e : Event) :
  key_eqb (event_type e) (VStr "unknown") = counted_as_unknown e.
Proof.
  unfold counted_as_unknown, event_type, dict_get_default.
  destruct (dict_get e "type"); reflexivity.
Qed.

(** C5. Whenever [count_event_types E] produces counts, they sum to
    [len(E)]; each key's count is the number of events of [E] with that
    type, so every event is counted exactly once; and the count under
    ["unknown"] takes the events that have no ["type"] field. Counts are
    produced for every [E] whose type values can be dict keys (strings,
    as in the data model, or other JSON scalars). *)
Theorem count_event_types_counts_every_event (E : list Event) :
  (Forall (fun e => hashable (event_type e) = true) E ->
   exists counts, count_event_types E = Ok counts)
  /\ (forall counts,
        count_event_types E = Ok counts ->
        sum_values counts = Z.of_nat (List.length E)
        /\ (forall key,
              count_of counts key
              = Z.of_nat (List.length
                            (filter (fun e => key_eqb (event_type e) key) E)))
        /\ count_of counts (VStr "unknown")
           = Z.of_nat (List.length (filter counted_as_unknown E))).
Proof.
  unfold count_event_types.
  assert (forall counts,
             counter_update [] (map event_type E) = Ok counts ->
             sum_values counts = Z.of_nat (List.length E)
             /\ forall key,
                 count_of counts key
                 = Z.of_nat (List.length
                               (filter (fun e => key_eqb (event_type e) key) E)))
    as Hcounts.
  { intros counts Hok.
    destruct (counter_update_ok (map event_type E) []
                (counter_update_returns _ _ _ Hok))
      as (counts' & Hr & Hsum & Hkey).
    rewrite Hok in Hr. injection Hr as <-.
    split.
    - rewrite Hsum, length_map. simpl. lia.
    - intros key. rewrite Hkey, occurrences_map. simpl. lia. }
  split.
  - intros Hh.
    destruct (counter_update_ok (map event_type E) []) as (counts & Hr & _).
    + apply Forall_map. exact Hh.
    + exists counts. exact Hr.
  - intros counts Hok. destruct (Hcounts counts Hok) as [Hsum Hkey].
    split; [exact Hsum|]. split; [exact Hkey|].
    rewrite Hkey. do 2 f_equal.
    apply filter_ext. intros e. apply counted_as_unknown_event_type.
Qed.

(** Two typed events, one without a type and one whose type is null. *)
Definition sample_events : list Event :=
  [[("type", VStr "lead_added"); ("created_by", VInt 0)];
   [("id", VStr "01"); ("created_by", VInt 7)];
   [("type", VStr "lead_added")];
   [("type", VNone)]].

Lemma count_event_types_counts_every_event_witness :
  count_event_types sample_events
  = Ok [(VStr "lead_added", 2); (VStr "unknown", 1); (VNone, 1)]
  /\ sum_values [(VStr "lead_added", 2); (VStr "unknown", 1); (VNone, 1)]
     = Z.of_nat (List.length sample_events)
  /\ exists counts, count_event_types sample_events = Ok counts.
Proof.
  split; [reflexivity|]. split.
  - apply (proj2 (count_event_types_counts_every_event sample_events)).
    reflexivity.
  - apply (proj1 (count_event_types_counts_every_event sample_events)).
    repeat constructor.
Defined.

(** A type that is a JSON array cannot be a key: [Counter] raises. *)
Example count_event_types_unhashable :
  count_event_types [[("type", VList [])]] = Raise TypeError.
Proof. reflexivity. Qed.

(** ** Top events *)

Definition by_count_desc (a b : Value * Z) : Prop := snd b <= snd a.

Lemma insert_desc_perm (x : Value * Z) (l : Counts) :
  Permutation (insert_desc x l) (x :: l).
Proof.
  induction l as [|y l IH]; simpl.
  - apply Permutation_refl.
  - destruct (snd x <? snd y).
    + apply perm_trans with (y :: x :: l).
      * apply perm_skip. exact IH.
      * apply perm_swap.
    + apply Permutation_refl.
Qed.

Lemma sorted_by_count_desc_perm (l : Counts) :
  Permutation (sorted_by_count_desc l) l.
Proof.
  induction l as [|x l IH]; simpl.
  - constructor.
  - apply perm_trans with (x :: sorted_by_count_desc l).
    + apply insert_desc_perm.
    + apply perm_skip. exact IH.
Qed.

Lemma insert_desc_sorted (x : Value * Z) (l : Counts) :
  StronglySorted by_count_desc l ->
  StronglySorted by_count_desc (insert_desc x l).
Proof.
  induction 1 as [|y l Hs IH Hall]; simpl.
  - repeat constructor.
  - destruct (snd x <? snd y) eqn:Hlt.
    + constructor; [exact IH|].
      apply Forall_forall. intros z Hz.
      apply (Permutation_in _ (insert_desc_perm x l)) in Hz.
      destruct Hz as [<-|Hz].
      * unfold by_count_desc. apply Z.ltb_lt in Hlt. lia.
      * rewrite Forall_forall in Hall. apply Hall. exact Hz.
    + constructor; [constructor; assumption|].
      apply Z.ltb_ge in Hlt.
      constructor; [exact Hlt|].
      apply Forall_forall. intros z Hz.
      rewrite Forall_forall in Hall. specialize (Hall z Hz).
      unfold by_count_desc in *. lia.
Qed.

Lemma sorted_by_count_desc_sorted (l : Counts) :
  StronglySorted by_count_desc (sorted_by_count_desc l).
Proof.
  induction l as [|x l IH]; simpl.
  - constructor.
  - apply insert_desc_sorted. exact IH.
Qed.

Lemma strongly_sorted_app {A : Type} (R : A -> A -> Prop) (l1 l2 : list A) :
  StronglySorted R (l1 ++ l2) ->
  StronglySorted R l1 /\ (forall a b, In a l1 -> In b l2 -> R a b).
Proof.
  induction l1 as [|x l1 IH]; simpl; intros H.
  - split; [constructor|]. intros a b [].
  - inversion H as [|? ? Hs Hall]; subst.
    destruct (IH Hs) as [Hs1 Hcross]. split.
    + constructor; [exact Hs1|].
      apply Forall_forall. intros z Hz.
      rewrite Forall_forall in Hall. apply Hall. apply in_or_app. left. exact Hz.
    + intros a b [<-|Ha] Hb.
      * rewrite Forall_forall in Hall. apply Hall. apply in_or_app. right. exact Hb.
      * apply Hcross; assumption.
Qed.

Lemma slice_to_nonneg {A : Type} (l : list A) (k : Z) :
  0 <= k -> slice_to l k = firstn (Z.to_nat k) l.
Proof.
  intros Hk. unfold slice_to.
  destruct (k <? 0) eqn:Hlt; [apply Z.ltb_lt in Hlt; lia|reflexivity].
Qed.

(** The first [n] of the sorted items: how many, in which order, and what
    is left out. *)
Lemma top_prefix (counts : Counts) (n : nat) :
  let top := firstn n (sorted_by_count_desc counts) in
  List.length top = Nat.min n (List.length counts)
  /\ StronglySorted by_count_desc top
  /\ exists rest,
       Permutation (top ++ rest) counts
       /\ forall a b, In a top -> In b rest -> snd b <= snd a.
Proof.
  intros top. subst top.
  pose proof (sorted_by_count_desc_sorted counts) as Hs.
  pose proof (sorted_by_count_desc_perm counts) as Hp.
  rewrite <- (firstn_skipn n (sorted_by_count_desc counts)) in Hs.
  apply strongly_sorted_app in Hs. destruct Hs as [Hs Hcross].
  split; [|split].
  - rewrite length_firstn, (Permutation_length Hp). reflexivity.
  - exact Hs.
  - exists (skipn n (sorted_by_count_desc counts)). split.
    + rewrite firstn_skipn. exact Hp.
    + exact Hcross.
Qed.

(** C3, as amended. For every count mapping and every limit [k >= 1],
    [get_top_events] returns exactly [min(k, len(counts))] pairs, ordered
    by count descending, never padded: they are items of [counts], and no
    item left out has a greater count than one returned. A limit of [0]
    is read as no limit given ([limit or self.top_limit]), and the
    processor's [top_limit] is used in its place. *)
Theorem get_top_events_positive_limit (self : EventsProcessor.t)
    (counts : Counts) (k : Z) :
  (1 <= k ->
   let top := get_top_events self counts (Some k) in
   Z.of_nat (List.length top) = Z.min k (Z.of_nat (List.length counts))
   /\ StronglySorted by_count_desc top
   /\ exists rest,
        Permutation (top ++ rest) counts
        /\ forall a b, In a top -> In b rest -> snd b <= snd a)
  /\ get_top_events self counts (Some 0) = get_top_events self counts None
  /\ (1 <= self.(top_limit) ->
      get_top_events self counts None
      = get_top_events self counts (Some self.(top_limit))).
Proof.
  split; [|split].
  - intros Hk top. subst top. unfold get_top_events. simpl int_or.
    destruct (k =? 0) eqn:Hz; [apply Z.eqb_eq in Hz; lia|].
    rewrite slice_to_nonneg by lia.
    destruct (top_prefix counts (Z.to_nat k)) as (Hlen & Hs & Hrest).
    split; [|split; assumption].
    rewrite Hlen. lia.
  - reflexivity.
  - intros Hk. unfold get_top_events. simpl.
    destruct (top_limit self =? 0) eqn:Hz; [apply Z.eqb_eq in Hz; lia|].
    reflexivity.
Qed.

Lemma get_top_events_positive_limit_witness :
  let top := get_top_events (init None 5)
               [(VStr "a", 1); (VStr "b", 3); (VStr "c", 3); (VStr "d", 2)]
               (Some 2) in
  top = [(VStr "b", 3); (VStr "c", 3)]
  /\ Z.of_nat (List.length top) = Z.min 2 4
  /\ StronglySorted by_count_desc top.
Proof.
  pose proof (proj1 (get_top_events_positive_limit (init None 5)
                [(VStr "a", 1); (VStr "b", 3); (VStr "c", 3); (VStr "d", 2)] 2))
    as H.
  assert (1 <= 2) as Hk by lia.
  specialize (H Hk). destruct H as (Hlen & Hs & _).
  split; [reflexivity|]. split; [exact Hlen|exact Hs].
Defined.

(** C3 as stated fails at limit [0]: with the default [top_limit] of 5, one
    type is returned where [min(0, 1) = 0] are promised. *)
Lemma get_top_events_limit_zero :
  get_top_events (init None 5) [(VStr "a", 1)] (Some 0) = [(VStr "a", 1)]
  /\ Z.of_nat (List.length
                 (get_top_events (init None 5) [(VStr "a", 1)] (Some 0)))
     <> Z.min 0 (Z.of_nat (List.length [(VStr "a", 1)])).
Proof.
  split; [reflexivity|]. vm_compute. discriminate.
Qed.

(** ** The retried GET *)

Import HttpClient.

Section Retry.

Variable self : HttpClient.t.
Variable env : Env.
Variable endpoint : string.
Variable query : option (list (string * Value)).

(** One execution of the body counts one attempt, invokes the transport at
    most once and does not sleep. *)
Lemma get_body_counts (s s' : Session) (r : Result Value) :
  get_body self env endpoint query s = (r, s') ->
  attempts_made s' = S (attempts_made s)
  /\ (requests_made s' <= S (requests_made s))%nat
  /\ slept s' = slept s.
Proof.
  unfold get_body.
  destruct (negb (client_open self)).
  - intros H. injection H as <- <-. simpl. repeat split. lia.
  - destruct (_get_headers env) as [h|e].
    + destruct (transport env _ _); intros H; injection H as <- <-; simpl;
        repeat split; lia.
    + intros H. injection H as <- <-. simpl. repeat split. lia.
Qed.

(** The loop ends within [3 - attempt_number + 1] iterations (one, when
    entered later), whatever the transport does, and each iteration is one
    attempt. *)
Lemma retrying_returns (fuel : nat) (attempt_number : Z) (s : Session) :
  1 <= attempt_number ->
  Z.max 1 (max_attempt_number - attempt_number + 1) <= Z.of_nat fuel ->
  exists r s',
    retrying fuel attempt_number self env endpoint query s = Some (r, s')
    /\ Z.of_nat (attempts_made s') - Z.of_nat (attempts_made s)
       <= Z.max 1 (max_attempt_number - attempt_number + 1)
    /\ (requests_made s' - requests_made s <= attempts_made s' - attempts_made s)%nat
    /\ (attempts_made s < attempts_made s')%nat.
Proof.
  revert attempt_number s.
  induction fuel as [|fuel IH]; intros attempt_number s Hn Hfuel.
  - simpl in Hfuel. lia.
  - cbn [retrying].
    destruct (get_body self env endpoint query s) as [r s1] eqn:Hbody.
    destruct (get_body_counts _ _ _ Hbody) as (Ha & Hr & Hs).
    assert (Z.of_nat (attempts_made s1) - Z.of_nat (attempts_made s)
            <= Z.max 1 (max_attempt_number - attempt_number + 1)
            /\ (requests_made s1 - requests_made s
                <= attempts_made s1 - attempts_made s)%nat
            /\ (attempts_made s < attempts_made s1)%nat) as Hone
      by (unfold max_attempt_number; split; [|split]; lia).
    destruct r as [data|e].
    + exists (Ok data), s1. split; [reflexivity|exact Hone].
    + destruct (negb (retry_if_exception_type e)).
      * exists (Raise e), s1. split; [reflexivity|exact Hone].
      * unfold stop_after_attempt.
        destruct (attempt_number >=? max_attempt_number) eqn:Hstop.
        -- exists (Raise e), s1. split; [reflexivity|exact Hone].
        -- assert (attempt_number < max_attempt_number) as Hlt.
           { destruct (Z.geb_spec attempt_number max_attempt_number);
               [discriminate|lia]. }
           destruct (IH (attempt_number + 1)
                        (sleep (wait_exponential attempt_number) s1))
             as (r' & s' & Hrun & Hatt & Hreq & Hinc);
             [lia|unfold max_attempt_number in *; lia|].
           exists r', s'. split; [exact Hrun|].
           cbn [sleep attempts_made requests_made] in Hatt, Hreq, Hinc.
           unfold max_attempt_number in *. split; [|split]; lia.
Qed.

(** [get] always returns or raises, after at most three attempts and at
    most three invocations of the underlying request. *)
Lemma get_at_most_three (s : Session) :
  exists r s',
    get self env endpoint query s = Some (r, s')
    /\ (attempts_made s' <= attempts_made s + 3)%nat
    /\ (requests_made s' <= requests_made s + 3)%nat.
Proof.
  destruct (retrying_returns 3 1 s) as (r & s' & Hrun & Hatt & Hreq & Hinc).
  - lia.
  - unfold max_attempt_number. simpl. lia.
  - exists r, s'. split; [exact Hrun|].
    unfold max_attempt_number in Hatt. split; lia.
Qed.

(** More fuel changes nothing: three iterations are all the loop makes. *)
Lemma retrying_fuel (fuel : nat) (s : Session) :
  (3 <= fuel)%nat ->
  retrying fuel 1 self env endpoint query s = get self env endpoint query s.
Proof.
  intros Hfuel. unfold get.
  destruct fuel as [|[|[|fuel]]]; try lia.
  cbn [retrying].
  destruct (get_body self env endpoint query s) as [[data|e] s1];
    [reflexivity|].
  destruct (negb (retry_if_exception_type e)); [reflexivity|].
  change (stop_after_attempt 1) with false. cbv iota.
  destruct (get_body self env endpoint query _) as [[data2|e2] s2];
    [reflexivity|].
  destruct (negb (retry_if_exception_type e2)); [reflexivity|].
  change (stop_after_attempt (1 + 1)) with false. cbv iota.
  destruct (get_body self env endpoint query _) as [[data3|e3] s3];
    [reflexivity|].
  destruct (negb (retry_if_exception_type e3)); [reflexivity|].
  reflexivity.
Qed.

(** With the client open and the headers at hand, the body is one
    invocation of the transport. *)
Lemma get_body_open (h : list (string * string)) (s : Session) :
  client_open self = true ->
  _get_headers env = Ok h ->
  get_body self env endpoint query s
  = (match transport env (requests_made s)
             {| url := String.append (base_url self) endpoint;
                headers := h; params := query |} with
     | Failed e => Raise e
     | Responded response => handle_response response
     end,
     {| requests_made := S (requests_made s);
        attempts_made := S (attempts_made s);
        slept := slept s |}).
Proof.
  intros Hopen Hh. unfold get_body. rewrite Hopen, Hh. simpl.
  destruct (transport env _ _); reflexivity.
Qed.

End Retry.

(** Failure classes of the specification's taxonomy, read off a transport
    result: the error a single attempt raises on it, if any. *)
Definition attempt_error (r : TransportResult) : option Exn :=
  match r with
  | Failed e => Some e
  | Responded response =>
      match handle_response response with
      | Raise e => Some e
      | Ok _ => None
      end
  end.

(** Transient: rate limit (429), a 5xx status, or a network-level error. *)
Definition transient (r : TransportResult) : bool :=
  match r with
  | Failed (RequestError _) => true
  | Failed _ => false
  | Responded response =>
      (response.(status_code) =? 429)
      || ((500 <=? response.(status_code)) && (response.(status_code) <=? 599))
  end.

(** Permanent: an HTTP error status (4xx or 5xx) that is not transient. *)
Definition permanent (r : TransportResult) : bool :=
  match r with
  | Failed _ => false
  | Responded response =>
      (400 <=? response.(status_code)) && (response.(status_code) <=? 599)
      && negb (transient r)
  end.

(** A transient transport result makes the attempt raise an exception of
    a retried class. *)
Lemma transient_attempt_error (r : TransportResult) :
  transient r = true ->
  exists e, attempt_error r = Some e /\ retry_if_exception_type e = true.
Proof.
  destruct r as [response|e]; simpl.
  - intros H.
    assert (is_success response = false) as Hs.
    { unfold is_success. apply andb_false_iff.
      apply orb_true_iff in H. destruct H as [H|H].
      - apply Z.eqb_eq in H. right. apply Z.leb_gt. lia.
      - apply andb_true_iff in H. destruct H as [H _].
        apply Z.leb_le in H. right. apply Z.leb_gt. lia. }
    exists (HTTPStatusError (status_code response)). split; [|reflexivity].
    unfold handle_response, raise_for_status. rewrite Hs.
    destruct (temporary_status (status_code response)); reflexivity.
  - destruct e; try discriminate. intros _.
    eexists. split; reflexivity.
Qed.

(** What an attempt makes of a transport result. *)
Definition attempt_result (r : TransportResult) : Result Value :=
  match r with
  | Failed e => Raise e
  | Responded response => handle_response response
  end.

Lemma attempt_error_result (r : TransportResult) (e : Exn) :
  attempt_error r = Some e -> attempt_result r = Raise e.
Proof.
  destruct r as [response|e']; simpl.
  - destruct (handle_response response); [discriminate|congruence].
  - congruence.
Qed.

(** The request [get] sends. *)
Definition request_of (self : HttpClient.t) (h : list (string * string))
    (endpoint : string) (query : option (list (string * Value))) : Request :=
  {| url := String.append (base_url self) endpoint;
     headers := h; params := query |}.

(** The first three iterations of the loop, by the results of the three
    invocations of the transport. *)
Lemma get_unfold (self : HttpClient.t) (env : Env) (endpoint : string)
    (query : option (list (string * Value))) (h : list (string * string)) :
  client_open self = true ->
  _get_headers env = Ok h ->
  let req := request_of self h endpoint query in
  get self env endpoint query fresh
  = match attempt_result (transport env 0%nat req) with
    | Ok data =>
        Some (Ok data,
              {| requests_made := 1; attempts_made := 1; slept := [] |})
    | Raise e0 =>
        if negb (retry_if_exception_type e0)
        then Some (Raise e0,
                   {| requests_made := 1; attempts_made := 1; slept := [] |})
        else
          match attempt_result (transport env 1%nat req) with
          | Ok data =>
              Some (Ok data,
                    {| requests_made := 2; attempts_made := 2; slept := [2] |})
          | Raise e1 =>
              if negb (retry_if_exception_type e1)
              then Some (Raise e1,
                         {| requests_made := 2; attempts_made := 2;
                            slept := [2] |})
              else
                match attempt_result (transport env 2%nat req) with
                | Ok data =>
                    Some (Ok data,
                          {| requests_made := 3; attempts_made := 3;
                             slept := [2; 2] |})
                | Raise e2 =>
                    Some (Raise e2,
                          {| requests_made := 3; attempts_made := 3;
                             slept := [2; 2] |})
                end
          end
    end.
Proof.
  intros Hopen Hh req. unfold get. cbn [retrying].
  rewrite (get_body_open self env endpoint query h _ Hopen Hh).
  fold (request_of self h endpoint query). fold req.
  change (requests_made fresh) with 0%nat.
  fold (attempt_result (transport env 0%nat req)).
  destruct (attempt_result (transport env 0%nat req)) as [data|e0];
    [reflexivity|].
  destruct (negb (retry_if_exception_type e0)); [reflexivity|].
  change (stop_after_attempt 1) with false. cbv iota.
  rewrite (get_body_open self env endpoint query h _ Hopen Hh).
  fold (request_of self h endpoint query). fold req.
  cbn [sleep requests_made attempts_made slept fresh app].
  fold (attempt_result (transport env 1%nat req)).
  destruct (attempt_result (transport env 1%nat req)) as [data|e1];
    [reflexivity|].
  destruct (negb (retry_if_exception_type e1)); [reflexivity|].
  change (stop_after_attempt (1 + 1)) with false. cbv iota.
  rewrite (get_body_open self env endpoint query h _ Hopen Hh).
  fold (request_of self h endpoint query). fold req.
  cbn [sleep requests_made attempts_made slept fresh app].
  fold (attempt_result (transport env 2%nat req)).
  destruct (attempt_result (transport env 2%nat req)) as [data|e2];
    [reflexivity|].
  destruct (negb (retry_if_exception_type e2)); reflexivity.
Qed.

(** C2. Whatever the transport does, the retried GET returns or raises
    after at most 3 attempts. If the transport fails transiently twice and
    then succeeds with [data], the call returns [data] after exactly 3
    invocations of the underlying request. If its first three invocations
    fail transiently, the call fails after exactly 3 attempts with the
    error of the third, re-raised as it is. *)
Theorem get_three_attempts (self : HttpClient.t) (env : Env)
    (endpoint : string) (query : option (list (string * Value))) :
  (exists r s,
      get self env endpoint query fresh = Some (r, s)
      /\ (attempts_made s <= 3)%nat /\ (requests_made s <= 3)%nat)
  /\ (forall h data,
        client_open self = true ->
        _get_headers env = Ok h ->
        (forall req, transient (transport env 0%nat req) = true) ->
        (forall req, transient (transport env 1%nat req) = true) ->
        (forall req, attempt_result (transport env 2%nat req) = Ok data) ->
        get self env endpoint query fresh
        = Some (Ok data,
                {| requests_made := 3; attempts_made := 3; slept := [2; 2] |}))
  /\ (forall h,
        client_open self = true ->
        _get_headers env = Ok h ->
        (forall n req, (n < 3)%nat -> transient (transport env n req) = true) ->
        exists e,
          attempt_error (transport env 2%nat (request_of self h endpoint query))
          = Some e
          /\ get self env endpoint query fresh
             = Some (Raise e,
                     {| requests_made := 3; attempts_made := 3;
                        slept := [2; 2] |})).
Proof.
  split; [|split].
  - destruct (get_at_most_three self env endpoint query fresh)
      as (r & s & Hrun & Ha & Hr).
    exists r, s. split; [exact Hrun|]. simpl in Ha, Hr. split; lia.
  - intros h data Hopen Hh H0 H1 H2.
    rewrite (get_unfold self env endpoint query h Hopen Hh). cbv zeta.
    destruct (transient_attempt_error _ (H0 (request_of self h endpoint query)))
      as (e0 & He0 & Hretry0).
    destruct (transient_attempt_error _ (H1 (request_of self h endpoint query)))
      as (e1 & He1 & Hretry1).
    rewrite (attempt_error_result _ _ He0), Hretry0. cbn [negb].
    rewrite (attempt_error_result _ _ He1), Hretry1. cbn [negb].
    rewrite H2. reflexivity.
  - intros h Hopen Hh Hall.
    assert (forall n, (n < 3)%nat ->
              exists e,
                attempt_error (transport env n (request_of self h endpoint query))
                = Some e /\ retry_if_exception_type e = true) as Herr
      by (intros n Hn; apply transient_attempt_error, Hall, Hn).
    destruct (Herr 0%nat) as (e0 & He0 & Hretry0); [lia|].
    destruct (Herr 1%nat) as (e1 & He1 & Hretry1); [lia|].
    destruct (Herr 2%nat) as (e2 & He2 & _); [lia|].
    exists e2. split; [exact He2|].
    rewrite (get_unfold self env endpoint query h Hopen Hh). cbv zeta.
    rewrite (attempt_error_result _ _ He0), Hretry0. cbn [negb].
    rewrite (attempt_error_result _ _ He1), Hretry1. cbn [negb].
    rewrite (attempt_error_result _ _ He2). reflexivity.
Qed.

(** Three environments for an open client with a long-lived token: a
    transport that fails with 503, then with a network error, then
    answers; one that always answers 503; one that always answers 404. *)
Definition open_client : HttpClient.t :=
  {| base_url := "https://example.amocrm.ru"; client_open := true |}.

Definition account_data : Value :=
  VDict [("id", VInt 1); ("name", VStr "example")].

Definition respond (status : Z) (body : option Value) : TransportResult :=
  Responded {| status_code := status; json_body := body |}.

Definition with_transport (f : nat -> Request -> TransportResult) : Env :=
  {| AMO_LONG_LIVE_TOKEN := Some "token";
     default_token_manager := Raise (RuntimeError "no token manager");
     transport := f |}.

Definition flaky : Env :=
  with_transport
    (fun n _ =>
       match n with
       | 0%nat => respond 503 None
       | 1%nat => Failed (RequestError "connection reset")
       | _ => respond 200 (Some account_data)
       end).

Definition unavailable : Env := with_transport (fun _ _ => respond 503 None).

Definition not_found : Env := with_transport (fun _ _ => respond 404 None).

Lemma get_three_attempts_witness :
  get open_client flaky "/api/v4/account" None fresh
  = Some (Ok account_data,
          {| requests_made := 3; attempts_made := 3; slept := [2; 2] |})
  /\ exists e,
       attempt_error
         (transport unavailable 2%nat
            (request_of open_client (bearer "token") "/api/v4/account" None))
       = Some e
       /\ get open_client unavailable "/api/v4/account" None fresh
          = Some (Raise e,
                  {| requests_made := 3; attempts_made := 3; slept := [2; 2] |}).
Proof.
  split.
  - apply (proj1 (proj2 (get_three_attempts open_client flaky
                           "/api/v4/account" None))
             (bearer "token") account_data).
    + reflexivity.
    + reflexivity.
    + intros req. reflexivity.
    + intros req. reflexivity.
    + intros req. reflexivity.
  - apply (proj2 (proj2 (get_three_attempts open_client unavailable
                           "/api/v4/account" None))
             (bearer "token")).
    + reflexivity.
    + reflexivity.
    + intros n req Hn. reflexivity.
Defined.

(** Every HTTP error status is retried alike: when the transport keeps
    answering with a status outside 200..299, whatever it is, the call
    makes three attempts. *)
Lemma get_retries_every_error_status (self : HttpClient.t) (env : Env)
    (endpoint : string) (query : option (list (string * Value)))
    (h : list (string * string)) (status : Z) :
  client_open self = true ->
  _get_headers env = Ok h ->
  status < 200 \/ 299 < status ->
  (forall n request,
      exists body, transport env n request = respond status body) ->
  get self env endpoint query fresh
  = Some (Raise (HTTPStatusError status),
          {| requests_made := 3; attempts_made := 3; slept := [2; 2] |}).
Proof.
  intros Hopen Hh Hstatus Hall.
  assert (forall n request,
             attempt_result (transport env n request)
             = Raise (HTTPStatusError status)) as Hres.
  { intros n request. destruct (Hall n request) as [body ->].
    unfold respond, attempt_result, handle_response, raise_for_status,
      is_success. cbn [status_code].
    assert ((200 <=? status) && (status <=? 299) = false) as ->.
    { apply andb_false_iff.
      destruct Hstatus; [left; apply Z.leb_gt|right; apply Z.leb_gt]; lia. }
    destruct (temporary_status status); reflexivity. }
  rewrite (get_unfold self env endpoint query h Hopen Hh). cbv zeta.
  rewrite !Hres. reflexivity.
Qed.

(** C1 fails on the code. A 404 is a permanent failure, yet the call makes
    three attempts and sleeps twice before the error reaches the caller:
    the decorator retries every [httpx.HTTPStatusError], and the test
    [status_code in (429, 500, 502, 503, 504)] in the body only logs. *)
Theorem get_retries_not_found :
  permanent (respond 404 None) = true
  /\ get open_client not_found "/api/v4/account" None fresh
     = Some (Raise (HTTPStatusError 404),
             {| requests_made := 3; attempts_made := 3; slept := [2; 2] |}).
Proof.
  split; reflexivity.
Qed.

(** Exceptions outside the two [httpx] classes are not retried: a body
    that is not JSON ends the call at the first attempt. *)
Example get_no_retry_on_bad_json :
  get open_client (with_transport (fun _ _ => respond 200 None))
    "/api/v4/account" None fresh
  = Some (Raise JSONDecodeError,
          {| requests_made := 1; attempts_made := 1; slept := [] |}).
Proof. reflexivity. Qed.

(** So is a call on a client that was never opened: no request is made. *)
Example get_no_retry_when_closed :
  get {| base_url := "https://example.amocrm.ru"; client_open := false |}
    not_found "/api/v4/account" None fresh
  = Some (Raise (RuntimeError
                   "HTTP-клиент не инициализирован. Используйте async with."),
          {| requests_made := 0; attempts_made := 1; slept := [] |}).
Proof. reflexivity. Qed.

(** ** The paginated fetch *)

Import AmoCRMClient.

(** A call that succeeds at the first attempt: one request, no pause. *)
Definition one_more (s : Session) : Session :=
  {| requests_made := S (requests_made s);
     attempts_made := S (attempts_made s);
     slept := slept s |}.

Lemma get_ok_first (self : HttpClient.t) (env : Env) (endpoint : string)
    (query : option (list (string * Value))) (h : list (string * string))
    (s : Session) (data : Value) :
  client_open self = true ->
  _get_headers env = Ok h ->
  attempt_result
    (transport env (requests_made s) (request_of self h endpoint query))
  = Ok data ->
  get self env endpoint query s = Some (Ok data, one_more s).
Proof.
  intros Hopen Hh Hres. unfold get. cbn [retrying].
  rewrite (get_body_open self env endpoint query h s Hopen Hh).
  fold (request_of self h endpoint query).
  fold (attempt_result
          (transport env (requests_made s) (request_of self h endpoint query))).
  rewrite Hres. reflexivity.
Qed.

(** The server model. A request asks for a page by its ["page"]
    parameter; the server serves [response] as page [p] when every request
    for page [p] is answered 200 with that body. *)
Definition requested_page (request : Request) : option Value :=
  match params request with
  | Some ps => dict_get ps "page"
  | None => None
  end.

Definition serves (env : Env) (p : Z) (response : Value) : Prop :=
  forall n request,
    requested_page request = Some (VInt p) ->
    transport env n request = respond 200 (Some response).

(** [response] is a page with the events [evs] under [_embedded], and a
    [next] link among its [_links] iff [has_next]. *)
Definition is_page (response : Value) (evs : list Value) (has_next : bool)
    : Prop :=
  exists embedded links,
    value_get response "_embedded" (VDict []) = Ok embedded
    /\ value_get embedded "events" (VList []) = Ok (VList evs)
    /\ value_get response "_links" (VDict []) = Ok links
    /\ contains links "next" = Ok has_next.

(** [response] is an empty page: what it holds as events, if anything, is
    false in Python ([[]], or nothing at all). *)
Definition is_empty_page (response : Value) : Prop :=
  exists embedded events,
    value_get response "_embedded" (VDict []) = Ok embedded
    /\ value_get embedded "events" (VList []) = Ok events
    /\ truthy events = false.

(** How the server signals the end after its [N] pages. *)
Inductive Termination : Type :=
| EmptyPage
| NoNextLink.

Definition extra_request (t : Termination) : nat :=
  match t with
  | EmptyPage => 1
  | NoNextLink => 0
  end.

(** The server returns the pages [pages] as pages [p], [p + 1], ..., each
    but the last with a [next] link, and then signals the end by [t]: the
    last page has a [next] link and the page after it is empty, or the last
    page has no [next] link. *)
Definition paginates (env : Env) (p : Z) (pages : list (list Value))
    (t : Termination) : Prop :=
  (forall i evs,
      nth_error pages i = Some evs ->
      evs <> []
      /\ exists response,
           serves env (p + Z.of_nat i) response
           /\ is_page response evs
                (match t with
                 | EmptyPage => true
                 | NoNextLink => (S i <? List.length pages)%nat
                 end))
  /\ match t with
     | EmptyPage =>
         exists response,
           serves env (p + Z.of_nat (List.length pages)) response
           /\ is_empty_page response
     | NoNextLink => pages <> []
     end.

Lemma value_get_has_len (x embedded : Value) (key : string) (default : Value) :
  value_get embedded key default = Ok x -> exists n, len embedded = Ok n.
Proof.
  destruct embedded; simpl; try discriminate. intros _. eexists. reflexivity.
Qed.

Lemma handle_response_page (response embedded : Value) :
  value_get response "_embedded" (VDict []) = Ok embedded ->
  (exists n, len embedded = Ok n) ->
  handle_response {| status_code := 200; json_body := Some response |}
  = Ok response.
Proof.
  intros He [n Hn]. unfold handle_response. simpl.
  rewrite He. simpl. rewrite Hn. reflexivity.
Qed.

Lemma after_page_events (acc : list Value) (response : Value)
    (evs : list Value) (has_next : bool) :
  evs <> [] ->
  is_page response evs has_next ->
  after_page acc response
  = Ok (if has_next then inr (acc ++ evs) else inl (acc ++ evs)).
Proof.
  intros Hne (embedded & links & He & Hev & Hl & Hn).
  unfold after_page. rewrite He. simpl. rewrite Hev. simpl.
  destruct evs as [|ev evs]; [contradiction|]. simpl.
  rewrite Hl. simpl. rewrite Hn. simpl.
  destruct has_next; reflexivity.
Qed.

Lemma after_page_empty (acc : list Value) (response : Value) :
  is_empty_page response -> after_page acc response = Ok (inl acc).
Proof.
  intros (embedded & events & He & Hev & Hfalse).
  unfold after_page. rewrite He. simpl. rewrite Hev. simpl.
  rewrite Hfalse. reflexivity.
Qed.

Definition advance (k : nat) (s : Session) : Session :=
  {| requests_made := requests_made s + k;
     attempts_made := attempts_made s + k;
     slept := slept s |}.

Lemma advance_one_more (k : nat) (s : Session) :
  advance k (one_more s) = advance (S k) s.
Proof.
  unfold advance, one_more. simpl. f_equal; lia.
Qed.

Lemma paginates_tail (env : Env) (p : Z) (evs : list Value)
    (rest : list (list Value)) (t : Termination) :
  paginates env p (evs :: rest) t ->
  (t = NoNextLink -> rest <> []) ->
  paginates env (p + 1) rest t.
Proof.
  intros [Hpages Hend] Hrest. split.
  - intros i evs' Hi.
    destruct (Hpages (S i) evs' Hi) as (Hne & response & Hs & Hp).
    split; [exact Hne|]. exists response. split.
    + replace (p + 1 + Z.of_nat i) with (p + Z.of_nat (S i)) by lia. exact Hs.
    + destruct t; exact Hp.
  - destruct t.
    + destruct Hend as (response & Hs & He). exists response.
      split; [|exact He].
      replace (p + 1 + Z.of_nat (List.length rest))
        with (p + Z.of_nat (List.length (evs :: rest)))
        by (simpl List.length; lia).
      exact Hs.
    + apply Hrest. reflexivity.
Qed.

Section Pagination.

Variable client : HttpClient.t.
Variable env : Env.
Variable timestamp_from timestamp_to : Z.
Variable h : list (string * string).
Hypothesis client_is_open : client_open client = true.
Hypothesis headers_ok : _get_headers env = Ok h.

(** A served page is fetched at the first attempt. *)
Lemma get_served_page (p : Z) (response embedded : Value) (s : Session) :
  serves env p response ->
  value_get response "_embedded" (VDict []) = Ok embedded ->
  (exists n, len embedded = Ok n) ->
  get client env "/api/v4/events"
    (Some (events_params timestamp_from timestamp_to p 100)) s
  = Some (Ok response, one_more s).
Proof.
  intros Hs He Hlen.
  apply (get_ok_first client env _ _ h s response client_is_open headers_ok).
  rewrite (Hs (requests_made s)) by reflexivity.
  apply (handle_response_page response embedded He Hlen).
Qed.

(** The loop, entered at page [p] with [acc] collected so far, against a
    server that has [pages] left: it adds them in order and stops, one
    request per page and one more for an empty last page. *)
Lemma get_events_loop_pages (t : Termination) (pages : list (list Value)) :
  forall (p : Z) (acc : list Value) (s : Session) (fuel : nat),
    paginates env p pages t ->
    (List.length pages + extra_request t <= fuel)%nat ->
    get_events_loop fuel client env timestamp_from timestamp_to p 100 acc s
    = Some (Ok (acc ++ List.concat pages),
            advance (List.length pages + extra_request t) s).
Proof.
  induction pages as [|evs rest IH]; intros p acc s fuel Hpag Hfuel.
  - destruct t; [|destruct Hpag as [_ Hne]; contradiction].
    destruct Hpag as [_ (response & Hs & Hempty)].
    destruct fuel as [|fuel]; [simpl in Hfuel; lia|].
    cbn [get_events_loop].
    pose proof Hempty as (embedded & events & He & Hev & _).
    simpl List.length in Hs. rewrite Z.add_0_r in Hs.
    rewrite (get_served_page p response embedded s Hs He
               (value_get_has_len _ _ _ _ Hev)).
    rewrite (after_page_empty acc response Hempty).
    simpl. rewrite app_nil_r. unfold advance, one_more.
    do 3 f_equal; lia.
  - destruct fuel as [|fuel]; [simpl in Hfuel; lia|].
    cbn [get_events_loop].
    pose proof Hpag as [Hpages _].
    destruct (Hpages 0%nat evs eq_refl) as (Hne & response & Hs & Hpage).
    rewrite Z.add_0_r in Hs.
    pose proof Hpage as (embedded & links & He & Hev & _).
    rewrite (get_served_page p response embedded s Hs He
               (value_get_has_len _ _ _ _ Hev)).
    rewrite (after_page_events acc response evs _ Hne Hpage).
    destruct t.
    + rewrite (IH (p + 1) (acc ++ evs) (one_more s) fuel).
      * rewrite advance_one_more. simpl. rewrite app_assoc. reflexivity.
      * apply (paginates_tail env p evs rest EmptyPage Hpag). discriminate.
      * simpl in Hfuel |- *. lia.
    + destruct rest as [|evs' rest].
      * simpl. rewrite app_nil_r. unfold advance, one_more.
        do 3 f_equal; lia.
      * change ((1 <? List.length (evs :: evs' :: rest))%nat) with true.
        cbv iota.
        rewrite (IH (p + 1) (acc ++ evs) (one_more s) fuel).
        -- rewrite advance_one_more.
           change (List.concat (evs :: evs' :: rest))
             with (evs ++ List.concat (evs' :: rest)).
           rewrite app_assoc. reflexivity.
        -- apply (paginates_tail env p evs (evs' :: rest) NoNextLink Hpag).
           discriminate.
        -- simpl in Hfuel |- *. lia.
Qed.

End Pagination.

(** C6. Against a server that returns [N] non-empty pages and then
    signals the end, [get_events] terminates (any bound of at least the
    number of requests is enough) and returns the events of exactly those
    [N] pages, concatenated in page order, after exactly [N + 1] requests
    when the end is an empty page, and exactly [N] when it is a last page
    without a [next] link. *)
Theorem get_events_concatenates_pages (self : AmoCRMClient.t) (env : Env)
    (timestamp_from timestamp_to : Z) (h : list (string * string))
    (pages : list (list Value)) (t : Termination) (fuel : nat) :
  _get_headers env = Ok h ->
  paginates env 1 pages t ->
  (List.length pages + extra_request t <= fuel)%nat ->
  get_events fuel self env timestamp_from timestamp_to fresh
  = Some (Ok (List.concat pages),
          {| requests_made := List.length pages + extra_request t;
             attempts_made := List.length pages + extra_request t;
             slept := [] |}).
Proof.
  intros Hh Hpag Hfuel. unfold get_events.
  rewrite (get_events_loop_pages (aenter (http_client self)) env
             timestamp_from timestamp_to h eq_refl Hh t pages 1 [] fresh fuel
             Hpag Hfuel).
  reflexivity.
Qed.

(** A server for the examples: page [p] carries the [p]-th list of
    [pages]; pages past the last are empty. *)
Definition page_body (events : list Value) (has_next : bool) : Value :=
  VDict [("_page", VInt 1);
         ("_links",
          VDict (("self", VDict [("href", VStr "/api/v4/events")])
                 :: if has_next
                    then [("next", VDict [("href", VStr "/api/v4/events")])]
                    else []));
         ("_embedded", VDict [("events", VList events)])].

Definition paged_server (pages : list (list Value)) (t : Termination) : Env :=
  with_transport
    (fun _ request =>
       match requested_page request with
       | Some (VInt p) =>
           let i := Z.to_nat (p - 1) in
           match nth_error pages i with
           | Some evs =>
               respond 200
                 (Some (page_body evs
                          (match t with
                           | EmptyPage => true
                           | NoNextLink => (S i <? List.length pages)%nat
                           end)))
           | None => respond 200 (Some (page_body [] false))
           end
       | _ => respond 400 None
       end).

Lemma page_body_is_page (evs : list Value) (has_next : bool) :
  is_page (page_body evs has_next) evs has_next.
Proof.
  exists (VDict [("events", VList evs)]).
  eexists. repeat split; try reflexivity.
  destruct has_next; reflexivity.
Qed.

Lemma paged_server_paginates (pages : list (list Value)) (t : Termination) :
  Forall (fun evs => evs <> []) pages ->
  (t = NoNextLink -> pages <> []) ->
  paginates (paged_server pages t) 1 pages t.
Proof.
  intros Hne Hlast. split.
  - intros i evs Hi. split.
    + rewrite Forall_forall in Hne. apply Hne.
      apply (nth_error_In _ _ Hi).
    + eexists. split.
      * intros n request Hreq. unfold paged_server, with_transport.
        cbn [transport]. rewrite Hreq. cbv zeta.
        replace (Z.to_nat (1 + Z.of_nat i - 1)) with i by lia.
        rewrite Hi. reflexivity.
      * destruct t; apply page_body_is_page.
  - destruct t.
    + eexists. split.
      * intros n request Hreq. unfold paged_server, with_transport.
        cbn [transport]. rewrite Hreq. cbv zeta.
        replace (Z.to_nat (1 + Z.of_nat (List.length pages) - 1))
          with (List.length pages) by lia.
        rewrite (proj2 (nth_error_None pages (List.length pages)) (le_n _)).
        reflexivity.
      * exists (VDict [("events", VList [])]), (VList []).
        repeat split.
    + apply Hlast. reflexivity.
Qed.

Definition event (id : Z) (type : string) : Value :=
  VDict [("id", VInt id); ("type", VStr type); ("created_by", VInt 0)].

Definition two_pages : list (list Value) :=
  [[event 1 "lead_added"; event 2 "task_added"]; [event 3 "lead_added"]].

Lemma get_events_concatenates_pages_witness :
  get_events 3 {| http_client := open_client |}
    (paged_server two_pages EmptyPage) 1736899200 1736985599 fresh
  = Some (Ok [event 1 "lead_added"; event 2 "task_added"; event 3 "lead_added"],
          {| requests_made := 3; attempts_made := 3; slept := [] |})
  /\ get_events 2 {| http_client := open_client |}
       (paged_server two_pages NoNextLink) 1736899200 1736985599 fresh
     = Some (Ok [event 1 "lead_added"; event 2 "task_added";
                 event 3 "lead_added"],
             {| requests_made := 2; attempts_made := 2; slept := [] |}).
Proof.
  split.
  - apply (get_events_concatenates_pages {| http_client := open_client |}
             (paged_server two_pages EmptyPage) 1736899200 1736985599
             (bearer "token") two_pages EmptyPage 3).
    + reflexivity.
    + apply paged_server_paginates.
      * repeat constructor; discriminate.
      * discriminate.
    + simpl. lia.
  - apply (get_events_concatenates_pages {| http_client := open_client |}
             (paged_server two_pages NoNextLink) 1736899200 1736985599
             (bearer "token") two_pages NoNextLink 2).
    + reflexivity.
    + apply paged_server_paginates.
      * repeat constructor; discriminate.
      * discriminate.
    + simpl. lia.
Defined.

(** The loop has no bound of its own: against a server whose every page is
    full and has a [next] link, no amount of fuel is enough. *)
Example get_events_endless_server :
  get_events 25 {| http_client := open_client |}
    (with_transport
       (fun _ _ => respond 200 (Some (page_body [event 1 "lead_added"] true))))
    0 0 fresh
  = None.
Proof. vm_compute. reflexivity. Qed.

(** ** Timestamps: formatting and parsing *)

Import Clock.

Lemma digit_value_digit (n : Z) :
  0 <= n <= 9 -> digit_value (digit n) = Some n.
Proof.
  intros Hn. rewrite <- (Z2Nat.id n) by lia.
  assert (Z.to_nat n <= 9)%nat as Hm by lia.
  revert Hm. generalize (Z.to_nat n) as m. intros m Hm.
  do 10 (destruct m as [|m]; [reflexivity|]). lia.
Qed.

(** The characters of a number written with two and with four digits. *)
Definition two_chars (n : Z) (rest : string) : string :=
  String (digit (n / 10)) (String (digit (n mod 10)) rest).

Definition four_chars (n : Z) (rest : string) : string :=
  String (digit (n / 1000))
    (String (digit (n / 100 mod 10))
       (String (digit (n / 10 mod 10)) (String (digit (n mod 10)) rest))).

(** A field of the regular expression on each number [0 .. bound - 1]
    written with two digits: the numbers out of the field's range are
    excluded by the hypotheses, the others are read by computation, down to
    the continuation [Hk] answers for. *)
Tactic Notation "each_value" integer(bound) ident(n) hyp(Hk) :=
  do bound (destruct n as [|n];
            [first [ solve [lia]
                   | vm_compute in Hk |- *; rewrite Hk; reflexivity ]|]);
  lia.

Section Fields.

Context {R : Type}.

Lemma digit_in_digit (lo hi d : Z) (k : Z -> string -> option R) (rest : string) :
  0 <= d <= 9 -> lo <= d <= hi ->
  digit_in lo hi k (String (digit d) rest) = k d rest.
Proof.
  intros Hd Hr. unfold digit_in. rewrite (digit_value_digit d Hd).
  destruct (Z.leb_spec lo d); [|lia].
  destruct (Z.leb_spec d hi); [|lia].
  reflexivity.
Qed.

(** An ASCII digit is a decimal digit, of its own value. *)
Lemma re_digit_digit (d : Z) (k : Z -> string -> option R) (rest : string) :
  0 <= d <= 9 -> re_digit k (String (digit d) rest) = k d rest.
Proof.
  intros Hd. rewrite <- (Z2Nat.id d) by lia.
  assert (Z.to_nat d <= 9)%nat as Hm by lia.
  revert Hm. generalize (Z.to_nat d) as m. intros m Hm.
  do 10 (destruct m as [|m]; [reflexivity|]). lia.
Qed.

Lemma re_Y_four (y : Z) (k : Z -> string -> option R) (rest : string) :
  0 <= y <= 9999 -> re_Y k (four_chars y rest) = k y rest.
Proof.
  intros Hy. unfold re_Y, four_chars.
  assert (0 <= y / 1000 <= 9) by (Z.div_mod_to_equations; lia).
  assert (0 <= y / 100 mod 10 <= 9) by (Z.div_mod_to_equations; lia).
  assert (0 <= y / 10 mod 10 <= 9) by (Z.div_mod_to_equations; lia).
  assert (0 <= y mod 10 <= 9) by (Z.div_mod_to_equations; lia).
  rewrite !re_digit_digit by assumption.
  f_equal. Z.div_mod_to_equations. lia.
Qed.

Lemma two_digits_two (alo ahi blo bhi n : Z) (k : Z -> string -> option R)
    (rest : string) :
  0 <= n <= 99 -> alo <= n / 10 <= ahi -> blo <= n mod 10 <= bhi ->
  two_digits alo ahi blo bhi k (two_chars n rest) = k n rest.
Proof.
  intros Hn Ha Hb. unfold two_digits, two_chars.
  assert (0 <= n / 10 <= 9) by (Z.div_mod_to_equations; lia).
  assert (0 <= n mod 10 <= 9) by (Z.div_mod_to_equations; lia).
  rewrite !digit_in_digit by assumption.
  f_equal. Z.div_mod_to_equations. lia.
Qed.

(** On a number written with two digits, each field of the regular
    expression takes both digits. *)
Lemma re_m_nat (n : nat) (k : Z -> string -> option R) (rest : string) (r : R) :
  (1 <= n <= 12)%nat ->
  k (Z.of_nat n) rest = Some r ->
  re_m k (two_chars (Z.of_nat n) rest) = Some r.
Proof.
  intros Hn Hk. each_value 13 n Hk.
Qed.

Lemma re_d_nat (n : nat) (k : Z -> string -> option R) (rest : string) (r : R) :
  (1 <= n <= 31)%nat ->
  k (Z.of_nat n) rest = Some r ->
  re_d k (two_chars (Z.of_nat n) rest) = Some r.
Proof.
  intros Hn Hk. each_value 32 n Hk.
Qed.

Lemma re_H_nat (n : nat) (k : Z -> string -> option R) (rest : string) (r : R) :
  (n <= 23)%nat ->
  k (Z.of_nat n) rest = Some r ->
  re_H k (two_chars (Z.of_nat n) rest) = Some r.
Proof.
  intros Hn Hk. each_value 24 n Hk.
Qed.

Lemma re_M_nat (n : nat) (k : Z -> string -> option R) (rest : string) (r : R) :
  (n <= 59)%nat ->
  k (Z.of_nat n) rest = Some r ->
  re_M k (two_chars (Z.of_nat n) rest) = Some r.
Proof.
  intros Hn Hk. each_value 60 n Hk.
Qed.

Lemma re_S_nat (n : nat) (k : Z -> string -> option R) (rest : string) (r : R) :
  (n <= 59)%nat ->
  k (Z.of_nat n) rest = Some r ->
  re_S k (two_chars (Z.of_nat n) rest) = Some r.
Proof.
  intros Hn Hk. each_value 60 n Hk.
Qed.

End Fields.

Section FieldsZ.

Context {R : Type}.
Variables (k : Z -> string -> option R) (rest : string) (r : R).

Lemma re_m_two (n : Z) :
  1 <= n <= 12 -> k n rest = Some r -> re_m k (two_chars n rest) = Some r.
Proof.
  intros Hn. rewrite <- (Z2Nat.id n) by lia. apply re_m_nat. lia.
Qed.

Lemma re_d_two (n : Z) :
  1 <= n <= 31 -> k n rest = Some r -> re_d k (two_chars n rest) = Some r.
Proof.
  intros Hn. rewrite <- (Z2Nat.id n) by lia. apply re_d_nat. lia.
Qed.

Lemma re_H_two (n : Z) :
  0 <= n <= 23 -> k n rest = Some r -> re_H k (two_chars n rest) = Some r.
Proof.
  intros Hn. rewrite <- (Z2Nat.id n) by lia. apply re_H_nat. lia.
Qed.

Lemma re_M_two (n : Z) :
  0 <= n <= 59 -> k n rest = Some r -> re_M k (two_chars n rest) = Some r.
Proof.
  intros Hn. rewrite <- (Z2Nat.id n) by lia. apply re_M_nat. lia.
Qed.

Lemma re_S_two (n : Z) :
  0 <= n <= 59 -> k n rest = Some r -> re_S k (two_chars n rest) = Some r.
Proof.
  intros Hn. rewrite <- (Z2Nat.id n) by lia. apply re_S_nat. lia.
Qed.

End FieldsZ.

Lemma lit_same {R : Type} (c : ascii) (k : string -> option R) (rest : string) :
  lit c k (String c rest) = k rest.
Proof.
  unfold lit. rewrite Ascii.eqb_refl. reflexivity.
Qed.

Lemma lit2_upper {R : Type} (upper lower : ascii) (k : string -> option R)
    (rest : string) (r : R) :
  k rest = Some r -> lit2 upper lower k (String upper rest) = Some r.
Proof.
  intros Hk. unfold lit2, alt. rewrite lit_same, Hk. reflexivity.
Qed.

Lemma days_in_month_le (y m : Z) : days_in_month y m <= 31.
Proof.
  unfold days_in_month.
  destruct (m =? 2); [destruct (is_leap y); lia|].
  destruct ((m =? 4) || (m =? 6) || (m =? 9) || (m =? 11)); lia.
Qed.

Lemma valid_bounds (dt : datetime) :
  valid dt = true ->
  1 <= year dt <= 9999 /\ 1 <= month dt <= 12 /\ 1 <= day dt <= 31
  /\ 0 <= hour dt <= 23 /\ 0 <= minute dt <= 59 /\ 0 <= second dt <= 59.
Proof.
  unfold valid. intros H.
  repeat (apply andb_true_iff in H; destruct H as [H ?]).
  repeat match goal with
         | Hle : (_ <=? _) = true |- _ => apply Z.leb_le in Hle
         end.
  pose proof (days_in_month_le (year dt) (month dt)). lia.
Qed.

(** The text [YYYY-MM-DDTHH:MM:SSZ] of a time: the year with four digits,
    every other field with two. *)
Definition iso_text (dt : datetime) : string :=
  four_chars (year dt) (String "-" (two_chars (month dt) (String "-"
    (two_chars (day dt) (String "T" (two_chars (hour dt) (String ":"
      (two_chars (minute dt) (String ":"
        (two_chars (second dt) "Z")))))))))).

(** From year 1000 on, it is what [strftime] writes. *)
Lemma strftime_Y_four (y : Z) : 1000 <= y -> strftime_Y y = pad4 y.
Proof.
  intros Hy. unfold strftime_Y.
  destruct (Z.ltb_spec y 10); [lia|].
  destruct (Z.ltb_spec y 100); [lia|].
  destruct (Z.ltb_spec y 1000); [lia|reflexivity].
Qed.

Lemma strftime_date_chars (dt : datetime) :
  1000 <= year dt ->
  strftime_date dt
  = four_chars (year dt) (String "-" (two_chars (month dt) (String "-"
      (two_chars (day dt) "")))).
Proof.
  intros Hy. unfold strftime_date. rewrite (strftime_Y_four _ Hy).
  reflexivity.
Qed.

Lemma strftime_iso_chars (dt : datetime) :
  1000 <= year dt -> strftime_iso dt = iso_text dt.
Proof.
  intros Hy. unfold strftime_iso, strftime_date.
  rewrite (strftime_Y_four _ Hy). reflexivity.
Qed.

(** The regular expression of [strptime] reads the text of a time back. *)
Lemma iso_match_strftime (dt : datetime) :
  valid dt = true -> iso_match (iso_text dt) = Some (dt, "").
Proof.
  intros Hv. destruct (valid_bounds dt Hv) as (HY & Hm & Hd & HH & HM & HS).
  unfold iso_text, iso_match.
  rewrite re_Y_four by lia. rewrite lit_same.
  apply re_m_two; [exact Hm|]. rewrite lit_same.
  apply re_d_two; [exact Hd|].
  apply lit2_upper.
  apply re_H_two; [exact HH|]. rewrite lit_same.
  apply re_M_two; [exact HM|]. rewrite lit_same.
  apply re_S_two; [exact HS|].
  apply lit2_upper.
  destruct dt. reflexivity.
Qed.

Lemma strptime_strftime (dt : datetime) :
  valid dt = true -> strptime_iso (iso_text dt) = Ok dt.
Proof.
  intros Hv. unfold strptime_iso. rewrite (iso_match_strftime dt Hv).
  simpl. rewrite Hv. reflexivity.
Qed.

(** ** The report: time of the peak *)

Import DailyReport.

(** C10. [format_time] returns for every string: the time [HH:MM] of the
    timestamp when the string parses in the format
    [YYYY-MM-DDTHH:MM:SSZ], and the string itself, unchanged, when it does
    not. For a timestamp written in that format, [HH:MM] is the part of
    the string at characters 11 to 15. *)
Theorem format_time_never_raises (s : string) :
  (exists r, format_time s = Ok r)
  /\ (forall dt, strptime_iso s = Ok dt -> format_time s = Ok (strftime_HM dt))
  /\ (forall e, strptime_iso s = Raise e -> format_time s = Ok s)
  /\ (forall dt,
        valid dt = true -> s = iso_text dt ->
        strptime_iso s = Ok dt /\ format_time s = Ok (substring 11 5 s)).
Proof.
  unfold format_time, try_except.
  split; [|split; [|split]].
  - destruct (strptime_iso s); simpl; eexists; reflexivity.
  - intros dt ->. reflexivity.
  - intros e ->. reflexivity.
  - intros dt Hv ->. rewrite (strptime_strftime dt Hv).
    split; reflexivity.
Qed.

Lemma format_time_never_raises_witness :
  format_time "2025-01-15T18:23:00Z" = Ok "18:23"
  /\ format_time "invalid-timestamp" = Ok "invalid-timestamp"
  /\ format_time "2025-1-5t8:03:00z" = Ok "08:03"
  /\ format_time "2025-01-15T８:23:45Z" = Ok "08:23".
Proof.
  split; [|split; [|split]].
  - apply (proj2 (proj2 (proj2
             (format_time_never_raises "2025-01-15T18:23:00Z")))
             {| year := 2025; month := 1; day := 15;
                hour := 18; minute := 23; second := 0 |});
      reflexivity.
  - apply (proj1 (proj2 (proj2
             (format_time_never_raises "invalid-timestamp"))) ValueError).
    reflexivity.
  - apply (proj1 (proj2 (format_time_never_raises "2025-1-5t8:03:00z"))
             {| year := 2025; month := 1; day := 5;
                hour := 8; minute := 3; second := 0 |}).
    reflexivity.
  - apply (proj1 (proj2 (format_time_never_raises "2025-01-15T８:23:45Z"))
             {| year := 2025; month := 1; day := 15;
                hour := 8; minute := 23; second := 45 |}).
    reflexivity.
Defined.

(** Numbers that are no date or no time of day are refused like any other
    text, and so is text after the [Z]; a day written with a space for its
    first digit is read. *)
Example format_time_no_such_day :
  format_time "2025-02-30T10:00:00Z" = Ok "2025-02-30T10:00:00Z".
Proof. reflexivity. Qed.

Example format_time_leap_second :
  format_time "2025-01-15T18:23:60Z" = Ok "2025-01-15T18:23:60Z".
Proof. reflexivity. Qed.

Example format_time_hour_24 :
  format_time "2025-01-15T24:00:00Z" = Ok "2025-01-15T24:00:00Z".
Proof. reflexivity. Qed.

Example format_time_trailing_space :
  format_time "2025-01-15T18:23:00Z " = Ok "2025-01-15T18:23:00Z ".
Proof. reflexivity. Qed.

Example format_time_space_day :
  format_time "2025-01- 5T08:03:00Z" = Ok "08:03".
Proof. reflexivity. Qed.

(** ** The latency store *)

Import LatencyChecker.

Lemma two_two (n : Z) (k : Z -> string -> option (datetime * string))
    (rest : string) :
  0 <= n <= 99 -> two k (two_chars n rest) = k n rest.
Proof.
  intros Hn. unfold two.
  apply two_digits_two; [exact Hn| |]; Z.div_mod_to_equations; lia.
Qed.

Lemma four_four (y : Z) (k : Z -> string -> option (datetime * string))
    (rest : string) :
  0 <= y <= 9999 -> four k (four_chars y rest) = k y rest.
Proof.
  intros Hy. unfold four, four_chars.
  assert (0 <= y / 1000 <= 9) by (Z.div_mod_to_equations; lia).
  assert (0 <= y / 100 mod 10 <= 9) by (Z.div_mod_to_equations; lia).
  assert (0 <= y / 10 mod 10 <= 9) by (Z.div_mod_to_equations; lia).
  assert (0 <= y mod 10 <= 9) by (Z.div_mod_to_equations; lia).
  rewrite !digit_in_digit by (assumption || lia).
  f_equal. Z.div_mod_to_equations. lia.
Qed.

(** SQLite's [date()] of a timestamp written by [save_latency] with a
    four-digit year is the calendar date of that timestamp. *)
Lemma sqlite_date_strftime (dt : datetime) :
  valid dt = true -> 1000 <= year dt ->
  sqlite_date (strftime_iso dt) = Some (strftime_date dt).
Proof.
  intros Hv Hy. destruct (valid_bounds dt Hv) as (HY & Hm & Hd & HH & HM & HS).
  unfold sqlite_date.
  assert (sqlite_parse (strftime_iso dt) = Some (dt, "")) as ->.
  { rewrite (strftime_iso_chars dt Hy). unfold iso_text, sqlite_parse.
    rewrite four_four by lia.
    rewrite lit_same, two_two by lia.
    rewrite lit_same, two_two by lia.
    rewrite lit_same, two_two by lia.
    rewrite lit_same, two_two by lia.
    rewrite lit_same, two_two by lia.
    rewrite lit_same. destruct dt. reflexivity. }
  rewrite Hv. unfold strftime_date. rewrite (strftime_Y_four _ Hy).
  reflexivity.
Qed.

Section Store.

Variable date : string -> option string.

Lemma on_date_true (d : string) (row : Row) :
  on_date date d row = true <-> date (fst row) = Some d.
Proof.
  unfold on_date. destruct (date (fst row)) as [x|].
  - rewrite String.eqb_eq. split; congruence.
  - split; discriminate.
Qed.

Lemma on_date_other (d d' : string) (row : Row) :
  d' <> d -> on_date date d' row = true -> on_date date d row = false.
Proof.
  intros Hne H. apply on_date_true in H.
  destruct (on_date date d row) eqn:Hd; [|reflexivity].
  apply on_date_true in Hd. congruence.
Qed.

(** Deleting the rows of [d] leaves the rows of any other date as they
    were, in the same order. *)
Lemma rows_of_other_date (db : Table) (d d' : string) :
  d' <> d ->
  filter (on_date date d') (filter (fun row => negb (on_date date d row)) db)
  = filter (on_date date d') db.
Proof.
  intros Hne. induction db as [|row db IH]; simpl; [reflexivity|].
  destruct (on_date date d' row) eqn:Hd'.
  - rewrite (on_date_other d d' row Hne Hd'). simpl. rewrite Hd', IH.
    reflexivity.
  - destruct (on_date date d row); simpl; [exact IH|].
    rewrite Hd'. exact IH.
Qed.

Lemma rows_of_deleted_date (db : Table) (d : string) :
  filter (on_date date d) (filter (fun row => negb (on_date date d row)) db)
  = [].
Proof.
  induction db as [|row db IH]; simpl; [reflexivity|].
  destruct (on_date date d row) eqn:Hd; simpl; [exact IH|].
  rewrite Hd. exact IH.
Qed.

Lemma filter_split_length (db : Table) (d : string) :
  List.length db
  = (List.length (filter (on_date date d) db)
     + List.length (filter (fun row => negb (on_date date d row)) db))%nat.
Proof.
  induction db as [|row db IH]; simpl; [reflexivity|].
  destruct (on_date date d row); simpl; lia.
Qed.

Lemma filter_none (db : Table) (d : string) :
  (forall row, In row db -> date (fst row) <> Some d) ->
  filter (on_date date d) db = []
  /\ filter (fun row => negb (on_date date d row)) db = db.
Proof.
  induction db as [|row db IH]; simpl; intros Hnone; [split; reflexivity|].
  assert (on_date date d row = false) as Hrow.
  { destruct (on_date date d row) eqn:Hd; [|reflexivity].
    apply on_date_true in Hd. exfalso. apply (Hnone row); auto. }
  rewrite Hrow. simpl.
  destruct IH as [IH1 IH2]; [intros r Hr; apply Hnone; auto|].
  rewrite IH1, IH2. split; reflexivity.
Qed.

End Store.

(** C8. Whatever the table holds, [delete_latency_for_date(d)] removes
    exactly the rows whose [date(timestamp)] is [d] and returns how many
    they were; the rows of every other date stay, unchanged and in order,
    so [get_max_latency_for_date] answers the same for every other date
    before and after. This holds for any reading [date] of the timestamps,
    SQLite's among them. *)
Theorem delete_latency_for_date_isolated (date : string -> option string)
    (db : Table) (d : string) :
  let deleted := fst (delete_latency_for_date date db d) in
  let db' := snd (delete_latency_for_date date db d) in
  deleted = Z.of_nat (List.length (filter (on_date date d) db))
  /\ Z.of_nat (List.length db) = Z.of_nat (List.length db') + deleted
  /\ (forall row, In row db' <-> In row db /\ date (fst row) <> Some d)
  /\ filter (on_date date d) db' = []
  /\ (forall d',
        d' <> d ->
        filter (on_date date d') db' = filter (on_date date d') db
        /\ get_max_latency_for_date date db' d'
           = get_max_latency_for_date date db d').
Proof.
  cbn [delete_latency_for_date fst snd].
  split; [reflexivity|]. split; [|split; [|split]].
  - rewrite (filter_split_length date db d). lia.
  - intros row. rewrite filter_In, negb_true_iff.
    rewrite <- (on_date_true date d row).
    destruct (on_date date d row); intuition congruence.
  - apply rows_of_deleted_date.
  - intros d' Hne. unfold get_max_latency_for_date.
    rewrite (rows_of_other_date date db d d' Hne). split; reflexivity.
Qed.

(** The scenario of three calendar dates. *)
Definition at_time (Y m d H M S : Z) : datetime :=
  {| year := Y; month := m; day := d; hour := H; minute := M; second := S |}.

Definition three_days : Table :=
  [("2025-01-14T10:00:00Z", 100);
   ("2025-01-15T11:00:00Z", 150);
   ("2025-01-15T12:00:00Z", 200);
   ("2025-01-16T13:00:00Z", 300)].

Example three_days_saved (now : datetime) :
  (db1 <- save_latency [] now 100 (Some (at_time 2025 1 14 10 0 0)) ;;
   db2 <- save_latency db1 now 150 (Some (at_time 2025 1 15 11 0 0)) ;;
   db3 <- save_latency db2 now 200 (Some (at_time 2025 1 15 12 0 0)) ;;
   save_latency db3 now 300 (Some (at_time 2025 1 16 13 0 0)))
  = Ok three_days.
Proof. reflexivity. Qed.

Example three_days_delete_middle :
  let (deleted, db') := delete_latency_for_date sqlite_date three_days
                          "2025-01-15" in
  deleted = 2
  /\ get_max_latency_for_date sqlite_date db' "2025-01-14"
     = Some ("2025-01-14T10:00:00Z", 100)
  /\ get_max_latency_for_date sqlite_date db' "2025-01-15" = None
  /\ get_max_latency_for_date sqlite_date db' "2025-01-16"
     = Some ("2025-01-16T13:00:00Z", 300).
Proof. vm_compute. repeat split. Qed.

(** C7, as amended. From an empty store, [save_latency(150, T)] stores one
    row; [get_max_latency_for_date] on the date of [T] then returns [T]
    formatted as [YYYY-MM-DDTHH:MM:SSZ] with 150;
    [delete_latency_for_date] on that date removes the row, after which
    [get_max_latency_for_date] returns [None]; and on a date without rows
    [delete_latency_for_date] returns 0 and changes nothing. [T] is any
    [datetime] whose year has four digits. *)
Theorem latency_round_trip (now T : datetime) :
  valid T = true ->
  1000 <= year T ->
  let d := strftime_date T in
  exists db,
    save_latency [] now 150 (Some T) = Ok db
    /\ get_max_latency_for_date sqlite_date db d = Some (strftime_iso T, 150)
    /\ fst (delete_latency_for_date sqlite_date db d) = 1
    /\ get_max_latency_for_date sqlite_date
         (snd (delete_latency_for_date sqlite_date db d)) d = None
    /\ delete_latency_for_date sqlite_date
         (snd (delete_latency_for_date sqlite_date db d)) d
       = (0, snd (delete_latency_for_date sqlite_date db d))
    /\ forall db0 d0,
         (forall row, In row db0 -> sqlite_date (fst row) <> Some d0) ->
         delete_latency_for_date sqlite_date db0 d0 = (0, db0).
Proof.
  intros Hv Hy d. exists [(strftime_iso T, 150)].
  assert (on_date sqlite_date d (strftime_iso T, 150) = true) as Hon.
  { apply on_date_true. apply (sqlite_date_strftime T Hv Hy). }
  split; [reflexivity|].
  unfold get_max_latency_for_date, delete_latency_for_date.
  cbn [filter fst snd]. rewrite Hon. cbn [negb filter List.length].
  repeat split.
  intros db0 d0 Hnone.
  destruct (filter_none sqlite_date db0 d0 Hnone) as [-> ->]. reflexivity.
Qed.

Lemma latency_round_trip_witness :
  exists db,
    save_latency [] (at_time 2025 1 20 3 0 0) 150
      (Some (at_time 2025 1 15 10 30 0)) = Ok db
    /\ get_max_latency_for_date sqlite_date db "2025-01-15"
       = Some ("2025-01-15T10:30:00Z", 150)
    /\ fst (delete_latency_for_date sqlite_date db "2025-01-15") = 1
    /\ get_max_latency_for_date sqlite_date
         (snd (delete_latency_for_date sqlite_date db "2025-01-15"))
         "2025-01-15" = None.
Proof.
  assert (1000 <= year (at_time 2025 1 15 10 30 0)) as Hy by (simpl; lia).
  destruct (latency_round_trip (at_time 2025 1 20 3 0 0)
              (at_time 2025 1 15 10 30 0) eq_refl Hy)
    as (db & Hsave & Hmax & Hdel & Hnone & _).
  exists db. repeat split; assumption.
Defined.

(** C7 as stated fails for a time before year 1000. [strftime] writes
    the year 999 with three digits, SQLite's [date()] is NULL on such a
    timestamp, and the row just saved is found neither under the date as
    [strftime] writes it nor under the date written with four digits:
    [get_max_latency_for_date] returns [None] where the saved pair is
    promised. *)
Lemma latency_round_trip_year_999 :
  valid (at_time 999 1 5 1 2 3) = true
  /\ save_latency [] (at_time 2025 1 20 3 0 0) 150
       (Some (at_time 999 1 5 1 2 3))
     = Ok [("999-01-05T01:02:03Z", 150)]
  /\ strftime_date (at_time 999 1 5 1 2 3) = "999-01-05"
  /\ get_max_latency_for_date sqlite_date [("999-01-05T01:02:03Z", 150)]
       "999-01-05" = None
  /\ get_max_latency_for_date sqlite_date [("999-01-05T01:02:03Z", 150)]
       "0999-01-05" = None
  /\ get_max_latency_for_date sqlite_date [("999-01-05T01:02:03Z", 150)]
       (strftime_date (at_time 999 1 5 1 2 3))
     <> Some (strftime_iso (at_time 999 1 5 1 2 3), 150).
Proof.
  repeat (split; [reflexivity|]). vm_compute. discriminate.
Qed.

(** ** The report rows *)

(** A row without peak cells, and the two peak cells of the first row. *)
Definition blank_row (date_str : string) (entry : string * Z) : list Cell :=
  [CStr date_str; CStr (get_event_name (fst entry)); CInt (snd entry);
   CStr ""; CStr ""].

Definition peak_cells (max_latency : option (string * Z)) (cells : list Cell)
    : Prop :=
  match max_latency with
  | Some (peak_time, latency_ms) =>
      exists time,
        format_time peak_time = Ok time
        /\ cells = [CInt latency_ms; CStr time]
  | None => cells = [CStr ""; CStr ""]
  end.

Lemma event_rows_blank (date_str : string) (top_events : list (string * Z))
    (max_latency : option (string * Z)) :
  forall i,
    1 <= i ->
    event_rows date_str i top_events max_latency
    = Ok (map (blank_row date_str) top_events).
Proof.
  induction top_events as [|[event_type count] rest IH]; intros i Hi.
  - reflexivity.
  - cbn [event_rows].
    destruct (i =? 0) eqn:Hz; [apply Z.eqb_eq in Hz; lia|].
    rewrite IH by lia. reflexivity.
Qed.

Lemma format_time_returns (s : string) : exists time, format_time s = Ok time.
Proof.
  unfold format_time, try_except.
  destruct (strptime_iso s); simpl; eexists; reflexivity.
Qed.

(** C9, as amended. [prepare_report_data] returns one row per top-event
    entry, [[date, name, count, peak latency, peak time]]; the two peak
    cells are filled on the first row only, and only when there is a
    peak, and are [""] on every other row. For an empty top-events list
    it returns one placeholder row whose label is the literal
    ["Нет событий"], with count 0 and the same two peak cells; without a
    peak that row is [[date, "Нет событий", 0, "", ""]]. *)
Theorem prepare_report_data_rows (report_date : datetime)
    (top_events : list (string * Z)) (max_latency : option (string * Z)) :
  exists rows peak,
    prepare_report_data report_date top_events max_latency = Ok rows
    /\ peak_cells max_latency peak
    /\ rows
       = match top_events with
         | [] =>
             [[CStr (format_date report_date); CStr "Нет событий"; CInt 0]
                ++ peak]
         | first :: others =>
             ([CStr (format_date report_date);
               CStr (get_event_name (fst first)); CInt (snd first)] ++ peak)
             :: map (blank_row (format_date report_date)) others
         end
    /\ List.length rows = Nat.max 1 (List.length top_events).
Proof.
  unfold prepare_report_data.
  destruct top_events as [|[event_type count] others].
  - destruct max_latency as [[peak_time latency_ms]|].
    + destruct (format_time_returns peak_time) as [time Htime].
      rewrite Htime. cbn [bind].
      eexists. exists [CInt latency_ms; CStr time].
      split; [reflexivity|]. split; [|split; reflexivity].
      exists time. split; [exact Htime|reflexivity].
    + eexists. exists [CStr ""; CStr ""].
      split; [reflexivity|]. split; [reflexivity|split; reflexivity].
  - cbn [event_rows]. change (0 =? 0) with true. cbv iota.
    rewrite (event_rows_blank _ others max_latency (0 + 1)) by lia.
    destruct max_latency as [[peak_time latency_ms]|].
    + destruct (format_time_returns peak_time) as [time Htime].
      rewrite Htime. cbn [bind].
      eexists. exists [CInt latency_ms; CStr time].
      split; [reflexivity|]. split; [|split].
      * exists time. split; [exact Htime|reflexivity].
      * reflexivity.
      * cbn [List.length]. rewrite length_map. lia.
    + cbn [bind]. eexists. exists [CStr ""; CStr ""].
      split; [reflexivity|]. split; [reflexivity|split].
      * reflexivity.
      * cbn [List.length]. rewrite length_map. lia.
Qed.

(** The rows of the specification's example, and one with a type that has
    a name in the table. *)
Example prepare_report_data_two_events :
  prepare_report_data (at_time 2025 11 11 0 0 0) [("A", 116); ("B", 114)]
    (Some ("2025-11-11T18:23:00Z", 72))
  = Ok [[CStr "11.11.2025"; CStr "A"; CInt 116; CInt 72; CStr "18:23"];
        [CStr "11.11.2025"; CStr "B"; CInt 114; CStr ""; CStr ""]].
Proof. reflexivity. Qed.

Example prepare_report_data_named_event :
  prepare_report_data (at_time 2025 1 5 0 0 0) [("incoming_chat_message", 7)]
    None
  = Ok [[CStr "05.01.2025"; CStr "Входящее сообщение"; CInt 7;
         CStr ""; CStr ""]].
Proof. reflexivity. Qed.

(** C9 as stated fails on the label of the placeholder row: it is not
    ["No events"]. *)
Lemma prepare_report_data_placeholder_label :
  prepare_report_data (at_time 2025 11 11 0 0 0) [] None
  = Ok [[CStr "11.11.2025"; CStr "Нет событий"; CInt 0; CStr ""; CStr ""]]
  /\ prepare_report_data (at_time 2025 11 11 0 0 0) [] None
     <> Ok [[CStr "11.11.2025"; CStr "No events"; CInt 0; CStr ""; CStr ""]].
Proof.
  split; [reflexivity|]. vm_compute. discriminate.
Qed.

(* ================================================================= *)
(** * Further properties of the code                                  *)
(* ================================================================= *)

(** ** The latency store: maximum, insertion, listing *)

Section StoreQueries.

Variable date : string -> option string.

Lemma first_by_latency_desc_none (rows : list Row) :
  first_by_latency_desc rows = None <-> rows = [].
Proof.
  destruct rows as [|row rest]; simpl.
  - split; reflexivity.
  - destruct (first_by_latency_desc rest) as [best|];
      [destruct (snd row <? snd best)|]; split; discriminate.
Qed.

Lemma first_by_latency_desc_max (rows : list Row) (best : Row) :
  first_by_latency_desc rows = Some best ->
  In best rows /\ forall row, In row rows -> snd row <= snd best.
Proof.
  revert best. induction rows as [|r rest IH]; intros best; simpl.
  - discriminate.
  - destruct (first_by_latency_desc rest) as [b|] eqn:Hrest.
    + destruct (IH b eq_refl) as [Hin Hmax].
      destruct (snd r <? snd b) eqn:Hlt; intros H; injection H as <-.
      * apply Z.ltb_lt in Hlt. split; [right; exact Hin|].
        intros row [<-|Hrow]; [lia|apply Hmax, Hrow].
      * apply Z.ltb_ge in Hlt. split; [left; reflexivity|].
        intros row [<-|Hrow]; [lia|]. specialize (Hmax row Hrow). lia.
    + apply first_by_latency_desc_none in Hrest. subst rest.
      intros H. injection H as <-. split; [left; reflexivity|].
      intros row [<-|[]]. lia.
Qed.

(** What one more row at the end does to the greatest row. *)
Lemma first_by_latency_desc_snoc (rows : list Row) (r : Row) :
  first_by_latency_desc (rows ++ [r])
  = match first_by_latency_desc rows with
    | Some best => if snd best <? snd r then Some r else Some best
    | None => Some r
    end.
Proof.
  induction rows as [|x rows IH]; simpl; [reflexivity|].
  rewrite IH. destruct (first_by_latency_desc rows) as [best|]; simpl;
    repeat match goal with
           | |- context [?a <? ?b] => destruct (Z.ltb_spec a b); simpl
           end;
    try reflexivity; lia.
Qed.

End StoreQueries.

(** X1. [get_max_latency_for_date] answers [None] exactly when the table has
    no row of that date, and otherwise with a row of the table, of that
    date, whose latency no row of that date exceeds. *)
Theorem get_max_latency_for_date_greatest (date : string -> option string)
    (db : Table) (d : string) :
  match get_max_latency_for_date date db d with
  | None => forall row, In row db -> date (fst row) <> Some d
  | Some best =>
      In best db /\ date (fst best) = Some d
      /\ forall row, In row db -> date (fst row) = Some d -> snd row <= snd best
  end.
Proof.
  unfold get_max_latency_for_date.
  destruct (first_by_latency_desc (filter (on_date date d) db)) as [best|] eqn:H.
  - destruct (first_by_latency_desc_max _ _ H) as [Hin Hmax].
    apply filter_In in Hin. destruct Hin as [Hin Hd].
    split; [exact Hin|]. split; [apply on_date_true, Hd|].
    intros row Hrow Hdate. apply Hmax. apply filter_In.
    split; [exact Hrow|]. apply on_date_true. exact Hdate.
  - apply first_by_latency_desc_none in H.
    intros row Hrow Hdate.
    assert (In row (filter (on_date date d) db)) as Hin.
    { apply filter_In. split; [exact Hrow|]. apply on_date_true. exact Hdate. }
    rewrite H in Hin. exact Hin.
Qed.

(** X2. Saving a sample of a four-digit year adds exactly one row at the end
    of the table; the maximum of its date becomes the greater of the old
    maximum and the new latency, and the answers for every other date stay
    as they were. *)
Theorem save_latency_records_sample (db : Table) (now T : datetime)
    (latency_ms : Z) :
  valid T = true ->
  1000 <= year T ->
  fits_int64 latency_ms = true ->
  let d := strftime_date T in
  exists db',
    save_latency db now latency_ms (Some T) = Ok db'
    /\ db' = db ++ [(strftime_iso T, latency_ms)]
    /\ (exists best,
          get_max_latency_for_date sqlite_date db' d = Some best
          /\ snd best
             = match get_max_latency_for_date sqlite_date db d with
               | Some old => Z.max (snd old) latency_ms
               | None => latency_ms
               end)
    /\ forall d',
         d' <> d ->
         get_max_latency_for_date sqlite_date db' d'
         = get_max_latency_for_date sqlite_date db d'
         /\ get_all_latency_for_date sqlite_date db' d'
            = get_all_latency_for_date sqlite_date db d'.
Proof.
  intros Hv Hy Hfits d. exists (db ++ [(strftime_iso T, latency_ms)]).
  assert (sqlite_date (strftime_iso T) = Some d) as Hdate
    by apply (sqlite_date_strftime T Hv Hy).
  split; [unfold save_latency; rewrite Hfits; reflexivity|].
  split; [reflexivity|]. split.
  - unfold get_max_latency_for_date. rewrite filter_app. cbn [filter].
    rewrite (proj2 (on_date_true sqlite_date d (strftime_iso T, latency_ms)) Hdate).
    rewrite first_by_latency_desc_snoc.
    destruct (first_by_latency_desc (filter (on_date sqlite_date d) db))
      as [old|].
    + destruct (Z.ltb_spec (snd old) (snd (strftime_iso T, latency_ms)));
        eexists; (split; [reflexivity|]); cbn [snd] in *; lia.
    + eexists. split; reflexivity.
  - intros d' Hne.
    assert (filter (on_date sqlite_date d')
              (db ++ [(strftime_iso T, latency_ms)])
            = filter (on_date sqlite_date d') db) as Hsame.
    { rewrite filter_app. cbn [filter].
      assert (on_date sqlite_date d' (strftime_iso T, latency_ms) = false)
        as ->.
      { destruct (on_date sqlite_date d' (strftime_iso T, latency_ms)) eqn:Hon;
          [|reflexivity].
        apply on_date_true in Hon. cbn [fst] in Hon. congruence. }
      apply app_nil_r. }
    unfold get_max_latency_for_date, get_all_latency_for_date.
    rewrite Hsame. split; reflexivity.
Qed.

Lemma save_latency_records_sample_witness :
  exists db',
    save_latency three_days (at_time 2025 1 20 3 0 0) 250
      (Some (at_time 2025 1 15 14 0 0)) = Ok db'
    /\ db' = three_days ++ [("2025-01-15T14:00:00Z", 250)]
    /\ exists best,
         get_max_latency_for_date sqlite_date db' "2025-01-15" = Some best
         /\ snd best = 250.
Proof.
  assert (1000 <= year (at_time 2025 1 15 14 0 0)) as Hy by (simpl; lia).
  destruct (save_latency_records_sample three_days (at_time 2025 1 20 3 0 0)
              (at_time 2025 1 15 14 0 0) 250 eq_refl Hy eq_refl)
    as (db' & Hsave & Hrows & Hbest & _).
  exists db'. split; [exact Hsave|]. split; [exact Hrows|exact Hbest].
Defined.

(** A latency that does not fit 64 bits is refused. *)
Example save_latency_overflow (db : Table) (now : datetime) :
  save_latency db now (2 ^ 63) None = Raise OverflowError.
Proof. reflexivity. Qed.

(** ** Listing the samples of a date *)

Definition by_timestamp (a b : Row) : Prop := String.leb (fst a) (fst b) = true.

Lemma string_leb_trans (a b c : string) :
  String.leb a b = true -> String.leb b c = true -> String.leb a c = true.
Proof.
  unfold String.leb.
  destruct (String.compare a b) eqn:Hab; try discriminate;
    destruct (String.compare b c) eqn:Hbc; try discriminate; intros _ _.
  - apply String.compare_eq_iff in Hab. subst. rewrite Hbc. reflexivity.
  - apply String.compare_eq_iff in Hab. subst. rewrite Hbc. reflexivity.
  - apply String.compare_eq_iff in Hbc. subst. rewrite Hab. reflexivity.
  - apply String_as_OT.cmp_lt in Hab, Hbc.
    pose proof (String_as_OT.lt_trans _ _ _ Hab Hbc) as Hac.
    apply String_as_OT.cmp_lt in Hac. unfold String_as_OT.cmp in Hac.
    rewrite Hac. reflexivity.
Qed.

Lemma string_ltb_leb (a b : string) :
  String.ltb a b = true -> String.leb a b = true.
Proof.
  unfold String.ltb, String.leb. destruct (String.compare a b); congruence.
Qed.

Lemma string_ltb_false (a b : string) :
  String.ltb a b = false -> String.leb b a = true.
Proof.
  unfold String.ltb, String.leb. rewrite (String.compare_antisym a b).
  destruct (String.compare b a); simpl; congruence.
Qed.

Lemma insert_by_timestamp_perm (row : Row) (rows : list Row) :
  Permutation (insert_by_timestamp row rows) (row :: rows).
Proof.
  induction rows as [|r rows IH]; simpl.
  - apply Permutation_refl.
  - destruct (String.ltb (fst r) (fst row)).
    + apply perm_trans with (r :: row :: rows).
      * apply perm_skip. exact IH.
      * apply perm_swap.
    + apply Permutation_refl.
Qed.

Lemma order_by_timestamp_perm (rows : list Row) :
  Permutation (order_by_timestamp rows) rows.
Proof.
  induction rows as [|row rows IH]; simpl.
  - constructor.
  - apply perm_trans with (row :: order_by_timestamp rows).
    + apply insert_by_timestamp_perm.
    + apply perm_skip. exact IH.
Qed.

Lemma insert_by_timestamp_sorted (row : Row) (rows : list Row) :
  StronglySorted by_timestamp rows ->
  StronglySorted by_timestamp (insert_by_timestamp row rows).
Proof.
  induction 1 as [|r rows Hs IH Hall]; simpl.
  - repeat constructor.
  - destruct (String.ltb (fst r) (fst row)) eqn:Hlt.
    + constructor; [exact IH|].
      apply Forall_forall. intros z Hz.
      apply (Permutation_in _ (insert_by_timestamp_perm row rows)) in Hz.
      destruct Hz as [<-|Hz].
      * apply string_ltb_leb. exact Hlt.
      * rewrite Forall_forall in Hall. apply Hall. exact Hz.
    + apply string_ltb_false in Hlt.
      constructor; [constructor; assumption|].
      constructor; [exact Hlt|].
      apply Forall_forall. intros z Hz.
      rewrite Forall_forall in Hall. specialize (Hall z Hz).
      unfold by_timestamp in *. apply (string_leb_trans _ _ _ Hlt Hall).
Qed.

Lemma order_by_timestamp_sorted (rows : list Row) :
  StronglySorted by_timestamp (order_by_timestamp rows).
Proof.
  induction rows as [|row rows IH]; simpl.
  - constructor.
  - apply insert_by_timestamp_sorted. exact IH.
Qed.

(** X3. [get_all_latency_for_date] returns exactly the rows of the date, each
    as often as the table holds it, in ascending order of the timestamp
    text. They are as many as [delete_latency_for_date] would delete, and
    there are none exactly when [get_max_latency_for_date] answers
    [None]. *)
Theorem get_all_latency_for_date_sorted (date : string -> option string)
    (db : Table) (d : string) :
  let result := get_all_latency_for_date date db d in
  Permutation result (filter (on_date date d) db)
  /\ StronglySorted by_timestamp result
  /\ (forall row, In row result <-> In row db /\ date (fst row) = Some d)
  /\ Z.of_nat (List.length result) = fst (delete_latency_for_date date db d)
  /\ (result = [] <-> get_max_latency_for_date date db d = None).
Proof.
  intros result. subst result. unfold get_all_latency_for_date.
  pose proof (order_by_timestamp_perm (filter (on_date date d) db)) as Hp.
  split; [exact Hp|]. split; [apply order_by_timestamp_sorted|].
  split; [|split].
  - intros row. rewrite <- (on_date_true date d row), <- filter_In.
    split; intros H.
    + apply (Permutation_in _ Hp H).
    + apply (Permutation_in _ (Permutation_sym Hp) H).
  - cbn [delete_latency_for_date fst].
    rewrite (Permutation_length Hp). reflexivity.
  - unfold get_max_latency_for_date. rewrite first_by_latency_desc_none.
    split; intros H.
    + rewrite H in Hp. apply Permutation_nil. exact Hp.
    + rewrite H. reflexivity.
Qed.

(** X4. After [delete_latency_for_date(d)] nothing of date [d] is left: the
    maximum is [None], the listing is empty, and deleting again returns 0
    and leaves the table as it is. *)
Theorem delete_latency_for_date_clears (date : string -> option string)
    (db : Table) (d : string) :
  let db' := snd (delete_latency_for_date date db d) in
  get_max_latency_for_date date db' d = None
  /\ get_all_latency_for_date date db' d = []
  /\ delete_latency_for_date date db' d = (0, db').
Proof.
  cbn [delete_latency_for_date snd].
  unfold get_max_latency_for_date, get_all_latency_for_date,
    delete_latency_for_date.
  rewrite (rows_of_deleted_date date db d).
  split; [reflexivity|]. split; [reflexivity|].
  f_equal.
  induction db as [|row db IH]; simpl; [reflexivity|].
  destruct (on_date date d row) eqn:Hd; simpl; [exact IH|].
  rewrite Hd. simpl. f_equal. exact IH.
Qed.

(** *** The text order of timestamps is the order of time *)

(** Comparing field by field, the earlier field deciding. *)
Definition lex (c1 c2 : comparison) : comparison :=
  match c1 with
  | Eq => c2
  | _ => c1
  end.

Definition chrono (a b : datetime) : comparison :=
  lex (year a ?= year b)
    (lex (month a ?= month b)
       (lex (day a ?= day b)
          (lex (hour a ?= hour b)
             (lex (minute a ?= minute b) (second a ?= second b))))).

Lemma ascii_compare_digit (a b : Z) :
  0 <= a <= 9 -> 0 <= b <= 9 -> Ascii.compare (digit a) (digit b) = (a ?= b).
Proof.
  intros Ha Hb.
  rewrite <- (Z2Nat.id a), <- (Z2Nat.id b) by lia.
  assert (Z.to_nat a <= 9)%nat as Hm by lia.
  assert (Z.to_nat b <= 9)%nat as Hn by lia.
  revert Hm Hn. generalize (Z.to_nat a) as m, (Z.to_nat b) as n.
  intros m n Hm Hn.
  do 10 (destruct m as [|m];
         [do 10 (destruct n as [|n]; [reflexivity|]); lia|]).
  lia.
Qed.

Lemma compare_two_chars (n m : Z) (r1 r2 : string) :
  0 <= n <= 99 -> 0 <= m <= 99 ->
  String.compare (two_chars n r1) (two_chars m r2)
  = lex (n ?= m) (String.compare r1 r2).
Proof.
  intros Hn Hm. unfold two_chars. cbn [String.compare].
  rewrite !ascii_compare_digit by (Z.div_mod_to_equations; lia).
  destruct (Z.compare_spec (n / 10) (m / 10)) as [Hq|Hq|Hq];
    destruct (Z.compare_spec (n mod 10) (m mod 10)) as [Hr|Hr|Hr];
    destruct (Z.compare_spec n m) as [Hc|Hc|Hc];
    try reflexivity; exfalso; Z.div_mod_to_equations; lia.
Qed.

Lemma four_chars_two (y : Z) (rest : string) :
  four_chars y rest = two_chars (y / 100) (two_chars (y mod 100) rest).
Proof.
  unfold four_chars, two_chars.
  replace (y / 100 / 10) with (y / 1000) by (Z.div_mod_to_equations; lia).
  replace (y mod 100 / 10) with (y / 10 mod 10)
    by (Z.div_mod_to_equations; lia).
  replace (y mod 100 mod 10) with (y mod 10) by (Z.div_mod_to_equations; lia).
  reflexivity.
Qed.

Lemma compare_four_chars (y z : Z) (r1 r2 : string) :
  0 <= y <= 9999 -> 0 <= z <= 9999 ->
  String.compare (four_chars y r1) (four_chars z r2)
  = lex (y ?= z) (String.compare r1 r2).
Proof.
  intros Hy Hz. rewrite !four_chars_two.
  rewrite !compare_two_chars by (Z.div_mod_to_equations; lia).
  destruct (Z.compare_spec (y / 100) (z / 100)) as [Hq|Hq|Hq];
    destruct (Z.compare_spec (y mod 100) (z mod 100)) as [Hr|Hr|Hr];
    destruct (Z.compare_spec y z) as [Hc|Hc|Hc];
    try reflexivity; exfalso; Z.div_mod_to_equations; lia.
Qed.

Lemma compare_same_char (c : ascii) (r1 r2 : string) :
  String.compare (String c r1) (String c r2) = String.compare r1 r2.
Proof.
  cbn [String.compare].
  assert (Ascii.compare c c = Eq) as ->; [|reflexivity].
  pose proof (Ascii.compare_antisym c c) as H.
  destruct (Ascii.compare c c); simpl in H; congruence.
Qed.

(** Two formatted timestamps of four-digit years compare as text the way
    their times compare. *)
Lemma compare_strftime_iso (a b : datetime) :
  valid a = true -> valid b = true -> 1000 <= year a -> 1000 <= year b ->
  String.compare (strftime_iso a) (strftime_iso b) = chrono a b.
Proof.
  intros Ha Hb Ya Yb.
  destruct (valid_bounds a Ha) as (? & ? & ? & ? & ? & ?).
  destruct (valid_bounds b Hb) as (? & ? & ? & ? & ? & ?).
  rewrite (strftime_iso_chars a Ya), (strftime_iso_chars b Yb).
  unfold iso_text, chrono.
  rewrite compare_four_chars by lia. f_equal. rewrite compare_same_char.
  rewrite compare_two_chars by lia. f_equal. rewrite compare_same_char.
  rewrite compare_two_chars by lia. f_equal. rewrite compare_same_char.
  rewrite compare_two_chars by lia. f_equal. rewrite compare_same_char.
  rewrite compare_two_chars by lia. f_equal. rewrite compare_same_char.
  rewrite compare_two_chars by lia.
  destruct (second a ?= second b); reflexivity.
Qed.

Lemma chrono_eq (a b : datetime) : chrono a b = Eq -> a = b.
Proof.
  unfold chrono, lex. destruct a, b. cbn [year month day hour minute second].
  repeat match goal with
         | |- context [?x ?= ?y] => destruct (Z.compare_spec x y)
         end; try discriminate.
  intros _. subst. reflexivity.
Qed.

Lemma strongly_sorted_weaken {A : Type} (R S : A -> A -> Prop) (l : list A) :
  (forall a b, R a b -> S a b) -> StronglySorted R l -> StronglySorted S l.
Proof.
  intros HRS. induction 1 as [|x l Hs IH Hall]; constructor.
  - exact IH.
  - apply Forall_forall. intros y Hy.
    rewrite Forall_forall in Hall. apply HRS, Hall, Hy.
Qed.

(** A time that [save_latency] writes with a four-digit year: a valid
    time from year 1000 on. *)
Definition written (T : datetime) : Prop := valid T = true /\ 1000 <= year T.

(** A row does not come after another one in time, whenever both hold
    timestamps as [save_latency] formats them. *)
Definition not_after (r1 r2 : Row) : Prop :=
  forall T1 T2,
    written T1 -> written T2 ->
    fst r1 = strftime_iso T1 -> fst r2 = strftime_iso T2 ->
    chrono T1 T2 <> Gt.

(** X5. The listing of a date is in the order of time: of two rows written by
    [save_latency], the one listed first is not the later one; and two
    formatted timestamps are the same text only for the same time. *)
Theorem get_all_latency_for_date_chronological
    (date : string -> option string) (db : Table) (d : string) :
  StronglySorted not_after (get_all_latency_for_date date db d)
  /\ forall T1 T2,
       written T1 -> written T2 ->
       (String.ltb (strftime_iso T1) (strftime_iso T2) = true
        <-> chrono T1 T2 = Lt)
       /\ (strftime_iso T1 = strftime_iso T2 -> T1 = T2).
Proof.
  split.
  - apply (strongly_sorted_weaken by_timestamp).
    + intros r1 r2 Hle T1 T2 [H1 Y1] [H2 Y2] E1 E2.
      unfold by_timestamp, String.leb in Hle. rewrite E1, E2 in Hle.
      rewrite (compare_strftime_iso T1 T2 H1 H2 Y1 Y2) in Hle.
      intros Hgt. rewrite Hgt in Hle. discriminate.
    + apply order_by_timestamp_sorted.
  - intros T1 T2 [H1 Y1] [H2 Y2]. split.
    + unfold String.ltb. rewrite (compare_strftime_iso T1 T2 H1 H2 Y1 Y2).
      destruct (chrono T1 T2); split; congruence.
    + intros E. apply chrono_eq.
      rewrite <- (compare_strftime_iso T1 T2 H1 H2 Y1 Y2), E.
      pose proof (String.compare_antisym (strftime_iso T2) (strftime_iso T2))
        as Hrefl.
      destruct (String.compare (strftime_iso T2) (strftime_iso T2));
        simpl in Hrefl; congruence.
Qed.

Lemma get_all_latency_for_date_chronological_witness :
  get_all_latency_for_date sqlite_date
    [("2025-01-15T12:00:00Z", 200); ("2025-01-14T10:00:00Z", 100);
     ("2025-01-15T11:00:00Z", 150)] "2025-01-15"
  = [("2025-01-15T11:00:00Z", 150); ("2025-01-15T12:00:00Z", 200)]
  /\ (String.ltb "2025-01-15T11:00:00Z" "2025-01-15T12:00:00Z" = true
      <-> chrono (at_time 2025 1 15 11 0 0) (at_time 2025 1 15 12 0 0) = Lt).
Proof.
  split; [reflexivity|].
  apply (proj2 (get_all_latency_for_date_chronological sqlite_date [] "")
           (at_time 2025 1 15 11 0 0) (at_time 2025 1 15 12 0 0)).
  - split; [reflexivity|simpl; lia].
  - split; [reflexivity|simpl; lia].
Defined.

(** ** Counting: the keys of the result *)

(** The distinct values of a list in the order of their first occurrence,
    given the values [seen] before. *)
Fixpoint distinct_in_order (seen types : list Value) : list Value :=
  match types with
  | [] => []
  | t :: rest =>
      if existsb (fun k => key_eqb k t) seen then distinct_in_order seen rest
      else t :: distinct_in_order (seen ++ [t]) rest
  end.

(** Every key is hashable and equal to no later key. *)
Fixpoint keys_ok (counts : Counts) : Prop :=
  match counts with
  | [] => True
  | (k, _) :: rest =>
      hashable k = true
      /\ (forall k' c', In (k', c') rest -> key_eqb k k' = false)
      /\ keys_ok rest
  end.

Lemma key_eqb_refl (k : Value) : hashable k = true -> key_eqb k k = true.
Proof.
  destruct k as [|b|n|s| |]; simpl; try discriminate; intros _.
  - reflexivity.
  - destruct b; reflexivity.
  - apply Z.eqb_refl.
  - apply String.eqb_refl.
Qed.

Lemma counter_add_keys (counts : Counts) (x : Value) :
  map fst (counter_add counts x)
  = if existsb (fun k => key_eqb k x) (map fst counts)
    then map fst counts
    else map fst counts ++ [x].
Proof.
  induction counts as [|[k c] rest IH]; simpl; [reflexivity|].
  destruct (key_eqb k x); simpl; [reflexivity|].
  rewrite IH. destruct (existsb _ (map fst rest)); reflexivity.
Qed.

Lemma counter_add_in (counts : Counts) (x k : Value) (c : Z) :
  In (k, c) (counter_add counts x) ->
  k = x \/ exists c', In (k, c') counts.
Proof.
  induction counts as [|[k0 c0] rest IH]; simpl.
  - intros [H|[]]. injection H as <- _. left. reflexivity.
  - destruct (key_eqb k0 x); simpl.
    + intros [H|H].
      * injection H as <- _. right. exists c0. left. reflexivity.
      * right. exists c. right. exact H.
    + intros [H|H].
      * injection H as <- <-. right. exists c0. left. reflexivity.
      * destruct (IH H) as [->|[c' Hc']]; [left; reflexivity|].
        right. exists c'. right. exact Hc'.
Qed.

Lemma counter_add_keys_ok (counts : Counts) (x : Value) :
  hashable x = true -> keys_ok counts -> keys_ok (counter_add counts x).
Proof.
  intros Hx. induction counts as [|[k c] rest IH]; simpl.
  - intros _. split; [exact Hx|]. split; [intros k' c' []|exact I].
  - intros (Hk & Hdistinct & Hrest).
    destruct (key_eqb k x) eqn:Hkx; simpl.
    + split; [exact Hk|]. split; assumption.
    + split; [exact Hk|]. split; [|apply IH, Hrest].
      intros k' c' Hin.
      destruct (counter_add_in rest x k' c' Hin) as [->|[c'' Hc'']].
      * exact Hkx.
      * apply (Hdistinct k' c'' Hc'').
Qed.

Lemma counter_update_keys_ok (types : list Value) :
  forall counts counts',
    keys_ok counts ->
    counter_update counts types = Ok counts' ->
    keys_ok counts'
    /\ map fst counts'
       = map fst counts ++ distinct_in_order (map fst counts) types.
Proof.
  induction types as [|t types IH]; intros counts counts' Hok Hrun.
  - simpl in Hrun. injection Hrun as <-. split; [exact Hok|].
    simpl. symmetry. apply app_nil_r.
  - cbn [counter_update] in Hrun.
    destruct (hashable t) eqn:Ht; [|discriminate].
    destruct (IH _ _ (counter_add_keys_ok counts t Ht Hok) Hrun)
      as [Hok' Hkeys].
    split; [exact Hok'|].
    rewrite Hkeys, counter_add_keys. cbn [distinct_in_order].
    destruct (existsb (fun k => key_eqb k t) (map fst counts)).
    + reflexivity.
    + rewrite <- app_assoc. reflexivity.
Qed.

(** With distinct keys, a lookup finds the entry itself. *)
Lemma keys_ok_count_of (counts : Counts) (k : Value) (c : Z) :
  keys_ok counts -> In (k, c) counts -> count_of counts k = c.
Proof.
  induction counts as [|[k0 c0] rest IH]; simpl; [intros _ []|].
  intros (Hk0 & Hdistinct & Hrest) [H|H].
  - injection H as -> ->. rewrite (key_eqb_refl k Hk0). reflexivity.
  - rewrite (Hdistinct k c H). apply IH; assumption.
Qed.

Lemma keys_ok_hashable (counts : Counts) (k : Value) (c : Z) :
  keys_ok counts -> In (k, c) counts -> hashable k = true.
Proof.
  induction counts as [|[k0 c0] rest IH]; simpl; [intros _ []|].
  intros (Hk0 & _ & Hrest) [H|H].
  - injection H as <- _. exact Hk0.
  - apply IH; assumption.
Qed.

Lemma distinct_in_order_in (types seen : list Value) (t : Value) :
  In t (distinct_in_order seen types) -> In t types.
Proof.
  revert seen. induction types as [|x types IH]; intros seen; simpl.
  - intros [].
  - destruct (existsb _ seen).
    + intros H. right. apply (IH seen H).
    + intros [H|H]; [left; exact H|right; apply (IH _ H)].
Qed.

(** An entry of the result: a lookup of its key finds it, and its count is
    the number of events of that type, at least one. *)
Lemma count_entry (E : list Event) (counts : Counts) (key : Value) (count : Z) :
  count_event_types E = Ok counts ->
  In (key, count) counts ->
  count_of counts key = count
  /\ 1 <= count
  /\ count
     = Z.of_nat (List.length
                   (filter (fun e => key_eqb (event_type e) key) E)).
Proof.
  intros Hrun Hin. unfold count_event_types in Hrun.
  destruct (counter_update_keys_ok _ [] counts I Hrun) as [Hok Hkeys].
  pose proof (keys_ok_count_of counts key count Hok Hin) as Hlookup.
  destruct (counter_update_ok (map event_type E) []
              (counter_update_returns _ _ _ Hrun))
    as (counts' & Hr & _ & Hcount).
  rewrite Hrun in Hr. injection Hr as <-.
  specialize (Hcount key). rewrite Hlookup, occurrences_map in Hcount.
  simpl in Hcount.
  split; [exact Hlookup|]. split; [|lia].
  assert (In key (map event_type E)) as Hkey.
  { apply (distinct_in_order_in _ []). simpl in Hkeys. rewrite <- Hkeys.
    apply (in_map fst _ _ Hin). }
  apply in_map_iff in Hkey. destruct Hkey as (e & He & HeE).
  assert (In e (filter (fun e => key_eqb (event_type e) key) E)) as Hfe.
  { apply filter_In. split; [exact HeE|]. rewrite He.
    apply key_eqb_refl. apply (keys_ok_hashable counts key count Hok Hin). }
  destruct (filter (fun e => key_eqb (event_type e) key) E);
    [contradiction|]. simpl List.length in Hcount. lia.
Qed.

(** X6. The result of [count_event_types] is a dict as Python builds it: its
    keys are the types of the events in the order of their first
    occurrence, no two of them equal; looking a key up finds its own
    entry; and every count is at least 1 and is the number of events of
    that type. *)
Theorem count_event_types_keys (E : list Event) (counts : Counts) :
  count_event_types E = Ok counts ->
  map fst counts = distinct_in_order [] (map event_type E)
  /\ keys_ok counts
  /\ forall key count,
       In (key, count) counts ->
       count_of counts key = count
       /\ 1 <= count
       /\ count
          = Z.of_nat (List.length
                        (filter (fun e => key_eqb (event_type e) key) E)).
Proof.
  intros Hrun.
  destruct (counter_update_keys_ok (map event_type E) [] counts I Hrun)
    as [Hok Hkeys].
  split; [exact Hkeys|]. split; [exact Hok|].
  intros key count Hin. apply (count_entry E counts key count Hrun Hin).
Qed.

Lemma count_event_types_keys_witness :
  map fst [(VStr "lead_added", 2); (VStr "unknown", 1); (VNone, 1)]
  = distinct_in_order [] (map event_type sample_events)
  /\ keys_ok [(VStr "lead_added", 2); (VStr "unknown", 1); (VNone, 1)].
Proof.
  destruct (count_event_types_keys sample_events
              [(VStr "lead_added", 2); (VStr "unknown", 1); (VNone, 1)]
              eq_refl) as (Hkeys & Hok & _).
  split; [exact Hkeys|exact Hok].
Defined.

(** [True] and [1] are one key, kept as it was first seen. *)
Example count_event_types_bool_and_int :
  count_event_types [[("type", VBool true)]; [("type", VInt 1)];
                     [("type", VInt 0)]; [("type", VBool false)]]
  = Ok [(VBool true, 2); (VInt 0, 2)].
Proof. reflexivity. Qed.

(** ** Ranking: ties, and the whole of [process_events] *)

Definition has_count (c : Z) (kc : Value * Z) : bool := snd kc =? c.

Lemma insert_desc_ties (c : Z) (x : Value * Z) (l : Counts) :
  filter (has_count c) (insert_desc x l)
  = if has_count c x then x :: filter (has_count c) l
    else filter (has_count c) l.
Proof.
  unfold has_count.
  induction l as [|y l IH]; simpl; [reflexivity|].
  destruct (Z.ltb_spec (snd x) (snd y)) as [Hlt|Hge]; simpl.
  - rewrite IH.
    destruct (Z.eqb_spec (snd x) c), (Z.eqb_spec (snd y) c);
      try reflexivity; lia.
  - reflexivity.
Qed.

Lemma sorted_by_count_desc_ties (c : Z) (l : Counts) :
  filter (has_count c) (sorted_by_count_desc l) = filter (has_count c) l.
Proof.
  induction l as [|x l IH]; simpl; [reflexivity|].
  rewrite insert_desc_ties, IH. reflexivity.
Qed.

Lemma slice_to_firstn {A : Type} (l : list A) (k : Z) :
  exists n, slice_to l k = firstn n l.
Proof.
  unfold slice_to. destruct (k <? 0); eexists; reflexivity.
Qed.

(** X7. Types with the same count keep the order they have in [type_counts]
    (the order in which the types were first seen), whatever the limit:
    the entries of one count in the result are the first ones of that
    count in [type_counts]. Without truncation all of them are there. *)
Theorem get_top_events_ties_in_dict_order (self : EventsProcessor.t)
    (counts : Counts) (limit : option Z) (c : Z) :
  (exists cut,
      filter (has_count c) (get_top_events self counts limit) ++ cut
      = filter (has_count c) counts)
  /\ forall k,
       Z.of_nat (List.length counts) <= k ->
       filter (has_count c) (get_top_events self counts (Some k))
       = filter (has_count c) counts.
Proof.
  split.
  - unfold get_top_events.
    destruct (slice_to_firstn (sorted_by_count_desc counts)
                (int_or limit (top_limit self))) as [n ->].
    exists (filter (has_count c) (skipn n (sorted_by_count_desc counts))).
    rewrite <- filter_app, firstn_skipn. apply sorted_by_count_desc_ties.
  - intros k Hk. unfold get_top_events.
    destruct counts as [|kc counts].
    { destruct (slice_to_firstn (sorted_by_count_desc [])
                  (int_or (Some k) (top_limit self))) as [n ->].
      simpl. rewrite firstn_nil. reflexivity. }
    assert (0 < k) as Hpos by (simpl List.length in Hk; lia).
    simpl int_or. destruct (Z.eqb_spec k 0); [lia|].
    rewrite slice_to_nonneg by lia.
    rewrite firstn_all2.
    + apply sorted_by_count_desc_ties.
    + rewrite (Permutation_length (sorted_by_count_desc_perm _)). lia.
Qed.

Lemma get_top_events_ties_in_dict_order_witness :
  filter (has_count 3)
    (get_top_events (init None 5)
       [(VStr "a", 1); (VStr "b", 3); (VStr "c", 3); (VStr "d", 2)] (Some 4))
  = [(VStr "b", 3); (VStr "c", 3)].
Proof.
  apply (proj2 (get_top_events_ties_in_dict_order (init None 5)
                  [(VStr "a", 1); (VStr "b", 3); (VStr "c", 3); (VStr "d", 2)]
                  (Some 4) 3) 4).
  simpl. lia.
Defined.

Lemma firstn_sorted (counts : Counts) (n : nat) :
  StronglySorted by_count_desc (firstn n (sorted_by_count_desc counts))
  /\ forall kc,
       In kc (firstn n (sorted_by_count_desc counts)) -> In kc counts.
Proof.
  pose proof (sorted_by_count_desc_sorted counts) as Hs.
  rewrite <- (firstn_skipn n (sorted_by_count_desc counts)) in Hs.
  apply strongly_sorted_app in Hs. split; [apply Hs|].
  intros kc Hin.
  apply (Permutation_in _ (sorted_by_count_desc_perm counts)).
  rewrite <- (firstn_skipn n (sorted_by_count_desc counts)).
  apply in_or_app. left. exact Hin.
Qed.

(** The keys of a dict stay distinct when its items are sorted and cut. *)
Lemma insert_desc_keys_ok (x : Value * Z) (l : Counts) :
  keys_ok (x :: l) -> keys_ok (insert_desc x l).
Proof.
  destruct x as [k c].
  induction l as [|[k0 c0] rest IH]; [intros H; exact H|].
  intros (Hk & Hdistinct & Hk0 & Hdistinct0 & Hrest).
  cbn [insert_desc snd]. destruct (c <? c0).
  - split; [exact Hk0|]. split.
    + intros k' c' Hin.
      apply (Permutation_in _ (insert_desc_perm (k, c) rest)) in Hin.
      destruct Hin as [Heq|Hin].
      * injection Heq as <- <-. rewrite key_eqb_sym.
        apply (Hdistinct k0 c0). left. reflexivity.
      * apply (Hdistinct0 k' c' Hin).
    + apply IH. split; [exact Hk|]. split; [|exact Hrest].
      intros k' c' Hin. apply (Hdistinct k' c'). right. exact Hin.
  - split; [exact Hk|]. split; [exact Hdistinct|].
    split; [exact Hk0|]. split; assumption.
Qed.

Lemma sorted_by_count_desc_keys_ok (l : Counts) :
  keys_ok l -> keys_ok (sorted_by_count_desc l).
Proof.
  induction l as [|[k c] rest IH]; [intros H; exact H|].
  intros (Hk & Hdistinct & Hrest). cbn [sorted_by_count_desc fold_right].
  apply insert_desc_keys_ok. split; [exact Hk|]. split; [|apply IH, Hrest].
  intros k' c' Hin. apply (Hdistinct k' c').
  apply (Permutation_in _ (sorted_by_count_desc_perm rest)). exact Hin.
Qed.

Lemma in_firstn {A : Type} (n : nat) (l : list A) (x : A) :
  In x (firstn n l) -> In x l.
Proof.
  intros Hin. rewrite <- (firstn_skipn n l). apply in_or_app. left. exact Hin.
Qed.

Lemma firstn_keys_ok (n : nat) (l : Counts) :
  keys_ok l -> keys_ok (firstn n l).
Proof.
  revert l. induction n as [|n IH]; intros l; [intros _; exact I|].
  destruct l as [|[k c] rest]; [intros H; exact H|].
  intros (Hk & Hdistinct & Hrest). cbn [firstn].
  split; [exact Hk|]. split; [|apply IH, Hrest].
  intros k' c' Hin. apply (Hdistinct k' c'). apply (in_firstn n rest _ Hin).
Qed.

(** A key that has a count has an entry. *)
Lemma count_of_entry (counts : Counts) (key : Value) :
  count_of counts key <> 0 ->
  exists k c,
    In (k, c) counts /\ key_eqb k key = true /\ c = count_of counts key.
Proof.
  induction counts as [|[k0 c0] rest IH]; simpl; [intros H; contradiction|].
  destruct (key_eqb k0 key) eqn:Hk0.
  - intros _. exists k0, c0. split; [left; reflexivity|]. split; [exact Hk0|].
    reflexivity.
  - intros H. destruct (IH H) as (k & c & Hin & Hk & Hc).
    exists k, c. split; [right; exact Hin|]. split; assumption.
Qed.

(** The number of events of a type, and whether a ranking has the type. *)
Definition events_of_type (key : Value) (E : list Event) : Z :=
  Z.of_nat (List.length (filter (fun e => key_eqb (event_type e) key) E)).

Definition ranked (top : Counts) (key : Value) : bool :=
  existsb (fun kc => key_eqb (fst kc) key) top.

(** X8. [process_events] ranks the types of the automated events only, and
    returns the most frequent of them. The result holds distinct types of
    events kept by the filter, each as it was first seen and with the
    number of automated events of that type (at least one), ordered by
    count descending; a type of an automated event that is left out has
    no more events than any type returned. With a [top_limit] that is not
    negative the result has [min(top_limit, number of distinct types)]
    entries, so with a positive one it is empty only when no event is
    automated. Only the types of the automated events need to be
    hashable. *)
Theorem process_events_ranks_automated (self : EventsProcessor.t)
    (events : list Event) (user_ids : list Z) :
  let automated := filter (is_automated user_ids) events in
  let types := distinct_in_order [] (map event_type automated) in
  Forall (fun e => hashable (event_type e) = true) automated ->
  exists top,
    process_events self events user_ids = Ok top
    /\ (automated = [] -> top = [])
    /\ StronglySorted by_count_desc top
    /\ keys_ok top
    /\ (forall key count,
          In (key, count) top ->
          In key types
          /\ 1 <= count
          /\ count = events_of_type key automated)
    /\ (forall e,
          In e automated ->
          ranked top (event_type e) = true
          \/ forall kc,
               In kc top ->
               events_of_type (event_type e) automated <= snd kc)
    /\ (0 <= top_limit self ->
        Z.of_nat (List.length top)
        = Z.min (top_limit self) (Z.of_nat (List.length types)))
    /\ (1 <= top_limit self -> top = [] -> automated = []).
Proof.
  intros automated types Hh. subst types. unfold process_events.
  assert (filter_automated_events events user_ids = automated) as ->
    by (unfold filter_automated_events; apply filter_loop_app).
  destruct automated as [|e rest] eqn:Hauto.
  - exists []. split; [reflexivity|]. split; [reflexivity|].
    split; [constructor|]. split; [exact I|].
    split; [intros key count []|]. split; [intros e []|].
    split; [intros Hlimit; simpl; lia|reflexivity].
  - cbv beta iota.
    assert (List.length (e :: rest) = S (List.length rest)) as Hlen
      by reflexivity.
    revert Hh Hlen. generalize (e :: rest) as auto. intros auto Hh Hlen.
    destruct (counter_update_ok (map event_type auto) [])
      as (counts & Hrun & Hsum & Hcount); [apply Forall_map; exact Hh|].
    destruct (counter_update_keys_ok _ [] counts I Hrun) as [Hok Hkeys].
    cbn [map app] in Hkeys.
    fold (count_event_types auto) in Hrun.
    rewrite Hrun. cbn [bind].
    assert (counts <> []) as Hne.
    { intros ->. rewrite length_map, Hlen in Hsum. simpl in Hsum. lia. }
    remember (get_top_events self counts None) as top eqn:Htop.
    symmetry in Htop.
    exists top. split; [destruct counts; [contradiction|reflexivity]|].
    split; [intros Hnil; rewrite Hnil in Hlen; discriminate|].
    unfold get_top_events in Htop. simpl int_or in Htop.
    destruct (slice_to_firstn (sorted_by_count_desc counts) (top_limit self))
      as [n Hn].
    assert (top = firstn n (sorted_by_count_desc counts)) as Hfirst
      by (rewrite <- Htop; exact Hn).
    destruct (top_prefix counts n) as (_ & Hsorted & left_out & Hperm & Hcross).
    rewrite <- Hfirst in Hsorted, Hperm, Hcross.
    split; [exact Hsorted|].
    split.
    { rewrite Hfirst. apply firstn_keys_ok, sorted_by_count_desc_keys_ok, Hok. }
    split.
    { intros key count Hin.
      assert (In (key, count) counts) as Hin'.
      { apply (Permutation_in _ Hperm). apply in_or_app. left. exact Hin. }
      destruct (count_entry auto counts key count Hrun Hin')
        as (_ & Hpos & Hnum).
      split; [|split; [exact Hpos|exact Hnum]].
      rewrite <- Hkeys. apply (in_map fst counts (key, count) Hin'). }
    split.
    { intros e' He'.
      assert (count_of counts (event_type e')
              = events_of_type (event_type e') auto) as Hnum.
      { rewrite Hcount, occurrences_map. reflexivity. }
      assert (1 <= events_of_type (event_type e') auto) as Hpos.
      { unfold events_of_type.
        assert (In e' (filter (fun x => key_eqb (event_type x) (event_type e'))
                         auto)) as Hfe.
        { apply filter_In. split; [exact He'|]. apply key_eqb_refl.
          rewrite Forall_forall in Hh. apply (Hh e' He'). }
        destruct (filter (fun x => key_eqb (event_type x) (event_type e')) auto);
          [contradiction|]. simpl List.length. lia. }
      destruct (count_of_entry counts (event_type e'))
        as (k & c & Hin & Hk & Hc); [lia|].
      apply (Permutation_in _ (Permutation_sym Hperm)) in Hin.
      apply in_app_or in Hin. destruct Hin as [Hin|Hin].
      - left. unfold ranked. apply existsb_exists.
        exists (k, c). split; [exact Hin|exact Hk].
      - right. intros kc Hkc. specialize (Hcross kc (k, c) Hkc Hin).
        cbn [snd] in Hcross. lia. }
    assert (0 <= top_limit self ->
            List.length top
            = Nat.min (Z.to_nat (top_limit self)) (List.length counts)) as Hsize.
    { intros Hlimit. rewrite <- Htop, slice_to_nonneg by lia.
      rewrite length_firstn, (Permutation_length (sorted_by_count_desc_perm _)).
      reflexivity. }
    assert (List.length counts
            = List.length (distinct_in_order [] (map event_type auto))) as Hsame
      by (rewrite <- Hkeys; symmetry; apply length_map).
    assert (List.length counts <> 0)%nat as Hsome
      by (destruct counts; [contradiction|discriminate]).
    split.
    { intros Hlimit. rewrite (Hsize Hlimit), <- Hsame. lia. }
    intros Hlimit Hnil. assert (0 <= top_limit self) as Hnonneg by lia.
    specialize (Hsize Hnonneg). rewrite Hnil in Hsize. simpl in Hsize. lia.
Qed.

Definition mixed_events : list Event :=
  [[("type", VStr "lead_added"); ("created_by", VInt 0)];
   [("type", VList []); ("created_by", VInt 7)];
   [("type", VStr "task_added")];
   [("type", VStr "lead_added"); ("created_by", VNone)];
   [("type", VStr "note"); ("created_by", VInt 7)]].

Lemma process_events_ranks_automated_witness :
  exists top,
    process_events (init (Some 1) 5) mixed_events [7; 8] = Ok top
    /\ top = [(VStr "lead_added", 2)]
    /\ Z.of_nat (List.length top) = Z.min 1 2
    /\ ranked top (VStr "task_added") = false.
Proof.
  destruct (process_events_ranks_automated (init (Some 1) 5) mixed_events
              [7; 8])
    as (top & Hrun & _ & _ & _ & _ & _ & Hsize & _).
  - repeat constructor.
  - assert (0 <= top_limit (init (Some 1) 5)) as Hlimit by (simpl; lia).
    pose proof (Hsize Hlimit) as Hlen.
    assert (Ok top = Ok [(VStr "lead_added", 2)]) as Heq
      by (rewrite <- Hrun; reflexivity).
    injection Heq as Htop.
    exists top. split; [exact Hrun|]. split; [exact Htop|].
    split; [exact Hlen|]. rewrite Htop. reflexivity.
Defined.

(** ** The retried GET: what is not retried, what is returned, the pauses *)

Section GetOutcomes.

Variable self : HttpClient.t.
Variable env : Env.
Variable endpoint : string.
Variable query : option (list (string * Value)).

(** The loop, written out: at most three executions of the body, a pause
    of [wait_exponential] after the first and after the second. *)
Lemma get_three_bodies (s : Session) :
  get self env endpoint query s
  = match get_body self env endpoint query s with
    | (Ok data, s1) => Some (Ok data, s1)
    | (Raise e1, s1) =>
        if negb (retry_if_exception_type e1) then Some (Raise e1, s1)
        else
          match get_body self env endpoint query
                  (sleep (wait_exponential 1) s1) with
          | (Ok data, s2) => Some (Ok data, s2)
          | (Raise e2, s2) =>
              if negb (retry_if_exception_type e2) then Some (Raise e2, s2)
              else
                match get_body self env endpoint query
                        (sleep (wait_exponential 2) s2) with
                | (Ok data, s3) => Some (Ok data, s3)
                | (Raise e3, s3) => Some (Raise e3, s3)
                end
          end
    end.
Proof.
  unfold get. cbn [retrying].
  destruct (get_body self env endpoint query s) as [[data|e1] s1];
    [reflexivity|].
  destruct (negb (retry_if_exception_type e1)); [reflexivity|].
  change (stop_after_attempt 1) with false. cbv iota.
  destruct (get_body self env endpoint query _) as [[data|e2] s2];
    [reflexivity|].
  destruct (negb (retry_if_exception_type e2)); [reflexivity|].
  change (stop_after_attempt (1 + 1)) with false. cbv iota.
  change (1 + 1) with 2.
  destruct (get_body self env endpoint query _) as [[data|e3] s3];
    [reflexivity|].
  destruct (negb (retry_if_exception_type e3)); reflexivity.
Qed.

(** A body that returns did send a request, and got a 2xx response whose
    JSON is the object returned. *)
Lemma handle_response_ok (response : Response) (data : Value) :
  handle_response response = Ok data ->
  is_success response = true
  /\ json_body response = Some data
  /\ exists fields, data = VDict fields.
Proof.
  unfold handle_response, raise_for_status, json.
  destruct (is_success response); [|destruct (temporary_status _); discriminate].
  assert (forall r : Result Value,
             (_ <- (if temporary_status (status_code response)
                    then Ok tt else Ok tt) ;; _ <- Ok tt ;; r) = r) as Hskip
    by (intros r; destruct (temporary_status _); reflexivity).
  rewrite Hskip. clear Hskip.
  destruct (json_body response) as [body|]; [|discriminate].
  cbn [bind]. destruct body; cbn [value_get bind]; try discriminate.
  destruct (len _); cbn [bind]; [|discriminate].
  intros H. injection H as <-.
  split; [reflexivity|]. split; [reflexivity|]. eexists. reflexivity.
Qed.

Lemma get_body_ok (s s1 : Session) (data : Value) :
  get_body self env endpoint query s = (Ok data, s1) ->
  client_open self = true
  /\ requests_made s1 = S (requests_made s)
  /\ exists request response,
       transport env (requests_made s) request = Responded response
       /\ is_success response = true
       /\ json_body response = Some data
       /\ exists fields, data = VDict fields.
Proof.
  unfold get_body. destruct (client_open self); simpl; [|discriminate].
  destruct (_get_headers env) as [h|e]; [|discriminate].
  destruct (transport env (requests_made s) _) as [response|e] eqn:Ht;
    [|discriminate].
  intros H. injection H as Hres <-.
  split; [reflexivity|]. split; [reflexivity|].
  eexists. exists response. split; [exact Ht|].
  apply handle_response_ok. exact Hres.
Qed.

(** The body never takes a request back. *)
Lemma get_body_requests (a b : Session) (r : Result Value) :
  get_body self env endpoint query a = (r, b) ->
  (requests_made a <= requests_made b)%nat.
Proof.
  unfold get_body.
  destruct (negb (client_open self));
    [intros H; injection H as _ <-; simpl; lia|].
  destruct (_get_headers env);
    [|intros H; injection H as _ <-; simpl; lia].
  destruct (transport env _ _); intros H; injection H as _ <-; simpl; lia.
Qed.

End GetOutcomes.

(** X9. [get] returns data only from a successful response: whenever it
    returns, the client is open and one of the at most three requests of
    this call was answered with a 2xx status and a JSON object, which is
    the value returned. An error status never yields data. *)
Theorem get_returns_successful_body (self : HttpClient.t) (env : Env)
    (endpoint : string) (query : option (list (string * Value)))
    (s s' : Session) (data : Value) :
  get self env endpoint query s = Some (Ok data, s') ->
  client_open self = true
  /\ exists n request response,
       (requests_made s <= n < requests_made s')%nat
       /\ (requests_made s' <= requests_made s + 3)%nat
       /\ transport env n request = Responded response
       /\ is_success response = true
       /\ json_body response = Some data
       /\ exists fields, data = VDict fields.
Proof.
  rewrite get_three_bodies.
  destruct (get_body self env endpoint query s) as [[d1|e1] s1] eqn:H1.
  - intros H. injection H as <- <-.
    destruct (get_body_ok _ _ _ _ _ _ _ H1)
      as (Hopen & Hreq & rq & rs & Ht & Hrest).
    split; [exact Hopen|]. exists (requests_made s), rq, rs.
    repeat split; try apply Hrest; try exact Ht; lia.
  - destruct (get_body_counts _ _ _ _ _ _ _ H1) as (_ & Hr1 & _).
    pose proof (get_body_requests _ _ _ _ _ _ _ H1) as M1.
    destruct (negb (retry_if_exception_type e1)); [discriminate|].
    destruct (get_body self env endpoint query (sleep _ s1))
      as [[d2|e2] s2] eqn:H2.
    + intros H. injection H as <- <-.
      destruct (get_body_ok _ _ _ _ _ _ _ H2)
        as (Hopen & Hreq & rq & rs & Ht & Hrest).
      cbn [sleep requests_made] in Hreq, Ht.
      split; [exact Hopen|]. exists (requests_made s1), rq, rs.
      repeat split; try apply Hrest; try exact Ht; lia.
    + destruct (get_body_counts _ _ _ _ _ _ _ H2) as (_ & Hr2 & _).
      pose proof (get_body_requests _ _ _ _ _ _ _ H2) as M2.
      cbn [sleep requests_made] in Hr2, M2.
      destruct (negb (retry_if_exception_type e2)); [discriminate|].
      destruct (get_body self env endpoint query (sleep _ s2))
        as [[d3|e3] s3] eqn:H3; [|discriminate].
      intros H. injection H as <- <-.
      destruct (get_body_ok _ _ _ _ _ _ _ H3)
        as (Hopen & Hreq & rq & rs & Ht & Hrest).
      cbn [sleep requests_made] in Hreq, Ht.
      split; [exact Hopen|]. exists (requests_made s2), rq, rs.
      repeat split; try apply Hrest; try exact Ht; lia.
Qed.

Lemma get_returns_successful_body_witness :
  client_open open_client = true
  /\ exists n request response,
       (0 <= n < 3)%nat
       /\ (3 <= 0 + 3)%nat
       /\ transport flaky n request = Responded response
       /\ is_success response = true
       /\ json_body response = Some account_data
       /\ exists fields, account_data = VDict fields.
Proof.
  apply (get_returns_successful_body open_client flaky "/api/v4/account" None
           fresh {| requests_made := 3; attempts_made := 3; slept := [2; 2] |}
           account_data).
  reflexivity.
Defined.

(** X10. Only the two [httpx] exception classes are retried. Any other
    exception of the first attempt reaches the caller at once: one
    attempt, no pause. In particular a client that was not opened raises
    [RuntimeError] without a request, and so does a missing token. *)
Theorem get_raises_other_errors_at_once (self : HttpClient.t) (env : Env)
    (endpoint : string) (query : option (list (string * Value)))
    (s : Session) :
  (forall e s1,
      get_body self env endpoint query s = (Raise e, s1) ->
      retry_if_exception_type e = false ->
      get self env endpoint query s = Some (Raise e, s1)
      /\ attempts_made s1 = S (attempts_made s)
      /\ slept s1 = slept s)
  /\ (client_open self = false ->
      exists msg,
        get self env endpoint query s
        = Some (Raise (RuntimeError msg),
                {| requests_made := requests_made s;
                   attempts_made := S (attempts_made s);
                   slept := slept s |}))
  /\ (forall e,
        client_open self = true ->
        _get_headers env = Raise e ->
        retry_if_exception_type e = false ->
        get self env endpoint query s
        = Some (Raise e,
                {| requests_made := requests_made s;
                   attempts_made := S (attempts_made s);
                   slept := slept s |})).
Proof.
  split; [|split].
  - intros e s1 Hbody Hno. rewrite get_three_bodies, Hbody, Hno. cbn [negb].
    destruct (get_body_counts _ _ _ _ _ _ _ Hbody) as (Ha & _ & Hs).
    repeat split; assumption.
  - intros Hclosed. eexists. rewrite get_three_bodies.
    unfold get_body at 1. rewrite Hclosed. reflexivity.
  - intros e Hopen Hh Hno. rewrite get_three_bodies.
    unfold get_body at 1. rewrite Hopen, Hh. cbn [negb].
    rewrite Hno. reflexivity.
Qed.

Definition no_token : Env :=
  {| AMO_LONG_LIVE_TOKEN := None;
     default_token_manager := Ok "";
     transport := fun _ _ => respond 200 (Some account_data) |}.

Lemma get_raises_other_errors_at_once_witness :
  get open_client no_token "/api/v4/account" None fresh
  = Some (Raise (RuntimeError "Access token недоступен"),
          {| requests_made := 0; attempts_made := 1; slept := [] |})
  /\ exists msg,
       get {| base_url := "https://example.amocrm.ru"; client_open := false |}
         flaky "/api/v4/account" None fresh
       = Some (Raise (RuntimeError msg),
               {| requests_made := 0; attempts_made := 1; slept := [] |}).
Proof.
  split.
  - apply (proj2 (proj2 (get_raises_other_errors_at_once open_client no_token
                           "/api/v4/account" None fresh))
             (RuntimeError "Access token недоступен"));
      reflexivity.
  - apply (proj1 (proj2 (get_raises_other_errors_at_once
                           {| base_url := "https://example.amocrm.ru";
                              client_open := false |}
                           flaky "/api/v4/account" None fresh))).
    reflexivity.
Defined.

(** X11. The pauses. [wait_exponential(multiplier=1, min=2, max=10)] is between
    2 and 10 seconds for every attempt number; the call makes one to three
    attempts and sleeps 2 seconds between two attempts, so it never sleeps
    more than 4 seconds in all, and it sleeps only after a failed attempt
    of a retried class. *)
Theorem get_pauses (self : HttpClient.t) (env : Env) (endpoint : string)
    (query : option (list (string * Value))) (s s' : Session)
    (r : Result Value) :
  (forall attempt_number, 2 <= wait_exponential attempt_number <= 10)
  /\ (get self env endpoint query s = Some (r, s') ->
      (1 <= attempts_made s' - attempts_made s <= 3)%nat
      /\ slept s'
         = slept s ++ repeat 2 (attempts_made s' - attempts_made s - 1)).
Proof.
  split.
  - intros n. unfold wait_exponential.
    generalize (1 * 2 ^ (n - 1)). intros w. lia.
  - rewrite get_three_bodies.
    assert (forall (k : nat) (a : nat) (l0 l : list Z),
               l = l0 ++ repeat 2 k ->
               forall n, n = k -> l = l0 ++ repeat 2 n) as Hrepeat
      by (intros; subst; reflexivity).
    destruct (get_body self env endpoint query s) as [[d1|e1] s1] eqn:H1;
      destruct (get_body_counts _ _ _ _ _ _ _ H1) as (A1 & _ & S1).
    + intros H. injection H as <- <-. rewrite A1, S1.
      split; [lia|]. apply (Hrepeat 0%nat 0%nat); [|lia].
      simpl. symmetry. apply app_nil_r.
    + destruct (negb (retry_if_exception_type e1)).
      * intros H. injection H as <- <-. rewrite A1, S1.
        split; [lia|]. apply (Hrepeat 0%nat 0%nat); [|lia].
        simpl. symmetry. apply app_nil_r.
      * destruct (get_body self env endpoint query (sleep _ s1))
          as [[d2|e2] s2] eqn:H2;
          destruct (get_body_counts _ _ _ _ _ _ _ H2) as (A2 & _ & S2);
          cbn [sleep attempts_made slept] in A2, S2.
        -- intros H. injection H as <- <-. rewrite A2, S2, A1, S1.
           split; [lia|]. apply (Hrepeat 1%nat 0%nat); [reflexivity|lia].
        -- destruct (negb (retry_if_exception_type e2)).
           ++ intros H. injection H as <- <-. rewrite A2, S2, A1, S1.
              split; [lia|]. apply (Hrepeat 1%nat 0%nat); [reflexivity|lia].
           ++ destruct (get_body self env endpoint query (sleep _ s2))
                as [[d3|e3] s3] eqn:H3;
                destruct (get_body_counts _ _ _ _ _ _ _ H3) as (A3 & _ & S3);
                cbn [sleep attempts_made slept] in A3, S3;
                intros H; injection H as <- <-;
                rewrite A3, S3, A2, S2, A1, S1;
                (split; [lia|]); (apply (Hrepeat 2%nat 0%nat); [|lia]);
                rewrite <- app_assoc; reflexivity.
Qed.

Lemma get_pauses_witness :
  (1 <= 3 - 0 <= 3)%nat /\ [2; 2] = [] ++ repeat 2 (3 - 0 - 1).
Proof.
  apply (proj2 (get_pauses open_client unavailable "/api/v4/account" None
                  fresh
                  {| requests_made := 3; attempts_made := 3; slept := [2; 2] |}
                  (Raise (HTTPStatusError 503)))).
  reflexivity.
Defined.

(** ** The user ids *)

(** The ids of a list of user objects, in order; a user without ["id"]
    gives none. *)
Definition ids_of (users : list (list (string * Value))) : list Value :=
  flat_map (fun user => match dict_get user "id" with
                        | Some v => [v]
                        | None => []
                        end) users.

Lemma user_ids_of_dicts (users : list (list (string * Value))) :
  user_ids_of (map VDict users) = Ok (ids_of users).
Proof.
  induction users as [|user users IH]; simpl; [reflexivity|].
  rewrite IH. simpl. destruct (dict_get user "id"); reflexivity.
Qed.

(** X12. [get_users] asks once for [/api/v4/users] and returns the ["id"] of
    every user object under [_embedded.users] that has one, in the order
    of the response, skipping the users without; a response without
    [_embedded] or without [users] gives the empty list. When the request
    fails, the error of the retried GET is raised as it is, never an empty
    list in its place. *)
Theorem get_users_lists_ids (self : AmoCRMClient.t) (env : Env) (s : Session)
    (h : list (string * string)) :
  _get_headers env = Ok h ->
  (forall response embedded users,
      (forall request,
          transport env (requests_made s) request
          = respond 200 (Some response)) ->
      value_get response "_embedded" (VDict []) = Ok embedded ->
      value_get embedded "users" (VList []) = Ok (VList (map VDict users)) ->
      get_users self env s = Some (Ok (ids_of users), one_more s))
  /\ (forall fields,
        (forall request,
            transport env (requests_made s) request
            = respond 200 (Some (VDict fields))) ->
        dict_get fields "_embedded" = None ->
        get_users self env s = Some (Ok [], one_more s))
  /\ (forall e s1,
        get (aenter (http_client self)) env "/api/v4/users" None s
        = Some (Raise e, s1) ->
        get_users self env s = Some (Raise e, s1)).
Proof.
  intros Hh. split; [|split].
  - intros response embedded users Ht He Hu. unfold get_users. cbv zeta.
    rewrite (get_ok_first (aenter (http_client self)) env "/api/v4/users" None
               h s response eq_refl Hh).
    + rewrite He. cbn [bind]. rewrite Hu. cbn [bind iterate].
      rewrite user_ids_of_dicts. reflexivity.
    + rewrite Ht. apply (handle_response_page response embedded He).
      apply (value_get_has_len _ _ _ _ Hu).
  - intros fields Ht Hnone. unfold get_users. cbv zeta.
    rewrite (get_ok_first (aenter (http_client self)) env "/api/v4/users" None
               h s (VDict fields) eq_refl Hh).
    + unfold value_get, dict_get_default. rewrite Hnone. reflexivity.
    + rewrite Ht. unfold respond, attempt_result, handle_response. simpl.
      unfold dict_get_default. rewrite Hnone. reflexivity.
  - intros e s1 Hget. unfold get_users. cbv zeta. rewrite Hget. reflexivity.
Qed.

Definition users_body : Value :=
  VDict [("_total_items", VInt 3);
         ("_embedded",
          VDict [("users",
                  VList [VDict [("id", VInt 7); ("name", VStr "Anna")];
                         VDict [("name", VStr "no id")];
                         VDict [("id", VInt 8)]])])].

Lemma get_users_lists_ids_witness :
  get_users {| http_client := open_client |}
    (with_transport (fun _ _ => respond 200 (Some users_body))) fresh
  = Some (Ok [VInt 7; VInt 8],
          {| requests_made := 1; attempts_made := 1; slept := [] |})
  /\ get_users {| http_client := open_client |} not_found fresh
     = Some (Raise (HTTPStatusError 404),
             {| requests_made := 3; attempts_made := 3; slept := [2; 2] |}).
Proof.
  split.
  - apply (proj1 (get_users_lists_ids {| http_client := open_client |}
                    (with_transport (fun _ _ => respond 200 (Some users_body)))
                    fresh (bearer "token") eq_refl)
             users_body
             (VDict [("users",
                      VList [VDict [("id", VInt 7); ("name", VStr "Anna")];
                             VDict [("name", VStr "no id")];
                             VDict [("id", VInt 8)]])])
             [[("id", VInt 7); ("name", VStr "Anna")];
              [("name", VStr "no id")];
              [("id", VInt 8)]]).
    + intros request. reflexivity.
    + reflexivity.
    + reflexivity.
  - apply (proj2 (proj2 (get_users_lists_ids {| http_client := open_client |}
                           not_found fresh (bearer "token") eq_refl))).
    reflexivity.
Defined.

(** ** The paginated fetch: a failing page *)

(** The server returns [pages] as pages [p], [p + 1], ..., all with a
    [next] link. *)
Definition full_pages (env : Env) (p : Z) (pages : list (list Value)) : Prop :=
  forall i evs,
    nth_error pages i = Some evs ->
    evs <> []
    /\ exists response,
         serves env (p + Z.of_nat i) response /\ is_page response evs true.

(** Every request for page [p] is answered with [status]. *)
Definition fails_page (env : Env) (p status : Z) : Prop :=
  forall n request,
    requested_page request = Some (VInt p) ->
    exists body, transport env n request = respond status body.

Definition after_retries (s : Session) : Session :=
  {| requests_made := requests_made s + 3;
     attempts_made := attempts_made s + 3;
     slept := slept s ++ [2; 2] |}.

Lemma attempt_result_error_status (status : Z) (body : option Value) :
  status < 200 \/ 299 < status ->
  attempt_result (respond status body) = Raise (HTTPStatusError status).
Proof.
  intros Hstatus.
  unfold respond, attempt_result, handle_response, raise_for_status,
    is_success. cbn [status_code].
  assert ((200 <=? status) && (status <=? 299) = false) as ->.
  { apply andb_false_iff.
    destruct Hstatus; [left; apply Z.leb_gt|right; apply Z.leb_gt]; lia. }
  destruct (temporary_status status); reflexivity.
Qed.

Section FailingPage.

Variable client : HttpClient.t.
Variable env : Env.
Variable timestamp_from timestamp_to : Z.
Variable h : list (string * string).
Variable status : Z.
Hypothesis client_is_open : client_open client = true.
Hypothesis headers_ok : _get_headers env = Ok h.
Hypothesis error_status : status < 200 \/ 299 < status.

Lemma get_failing_page (p : Z) (s : Session) :
  fails_page env p status ->
  get client env "/api/v4/events"
    (Some (events_params timestamp_from timestamp_to p 100)) s
  = Some (Raise (HTTPStatusError status), after_retries s).
Proof.
  intros Hfail.
  assert (forall n,
             attempt_result
               (transport env n
                  (request_of client h "/api/v4/events"
                     (Some (events_params timestamp_from timestamp_to p 100))))
             = Raise (HTTPStatusError status)) as Hres.
  { intros n. destruct (Hfail n (request_of client h "/api/v4/events"
                  (Some (events_params timestamp_from timestamp_to p 100)))
                  eq_refl) as [body ->].
    apply attempt_result_error_status. exact error_status. }
  rewrite get_three_bodies.
  rewrite !(get_body_open client env _ _ h _ client_is_open headers_ok).
  fold (request_of client h "/api/v4/events"
          (Some (events_params timestamp_from timestamp_to p 100))).
  repeat match goal with
         | |- context [match transport env ?n ?rq with
                       | Responded response => handle_response response
                       | Failed e => Raise e
                       end] =>
             change (match transport env n rq with
                     | Responded response => handle_response response
                     | Failed e => Raise e
                     end) with (attempt_result (transport env n rq));
             rewrite (Hres n)
         end.
  cbn [retry_if_exception_type negb]. unfold after_retries.
  cbn [sleep requests_made attempts_made slept].
  rewrite <- app_assoc.
  do 2 f_equal. f_equal; lia.
Qed.

Lemma get_events_loop_failing (pages : list (list Value)) :
  forall (p : Z) (acc : list Value) (s : Session) (fuel : nat),
    full_pages env p pages ->
    fails_page env (p + Z.of_nat (List.length pages)) status ->
    (List.length pages + 1 <= fuel)%nat ->
    get_events_loop fuel client env timestamp_from timestamp_to p 100 acc s
    = Some (Raise (HTTPStatusError status),
            after_retries (advance (List.length pages) s)).
Proof.
  induction pages as [|evs rest IH]; intros p acc s fuel Hfull Hfail Hfuel;
    (destruct fuel as [|fuel]; [simpl in Hfuel; lia|]); cbn [get_events_loop].
  - simpl in Hfail. rewrite Z.add_0_r in Hfail.
    rewrite (get_failing_page p s Hfail).
    unfold after_retries, advance. simpl.
    do 2 f_equal. f_equal; lia.
  - destruct (Hfull 0%nat evs eq_refl) as (Hne & response & Hs & Hpage).
    rewrite Z.add_0_r in Hs.
    pose proof Hpage as (embedded & links & He & Hev & _).
    rewrite (get_served_page client env timestamp_from timestamp_to h
               client_is_open headers_ok p response embedded s Hs He
               (value_get_has_len _ _ _ _ Hev)).
    rewrite (after_page_events acc response evs true Hne Hpage).
    rewrite (IH (p + 1) (acc ++ evs) (one_more s) fuel).
    + rewrite advance_one_more. reflexivity.
    + intros i evs' Hi. destruct (Hfull (S i) evs' Hi) as (Hne' & r' & Hs' & Hp').
      split; [exact Hne'|]. exists r'. split; [|exact Hp'].
      replace (p + 1 + Z.of_nat i) with (p + Z.of_nat (S i)) by lia. exact Hs'.
    + replace (p + 1 + Z.of_nat (List.length rest))
        with (p + Z.of_nat (List.length (evs :: rest)))
        by (simpl List.length; lia).
      exact Hfail.
    + simpl in Hfuel. lia.
Qed.

End FailingPage.

(** X13. A failure on any page aborts the whole fetch. When the server returns
    [N] full pages and then answers the next page with an error status,
    [get_events] raises that error, after the [N] requests and the three
    attempts at the failing page, and none of the events of the [N] pages
    is returned. *)
Theorem get_events_aborts_on_failed_page (self : AmoCRMClient.t) (env : Env)
    (timestamp_from timestamp_to : Z) (h : list (string * string))
    (pages : list (list Value)) (status : Z) (fuel : nat) :
  _get_headers env = Ok h ->
  status < 200 \/ 299 < status ->
  full_pages env 1 pages ->
  fails_page env (1 + Z.of_nat (List.length pages)) status ->
  (List.length pages + 1 <= fuel)%nat ->
  get_events fuel self env timestamp_from timestamp_to fresh
  = Some (Raise (HTTPStatusError status),
          {| requests_made := List.length pages + 3;
             attempts_made := List.length pages + 3;
             slept := [2; 2] |}).
Proof.
  intros Hh Hstatus Hfull Hfail Hfuel. unfold get_events.
  rewrite (get_events_loop_failing (aenter (http_client self)) env
             timestamp_from timestamp_to h status eq_refl Hh Hstatus pages
             1 [] fresh fuel Hfull Hfail Hfuel).
  reflexivity.
Qed.

(** A server whose third page is out of order. *)
Definition broken_server : Env :=
  with_transport
    (fun n request =>
       match requested_page request with
       | Some (VInt 3) => respond 502 None
       | _ => transport (paged_server two_pages EmptyPage) n request
       end).

Lemma get_events_aborts_on_failed_page_witness :
  get_events 3 {| http_client := open_client |} broken_server
    1736899200 1736985599 fresh
  = Some (Raise (HTTPStatusError 502),
          {| requests_made := 5; attempts_made := 5; slept := [2; 2] |}).
Proof.
  apply (get_events_aborts_on_failed_page {| http_client := open_client |}
           broken_server 1736899200 1736985599 (bearer "token") two_pages
           502 3).
  - reflexivity.
  - right. lia.
  - intros i evs Hi.
    destruct i as [|[|i]]; simpl in Hi;
      [injection Hi as <- | injection Hi as <- | destruct i; discriminate];
      (split; [discriminate|]);
      eexists; (split; [|apply page_body_is_page]);
      intros n request Hreq;
      unfold broken_server, paged_server, with_transport;
      cbn [transport]; rewrite !Hreq; reflexivity.
  - intros n request Hreq. exists None.
    unfold broken_server, with_transport. cbn [transport].
    rewrite Hreq. reflexivity.
  - simpl. lia.
Defined.

(** ** The filter: edge cases *)

Lemma filter_automated_events_filter (E : list Event) (U : list Z) :
  filter_automated_events E U = filter (is_automated U) E.
Proof.
  unfold filter_automated_events. apply filter_loop_app.
Qed.

Lemma is_automated_more_users (U U' : list Z) (e : Event) :
  incl U U' -> is_automated U' e = true -> is_automated U e = true.
Proof.
  intros Hincl. unfold is_automated.
  destruct (is_None (created_by e)); [reflexivity|]. simpl.
  rewrite !negb_true_iff. intros Hnot.
  destruct (in_ints (created_by e) U) eqn:Hin; [|reflexivity].
  apply in_ints_true in Hin. destruct Hin as (uid & Huid & Heq).
  assert (in_ints (created_by e) U' = true) as Hin'
    by (apply in_ints_true; exists uid; split; [apply Hincl, Huid|exact Heq]).
  congruence.
Qed.

(** X15. With an empty list of user ids every event counts as automated and the
    filter returns its input. Filtering is idempotent, never returns more
    events than it was given, and knowing more user ids can only remove
    events: what is kept under a larger list is kept under a smaller
    one. *)
Theorem filter_automated_events_edges (E : list Event) (U : list Z) :
  filter_automated_events E [] = E
  /\ filter_automated_events (filter_automated_events E U) U
     = filter_automated_events E U
  /\ (List.length (filter_automated_events E U) <= List.length E)%nat
  /\ forall U' e,
       incl U U' ->
       In e (filter_automated_events E U') ->
       In e (filter_automated_events E U).
Proof.
  rewrite !filter_automated_events_filter.
  split; [|split; [|split]].
  - induction E as [|e E IH]; simpl; [reflexivity|].
    assert (is_automated [] e = true) as ->.
    { unfold is_automated, in_ints. simpl. apply orb_true_r. }
    rewrite IH. reflexivity.
  - induction E as [|e E IH]; simpl; [reflexivity|].
    destruct (is_automated U e) eqn:He; simpl; [rewrite He, IH|];
      [reflexivity|exact IH].
  - apply filter_length_le.
  - intros U' e Hincl. rewrite !filter_automated_events_filter, !filter_In.
    intros [Hin Hkeep]. split; [exact Hin|].
    apply (is_automated_more_users U U' e Hincl Hkeep).
Qed.

Lemma filter_automated_events_edges_witness :
  In [("type", VStr "task_added")] (filter_automated_events mixed_events [7]).
Proof.
  apply (proj2 (proj2 (proj2 (filter_automated_events_edges mixed_events [7])))
           [7; 8] [("type", VStr "task_added")]).
  - intros x [<-|[]]. left. reflexivity.
  - vm_compute. right. left. reflexivity.
Defined.

(** ** The request a call sends *)

Lemma get_headers_same (env1 env2 : Env) :
  AMO_LONG_LIVE_TOKEN env1 = AMO_LONG_LIVE_TOKEN env2 ->
  default_token_manager env1 = default_token_manager env2 ->
  _get_headers env1 = _get_headers env2.
Proof.
  intros Ht Hm. unfold _get_headers, _get_access_token. rewrite Ht, Hm.
  reflexivity.
Qed.

(** X16. A call consults its transport only with one request: the URL
    [base_url + endpoint], the given query, and the [Authorization] and
    [Content-Type] headers of [_get_headers]; two transports that agree
    on that request give the same call. The bearer token is the
    long-lived token when it is set and not empty, whatever the token
    manager holds, and the token manager's otherwise. *)
Theorem get_sends_authorized_request (self : HttpClient.t) (env1 env2 : Env)
    (endpoint : string) (query : option (list (string * Value)))
    (s : Session) (h : list (string * string)) :
  (AMO_LONG_LIVE_TOKEN env1 = AMO_LONG_LIVE_TOKEN env2 ->
   default_token_manager env1 = default_token_manager env2 ->
   _get_headers env1 = Ok h ->
   (forall n,
       transport env1 n (request_of self h endpoint query)
       = transport env2 n (request_of self h endpoint query)) ->
   get self env1 endpoint query s = get self env2 endpoint query s)
  /\ (forall token,
        AMO_LONG_LIVE_TOKEN env1 = Some token -> token <> "" ->
        _get_headers env1
        = Ok [("Authorization", ("Bearer " ++ token)%string);
              ("Content-Type", "application/json")])
  /\ (forall token,
        (AMO_LONG_LIVE_TOKEN env1 = None \/ AMO_LONG_LIVE_TOKEN env1 = Some "") ->
        default_token_manager env1 = Ok token -> token <> "" ->
        _get_headers env1
        = Ok [("Authorization", ("Bearer " ++ token)%string);
              ("Content-Type", "application/json")]).
Proof.
  split; [|split].
  - intros Ht Hm Hh Hsame.
    assert (forall s0,
               get_body self env1 endpoint query s0
               = get_body self env2 endpoint query s0) as Hbody.
    { intros s0. unfold get_body.
      rewrite <- (get_headers_same env1 env2 Ht Hm), Hh.
      destruct (negb (client_open self)); [reflexivity|].
      cbv zeta. cbn [requests_made attempts_made slept].
      fold (request_of self h endpoint query).
      rewrite (Hsame (requests_made s0)). reflexivity. }
    rewrite !get_three_bodies, !Hbody.
    destruct (get_body self env2 endpoint query s) as [[d1|e1] s1];
      [reflexivity|].
    destruct (negb (retry_if_exception_type e1)); [reflexivity|].
    rewrite Hbody.
    destruct (get_body self env2 endpoint query _) as [[d2|e2] s2];
      [reflexivity|].
    destruct (negb (retry_if_exception_type e2)); [reflexivity|].
    rewrite Hbody. reflexivity.
  - intros token Ht Hne. unfold _get_headers. rewrite Ht.
    destruct (String.eqb_spec token ""); [contradiction|reflexivity].
  - intros token Hnone Hm Hne.
    assert (_get_access_token env1 = Ok token) as Ha.
    { unfold _get_access_token. rewrite Hm. cbn [bind].
      destruct (String.eqb_spec token ""); [contradiction|reflexivity]. }
    unfold _get_headers.
    destruct Hnone as [-> | ->]; [|cbn [String.eqb]]; rewrite Ha; reflexivity.
Qed.

Lemma get_sends_authorized_request_witness :
  get open_client flaky "/api/v4/account" None fresh
  = get open_client
      (with_transport
         (fun n request =>
            if String.eqb (url request)
                 "https://example.amocrm.ru/api/v4/account"
            then transport flaky n request
            else respond 404 None))
      "/api/v4/account" None fresh.
Proof.
  apply (proj1 (get_sends_authorized_request open_client flaky
                  (with_transport
                     (fun n request =>
                        if String.eqb (url request)
                             "https://example.amocrm.ru/api/v4/account"
                        then transport flaky n request
                        else respond 404 None))
                  "/api/v4/account" None fresh (bearer "token")));
    reflexivity.
Defined.

(** ** The paginated fetch under transient failures *)

(** From invocation [n] on, the transport fails transiently [k] times, at
    most twice, and then answers 200 with [response]. *)
Definition recovers (env : Env) (n k : nat) (response : Value) : Prop :=
  (k <= 2)%nat
  /\ (forall j request,
         (j < k)%nat -> transient (transport env (n + j) request) = true)
  /\ forall request, transport env (n + k) request = respond 200 (Some response).

(** [fetches env n pages n' w]: from invocation [n] on, the server gives
    [pages] one after the other, each after at most two transient
    failures, and then ends the listing by an empty page or by a page
    without [next] link; [n'] invocations are used up in the end and [w]
    of them failed. *)
Inductive fetches (env : Env) : nat -> list (list Value) -> nat -> nat -> Prop :=
| fetches_empty (n k : nat) (response : Value) :
    recovers env n k response ->
    is_empty_page response ->
    fetches env n [] (n + k + 1) k
| fetches_last (n k : nat) (response : Value) (evs : list Value) :
    recovers env n k response ->
    evs <> [] ->
    is_page response evs false ->
    fetches env n [evs] (n + k + 1) k
| fetches_next (n k : nat) (response : Value) (evs : list Value)
    (rest : list (list Value)) (n' w : nat) :
    recovers env n k response ->
    evs <> [] ->
    is_page response evs true ->
    fetches env (n + k + 1) rest n' w ->
    fetches env n (evs :: rest) n' (k + w).

Definition after_failures (k : nat) (s : Session) : Session :=
  {| requests_made := requests_made s + k + 1;
     attempts_made := attempts_made s + k + 1;
     slept := slept s ++ repeat 2 k |}.

Section Recovering.

Variable client : HttpClient.t.
Variable env : Env.
Variable timestamp_from timestamp_to : Z.
Variable h : list (string * string).
Hypothesis client_is_open : client_open client = true.
Hypothesis headers_ok : _get_headers env = Ok h.

Lemma get_recovers (endpoint : string)
    (query : option (list (string * Value))) (s : Session) (k : nat)
    (response embedded : Value) :
  recovers env (requests_made s) k response ->
  value_get response "_embedded" (VDict []) = Ok embedded ->
  (exists n, len embedded = Ok n) ->
  get client env endpoint query s = Some (Ok response, after_failures k s).
Proof.
  intros (Hk & Hfail & Hok) He Hlen.
  assert (forall j,
             (j < k)%nat ->
             exists e,
               attempt_result
                 (transport env (requests_made s + j)
                    (request_of client h endpoint query)) = Raise e
               /\ retry_if_exception_type e = true) as Herr.
  { intros j Hj.
    destruct (transient_attempt_error _
                (Hfail j (request_of client h endpoint query) Hj))
      as (e & He' & Hr).
    exists e. split; [apply attempt_error_result, He'|exact Hr]. }
  assert (attempt_result
            (transport env (requests_made s + k)
               (request_of client h endpoint query)) = Ok response) as Hres.
  { rewrite Hok. apply (handle_response_page response embedded He Hlen). }
  rewrite get_three_bodies.
  rewrite !(get_body_open client env _ _ h _ client_is_open headers_ok).
  fold (request_of client h endpoint query).
  cbn [sleep requests_made attempts_made slept].
  repeat match goal with
         | |- context [match transport env ?n ?rq with
                       | Responded response => handle_response response
                       | Failed e => Raise e
                       end] =>
             change (match transport env n rq with
                     | Responded response => handle_response response
                     | Failed e => Raise e
                     end) with (attempt_result (transport env n rq))
         end.
  unfold after_failures.
  destruct k as [|[|[|k]]]; [| | |lia].
  - rewrite Nat.add_0_r in Hres. rewrite Hres.
    cbn [repeat]. rewrite app_nil_r. do 3 f_equal; lia.
  - destruct (Herr 0%nat) as (e0 & H0 & R0); [lia|].
    rewrite Nat.add_0_r in H0. rewrite H0, R0. cbn [negb].
    replace (S (requests_made s)) with (requests_made s + 1)%nat by lia.
    rewrite Hres. cbn [repeat]. do 3 f_equal; lia.
  - destruct (Herr 0%nat) as (e0 & H0 & R0); [lia|].
    destruct (Herr 1%nat) as (e1 & H1 & R1); [lia|].
    rewrite Nat.add_0_r in H0. rewrite H0, R0. cbn [negb].
    replace (S (requests_made s)) with (requests_made s + 1)%nat by lia.
    rewrite H1, R1. cbn [negb].
    replace (S (requests_made s + 1)) with (requests_made s + 2)%nat by lia.
    rewrite Hres. cbn [repeat]. rewrite <- app_assoc.
    do 3 f_equal; lia.
Qed.

Lemma get_events_loop_fetches (n n' w : nat) (pages : list (list Value)) :
  fetches env n pages n' w ->
  forall (p : Z) (acc : list Value) (s : Session) (fuel : nat),
    requests_made s = n ->
    (List.length pages + 1 <= fuel)%nat ->
    get_events_loop fuel client env timestamp_from timestamp_to p 100 acc s
    = Some (Ok (acc ++ List.concat pages),
            {| requests_made := n';
               attempts_made := attempts_made s + (n' - n);
               slept := slept s ++ repeat 2 w |}).
Proof.
  induction 1 as [n k response Hrec Hempty
                 |n k response evs Hrec Hne Hpage
                 |n k response evs rest n' w Hrec Hne Hpage Hrest IH];
    intros p acc s fuel Hs Hfuel;
    (destruct fuel as [|fuel]; [simpl in Hfuel; lia|]);
    cbn [get_events_loop]; subst n.
  - pose proof Hempty as (embedded & events & He & Hev & _).
    rewrite (get_recovers _ _ s k response embedded Hrec He
               (value_get_has_len _ _ _ _ Hev)).
    rewrite (after_page_empty acc response Hempty).
    simpl. rewrite app_nil_r. unfold after_failures.
    do 3 f_equal; lia.
  - pose proof Hpage as (embedded & links & He & Hev & _).
    rewrite (get_recovers _ _ s k response embedded Hrec He
               (value_get_has_len _ _ _ _ Hev)).
    rewrite (after_page_events acc response evs false Hne Hpage).
    simpl. rewrite app_nil_r. unfold after_failures.
    do 3 f_equal; lia.
  - pose proof Hpage as (embedded & links & He & Hev & _).
    rewrite (get_recovers _ _ s k response embedded Hrec He
               (value_get_has_len _ _ _ _ Hev)).
    rewrite (after_page_events acc response evs true Hne Hpage).
    rewrite (IH (p + 1) (acc ++ evs) (after_failures k s) fuel);
      [|reflexivity|simpl in Hfuel; lia].
    unfold after_failures. cbn [requests_made attempts_made slept].
    simpl List.concat. rewrite <- !app_assoc, repeat_app.
    assert (requests_made s + k + 1 <= n')%nat as Hle.
    { clear - Hrest. induction Hrest; lia. }
    do 3 f_equal; lia.
Qed.

End Recovering.

(** X14. Transient failures inside a fetch do not show in its result. When
    every page is obtained after at most two transient failures,
    [get_events] returns the events of the pages in page order, each page
    once, exactly as if no request had failed; it only uses one more
    request and one pause of 2 seconds per failure. *)
Theorem get_events_recovers_from_transient_failures (self : AmoCRMClient.t)
    (env : Env) (timestamp_from timestamp_to : Z)
    (h : list (string * string)) (pages : list (list Value))
    (n' w fuel : nat) :
  _get_headers env = Ok h ->
  fetches env 0 pages n' w ->
  (List.length pages + 1 <= fuel)%nat ->
  get_events fuel self env timestamp_from timestamp_to fresh
  = Some (Ok (List.concat pages),
          {| requests_made := n'; attempts_made := n'; slept := repeat 2 w |}).
Proof.
  intros Hh Hf Hfuel. unfold get_events.
  rewrite (get_events_loop_fetches (aenter (http_client self)) env
             timestamp_from timestamp_to h eq_refl Hh 0 n' w pages Hf
             1 [] fresh fuel eq_refl Hfuel).
  simpl. do 3 f_equal. lia.
Qed.

(** A server that fails twice on the first page and once on the second. *)
Definition shaky_server : Env :=
  with_transport
    (fun n request =>
       match n with
       | 0%nat => respond 503 None
       | 1%nat => Failed (RequestError "timeout")
       | 2%nat =>
           respond 200
             (Some (page_body [event 1 "lead_added"; event 2 "task_added"] true))
       | 3%nat => respond 429 None
       | _ => respond 200 (Some (page_body [event 3 "lead_added"] false))
       end).

Lemma get_events_recovers_from_transient_failures_witness :
  get_events 3 {| http_client := open_client |} shaky_server
    1736899200 1736985599 fresh
  = Some (Ok [event 1 "lead_added"; event 2 "task_added"; event 3 "lead_added"],
          {| requests_made := 5; attempts_made := 5; slept := [2; 2; 2] |}).
Proof.
  apply (get_events_recovers_from_transient_failures
           {| http_client := open_client |} shaky_server
           1736899200 1736985599 (bearer "token") two_pages 5 3 3).
  - reflexivity.
  - apply (fetches_next shaky_server 0 2
             (page_body [event 1 "lead_added"; event 2 "task_added"] true)
             [event 1 "lead_added"; event 2 "task_added"]
             [[event 3 "lead_added"]] 5 1).
    + split; [lia|]. split.
      * intros j request Hj. destruct j as [|[|j]]; [reflexivity|reflexivity|lia].
      * intros request. reflexivity.
    + discriminate.
    + apply page_body_is_page.
    + apply (fetches_last shaky_server 3 1
               (page_body [event 3 "lead_added"] false)
               [event 3 "lead_added"]).
      * split; [lia|]. split.
        -- intros j request Hj. destruct j as [|j]; [reflexivity|lia].
        -- intros request. reflexivity.
      * discriminate.
      * apply page_body_is_page.
  - simpl. lia.
Defined.

(** ** The names of the event types *)

Lemma dict_get_in {V : Type} (d : list (string * V)) (k : string) (v : V) :
  dict_get d k = Some v -> In (k, v) d.
Proof.
  induction d as [|[k0 v0] d IH]; simpl; [discriminate|].
  destruct (String.eqb_spec k0 k) as [->|Hne].
  - intros H. injection H as ->. left. reflexivity.
  - intros H. right. apply IH, H.
Qed.

Lemma dict_get_not_in {V : Type} (d : list (string * V)) (k : string) :
  ~ In k (map fst d) -> dict_get d k = None.
Proof.
  induction d as [|[k0 v0] d IH]; simpl; [reflexivity|].
  intros Hnot. destruct (String.eqb_spec k0 k) as [->|Hne].
  - exfalso. apply Hnot. left. reflexivity.
  - apply IH. intros Hin. apply Hnot. right. exact Hin.
Qed.

(** X17. [get_event_name] gives each of the listed types the name listed with
    it (no type is listed twice with different names), returns every other
    label unchanged, and never translates a name again: no name in the
    table is itself a listed type, so applying it twice is applying it
    once. *)
Theorem get_event_name_table (event_type : string) :
  (forall name,
      In (event_type, name) EVENT_TYPE_NAMES -> get_event_name event_type = name)
  /\ (~ In event_type (map fst EVENT_TYPE_NAMES) ->
      get_event_name event_type = event_type)
  /\ get_event_name (get_event_name event_type) = get_event_name event_type.
Proof.
  assert (forall kv,
             In kv EVENT_TYPE_NAMES ->
             get_event_name (fst kv) = snd kv
             /\ dict_get EVENT_TYPE_NAMES (snd kv) = None) as Htable.
  { intros kv Hin.
    assert (forallb
              (fun kv =>
                 String.eqb (get_event_name (fst kv)) (snd kv)
                 && match dict_get EVENT_TYPE_NAMES (snd kv) with
                    | None => true
                    | Some _ => false
                    end) EVENT_TYPE_NAMES = true) as Hall
      by (vm_compute; reflexivity).
    rewrite forallb_forall in Hall. specialize (Hall kv Hin).
    apply andb_true_iff in Hall. destruct Hall as [Hname Hnone].
    apply String.eqb_eq in Hname. split; [exact Hname|].
    destruct (dict_get EVENT_TYPE_NAMES (snd kv)); [discriminate|reflexivity]. }
  split; [|split].
  - intros name Hin. apply (Htable (event_type, name) Hin).
  - intros Hnot. unfold get_event_name, dict_get_default.
    rewrite (dict_get_not_in _ _ Hnot). reflexivity.
  - destruct (dict_get EVENT_TYPE_NAMES event_type) as [name|] eqn:Hget.
    + assert (get_event_name event_type = name) as ->
        by (unfold get_event_name, dict_get_default; rewrite Hget; reflexivity).
      apply dict_get_in in Hget.
      destruct (Htable (event_type, name) Hget) as [_ Hnone].
      cbn [snd] in Hnone.
      unfold get_event_name, dict_get_default. rewrite Hnone. reflexivity.
    + assert (get_event_name event_type = event_type) as ->
        by (unfold get_event_name, dict_get_default; rewrite Hget; reflexivity).
      unfold get_event_name, dict_get_default. rewrite Hget. reflexivity.
Qed.

Lemma get_event_name_table_witness :
  get_event_name "robot_replied" = "Ответ робота"
  /\ get_event_name "custom_robot_event" = "custom_robot_event".
Proof.
  split.
  - apply (proj1 (get_event_name_table "robot_replied")).
    vm_compute. do 44 right. left. reflexivity.
  - apply (proj1 (proj2 (get_event_name_table "custom_robot_event"))).
    vm_compute. intuition discriminate.
Defined.

(** ** From the probe to the report *)

(** X18. What the hourly probe stores is what the daily report shows. When a
    sample is saved whose latency exceeds every sample of its date, the
    maximum of that date is this sample, and the first row of the report
    built from it carries its latency and its time of day as [HH:MM]; the
    other rows carry no peak. *)
Theorem report_shows_stored_peak (db : Table) (now T report_date : datetime)
    (latency_ms : Z) (first : string * Z) (others : list (string * Z)) :
  valid T = true ->
  1000 <= year T ->
  fits_int64 latency_ms = true ->
  (forall row,
      In row db -> sqlite_date (fst row) = Some (strftime_date T) ->
      snd row < latency_ms) ->
  exists db',
    save_latency db now latency_ms (Some T) = Ok db'
    /\ get_max_latency_for_date sqlite_date db' (strftime_date T)
       = Some (strftime_iso T, latency_ms)
    /\ prepare_report_data report_date (first :: others)
         (get_max_latency_for_date sqlite_date db' (strftime_date T))
       = Ok ([CStr (format_date report_date);
              CStr (get_event_name (fst first)); CInt (snd first);
              CInt latency_ms; CStr (strftime_HM T)]
             :: map (blank_row (format_date report_date)) others).
Proof.
  intros Hv Hy Hfits Hless.
  exists (db ++ [(strftime_iso T, latency_ms)]).
  split; [unfold save_latency; rewrite Hfits; reflexivity|].
  assert (get_max_latency_for_date sqlite_date
            (db ++ [(strftime_iso T, latency_ms)]) (strftime_date T)
          = Some (strftime_iso T, latency_ms)) as Hmax.
  { unfold get_max_latency_for_date. rewrite filter_app. cbn [filter].
    rewrite (proj2 (on_date_true sqlite_date (strftime_date T)
                      (strftime_iso T, latency_ms))
               (sqlite_date_strftime T Hv Hy)).
    rewrite first_by_latency_desc_snoc.
    destruct (first_by_latency_desc
                (filter (on_date sqlite_date (strftime_date T)) db))
      as [best|] eqn:Hbest; [|reflexivity].
    destruct (first_by_latency_desc_max _ _ Hbest) as [Hin _].
    apply filter_In in Hin. destruct Hin as [Hin Hon].
    apply on_date_true in Hon. specialize (Hless best Hin Hon).
    cbn [snd]. destruct (Z.ltb_spec (snd best) latency_ms); [reflexivity|lia]. }
  split; [exact Hmax|]. rewrite Hmax.
  unfold prepare_report_data. destruct first as [event_type count].
  cbn [event_rows]. change (0 =? 0) with true. cbv iota.
  unfold format_time, try_except.
  rewrite (strftime_iso_chars T Hy), (strptime_strftime T Hv).
  cbn [bind].
  rewrite (event_rows_blank _ others _ (0 + 1)) by lia.
  reflexivity.
Qed.

Lemma report_shows_stored_peak_witness :
  exists db',
    save_latency three_days (at_time 2025 1 16 4 0 0) 350
      (Some (at_time 2025 1 15 18 23 0)) = Ok db'
    /\ get_max_latency_for_date sqlite_date db' "2025-01-15"
       = Some ("2025-01-15T18:23:00Z", 350)
    /\ prepare_report_data (at_time 2025 1 15 0 0 0)
         [("incoming_chat_message", 116); ("task_added", 114)]
         (get_max_latency_for_date sqlite_date db' "2025-01-15")
       = Ok [[CStr "15.01.2025"; CStr "Входящее сообщение"; CInt 116;
              CInt 350; CStr "18:23"];
             [CStr "15.01.2025"; CStr "Новая задача"; CInt 114;
              CStr ""; CStr ""]].
Proof.
  assert (1000 <= year (at_time 2025 1 15 18 23 0)) as Hy by (simpl; lia).
  apply (report_shows_stored_peak three_days (at_time 2025 1 16 4 0 0)
           (at_time 2025 1 15 18 23 0) (at_time 2025 1 15 0 0 0) 350
           ("incoming_chat_message", 116) [("task_added", 114)]
           eq_refl Hy eq_refl).
  intros row Hin Hdate.
  destruct Hin as [<-|[<-|[<-|[<-|[]]]]]; simpl; try lia;
    vm_compute in Hdate; discriminate.
Defined.

(** [get_account_info] is one retried GET of [/api/v4/account]. *)
Example get_account_info_after_two_failures :
  get_account_info {| http_client := open_client |} flaky fresh
  = Some (Ok account_data,
          {| requests_made := 3; attempts_made := 3; slept := [2; 2] |}).
Proof. reflexivity. Qed.
